(** * xig.js: the facet filter compiler, the summary statistics, the
      configuration cache and the dataset refresh of the XIG module.

    JavaScript strings are modelled as [string]: one [ascii] per code
    unit, so [String.length] is the JavaScript [length] for every string
    whose code units are below 256.  A value that may be [undefined] is an
    [option]. *)

From Stdlib Require Import ZArith String Ascii List Bool Lia.
From Stdlib Require Import Decimal DecimalString.
From stdpp Require Import base option list gmap strings.

Local Open Scope string_scope.
Import ListNotations.

(** ** JavaScript values and strings *)

(** The values a row of a query result, a [Set] element or a [Map] key can
    hold here.  The numbers are the integers the dataset holds, keys and
    counts, which JavaScript represents exactly and writes with all their
    digits (below 2^53 and 10^21). *)
Inductive JsVal : Type :=
| VUndef
| VNull
| VNum (z : Z)
| VStr (s : string).

#[global] Instance JsVal_eq_dec : EqDecision JsVal.
Proof. solve_decision. Defined.

(** [v] used as a condition. *)
Definition truthyV (v : JsVal) : bool :=
  match v with
  | VUndef | VNull => false
  | VNum z => negb (Z.eqb z 0)
  | VStr s => negb (String.eqb s "")
  end.

(** [x && x !== ''] for a parameter that is a string or absent. *)
Definition truthy (x : option string) : bool :=
  match x with
  | Some (String _ _) => true
  | _ => false
  end.

(** The string a parameter holds; only read where [truthy] holds. *)
Definition str (x : option string) : string := default "" x.

(** [x === lit] for a parameter. *)
Definition isStr (x : option string) (lit : string) : bool :=
  match x with
  | Some s => String.eqb s lit
  | None => false
  end.

(** [s.substring(n)]. *)
Fixpoint substring (n : nat) (s : string) : string :=
  match n, s with
  | O, _ => s
  | S _, EmptyString => EmptyString
  | S n', String _ r => substring n' r
  end.

(** [s.replace(/'/g, "''")]. *)
Fixpoint replaceQuotes (s : string) : string :=
  match s with
  | EmptyString => EmptyString
  | String c r =>
      if Ascii.eqb c "'" then String "'" (String "'" (replaceQuotes r))
      else String c (replaceQuotes r)
  end.

(** ** The configuration cache (lines 32-37, 1176-1217) *)

Record Package := {
  PackageKey : JsVal;
  Id : JsVal;
  PID : JsVal;
  Web : JsVal;
  Canonical : JsVal
}.

Inductive MapVal : Type :=
| MJs (v : JsVal)
| MPkg (p : Package).

(** A [Set] keeps its elements, a [Map] its entries, in insertion order. *)
Inductive Table : Type :=
| TSet (elems : list JsVal)
| TMap (entries : list (JsVal * MapVal)).

Record Cache := {
  loaded : bool;
  lastUpdated : option Z;
  maps : gmap string Table
}.

(** The cache the module starts with. *)
Definition initialCache : Cache :=
  {| loaded := false; lastUpdated := None; maps := ∅ |}.

(** [set.has(v)]. *)
Definition setHas (elems : list JsVal) (v : JsVal) : bool :=
  bool_decide (v ∈ elems).

(** [set.add(v)]. *)
Definition setAdd (v : JsVal) (elems : list JsVal) : list JsVal :=
  if setHas elems v then elems else (elems ++ [v])%list.

(** [map.set(k, v)]: an existing key keeps its place. *)
Fixpoint mapSet (k : JsVal) (v : MapVal) (entries : list (JsVal * MapVal))
  : list (JsVal * MapVal) :=
  match entries with
  | [] => [(k, v)]
  | (k', v') :: rest =>
      if bool_decide (k' = k) then (k, v) :: rest
      else (k', v') :: mapSet k v rest
  end.

(** [map.get(k)]. *)
Fixpoint mapGet (k : JsVal) (entries : list (JsVal * MapVal)) : option MapVal :=
  match entries with
  | [] => None
  | (k', v') :: rest => if bool_decide (k' = k) then Some v' else mapGet k rest
  end.

Definition hasCachedValue (configCache : Cache) (tableName : string) (value : string)
  : bool :=
  if negb (loaded configCache) then false
  else match maps configCache !! tableName with
       | None => false
       | Some (TSet elems) => setHas elems (VStr value)
       | Some (TMap _) => false
       end.

Definition getCachedTable (configCache : Cache) (tableName : string) : option Table :=
  if negb (loaded configCache) then None
  else maps configCache !! tableName.

(** Helper of line 336: the terminology sources are looked up with
    [hasCachedValue], which answers for a [Set] only. *)
Definition hasTerminologySource (configCache : Cache) (sourceCode : string) : bool :=
  hasCachedValue configCache "txSources" sourceCode.

(** ** The filter compiler (lines 212-332) *)

Definition sqlEscapeString (s : string) : string :=
  match s with
  | EmptyString => ""
  | _ => replaceQuotes s
  end.

Record QueryParams := {
  ver : option string;
  auth : option string;
  realm : option string;
  type : option string;
  rt : option string;
  text : option string;
  offset : option string
}.

Definition noParams : QueryParams :=
  {| ver := None; auth := None; realm := None; type := None; rt := None;
     text := None; offset := None |}.

(** The [switch (ver)] of lines 233-257. *)
Definition versionClause (ver : option string) : string :=
  if negb (truthy ver) then ""
  else if isStr ver "R2" then " and R2 = 1"
  else if isStr ver "R2B" then " and R2B = 1"
  else if isStr ver "R3" then " and R3 = 1"
  else if isStr ver "R4" then " and R4 = 1"
  else if isStr ver "R4B" then " and R4B = 1"
  else if isStr ver "R5" then " and R5 = 1"
  else if isStr ver "R6" then " and R6 = 1"
  else "".

(** [rt && rt !== '' && hasCachedValue(table, rt)]. *)
Definition rtKnown (configCache : Cache) (table : string) (rt : option string) : bool :=
  truthy rt && hasCachedValue configCache table (str rt).

(** The [switch (type)] of lines 260-310. *)
Definition typeClause (configCache : Cache) (type rt : option string) : string :=
  if isStr type "cs" then
    " and ResourceType = 'CodeSystem'"
  else if isStr type "rp" then
    " and ResourceType = 'StructureDefinition' and kind = 'resource'" ++
    (if rtKnown configCache "profileResources" rt
     then " and Type = '" ++ sqlEscapeString (str rt) ++ "'" else "")
  else if isStr type "dp" then
    " and ResourceType = 'StructureDefinition' and (kind = 'complex-type' or kind = 'primitive-type')" ++
    (if rtKnown configCache "profileTypes" rt
     then " and Type = '" ++ sqlEscapeString (str rt) ++ "'" else "")
  else if isStr type "lm" then
    " and ResourceType = 'StructureDefinition' and kind = 'logical'"
  else if isStr type "ext" then
    " and ResourceType = 'StructureDefinition' and (Type = 'Extension')" ++
    (if rtKnown configCache "extensionContexts" rt
     then " and ResourceKey in (Select ResourceKey from Categories where Mode = 2 and Code = '"
          ++ sqlEscapeString (str rt) ++ "')" else "")
  else if isStr type "vs" then
    " and ResourceType = 'ValueSet'" ++
    (if truthy rt && hasTerminologySource configCache (str rt)
     then " and ResourceKey in (Select ResourceKey from Categories where Mode = 1 and Code = '"
          ++ sqlEscapeString (str rt) ++ "')" else "")
  else if isStr type "cm" then
    " and ResourceType = 'ConceptMap'" ++
    (if truthy rt && hasTerminologySource configCache (str rt)
     then " and ResourceKey in (Select ResourceKey from Categories where Mode = 1 and Code = '"
          ++ sqlEscapeString (str rt) ++ "')" else "")
  else
    (if rtKnown configCache "resourceTypes" rt
     then " and ResourceType = '" ++ sqlEscapeString (str rt) ++ "'" else "").

(** The text search of lines 313-323. *)
Definition textClause (type text : option string) : string :=
  if truthy text then
    let escapedText := sqlEscapeString (str text) in
    if isStr type "cs" then
      " and (ResourceKey in (select ResourceKey from ResourceFTS where Description match '"
      ++ escapedText ++ "' or Narrative match '" ++ escapedText ++ "') " ++
      "or ResourceKey in (select ResourceKey from CodeSystemFTS where Display match '"
      ++ escapedText ++ "' or Definition match '" ++ escapedText ++ "'))"
    else
      " and ResourceKey in (select ResourceKey from ResourceFTS where Description match '"
      ++ escapedText ++ "' or Narrative match '" ++ escapedText ++ "')"
  else "".

(** The value of [filter] when line 325 is reached. *)
Definition filterConjunction (configCache : Cache) (queryParams : QueryParams) : string :=
  let filter := "" in
  let filter :=
    if truthy (realm queryParams)
    then filter ++ " and realm = '" ++ sqlEscapeString (str (realm queryParams)) ++ "'"
    else filter in
  let filter :=
    if truthy (auth queryParams)
    then filter ++ " and authority = '" ++ sqlEscapeString (str (auth queryParams)) ++ "'"
    else filter in
  let filter := filter ++ versionClause (ver queryParams) in
  let filter := filter ++ typeClause configCache (type queryParams) (rt queryParams) in
  let filter := filter ++ textClause (type queryParams) (text queryParams) in
  filter.

Definition buildSqlFilter (configCache : Cache) (queryParams : QueryParams) : string :=
  let filter := filterConjunction configCache queryParams in
  if negb (String.eqb filter "") then "WHERE " ++ substring 4 filter
  else filter.

(** ** Text helpers used by the summary statistics *)

(** A number in a template literal. *)
Definition numStr (z : Z) : string := NilZero.string_of_int (Z.to_int z).

Definition natStr (n : nat) : string := numStr (Z.of_nat n).

(** [String(v)]. *)
Definition jsString (v : JsVal) : string :=
  match v with
  | VUndef => "undefined"
  | VNull => "null"
  | VNum z => numStr z
  | VStr s => s
  end.

(** Commas between groups of three digits, on the digits in reverse. *)
Fixpoint group3 (digits : list ascii) : list ascii :=
  match digits with
  | a :: b :: c :: ((_ :: _) as more) => a :: b :: c :: ","%char :: group3 more
  | _ => digits
  end.

(** [n.toLocaleString()] of an integer, in the en-US locale. *)
Definition numLocale (z : Z) : string :=
  let digits := list_ascii_of_string (numStr (Z.abs z)) in
  let grouped := string_of_list_ascii (rev (group3 (rev digits))) in
  if (z <? 0)%Z then "-" ++ grouped else grouped.

(** [v.toLocaleString()], [None] where the call throws a TypeError. *)
Definition toLocaleString (v : JsVal) : option string :=
  match v with
  | VUndef | VNull => None
  | VNum z => Some (numLocale z)
  | VStr s => Some s
  end.

(** The double quote character and the one-character string of it. *)
Definition dquoteChar : ascii := ascii_of_nat 34.
Definition dquote : string := String dquoteChar EmptyString.

(** [escapeHtml] of a string (lines 79-93). *)
Fixpoint escapeHtmlStr (s : string) : string :=
  match s with
  | EmptyString => EmptyString
  | String c r =>
      (if Ascii.eqb c "&" then "&amp;"
       else if Ascii.eqb c "<" then "&lt;"
       else if Ascii.eqb c ">" then "&gt;"
       else if Ascii.eqb c dquoteChar then "&quot;"
       else if Ascii.eqb c "'" then "&#39;"
       else String c EmptyString) ++ escapeHtmlStr r
  end.

Definition escapeHtml (v : JsVal) : string :=
  match v with
  | VStr s => escapeHtmlStr s
  | _ => jsString v
  end.

Definition hexDigit (n : N) : ascii :=
  if (n <? 10)%N then ascii_of_N (48 + n) else ascii_of_N (55 + n).

Definition percentByte (n : N) : string :=
  String "%" (String (hexDigit (n / 16)) (String (hexDigit (n mod 16)) EmptyString)).

(** Characters [encodeURIComponent] leaves alone. *)
Definition uriUnreserved (c : ascii) : bool :=
  let n := N_of_ascii c in
  ((65 <=? n) && (n <=? 90) || (97 <=? n) && (n <=? 122) || (48 <=? n) && (n <=? 57))%N
  || bool_decide (c ∈ list_ascii_of_string "-_.!~*'()").

(** [encodeURIComponent(s)]: a code unit from 128 on is written as the two
    bytes of its UTF-8 form. *)
Fixpoint encodeURIComponent (s : string) : string :=
  match s with
  | EmptyString => EmptyString
  | String c r =>
      let n := N_of_ascii c in
      (if uriUnreserved c then String c EmptyString
       else if (n <? 128)%N then percentByte n
       else percentByte (192 + n / 64) ++ percentByte (128 + n mod 64))
      ++ encodeURIComponent r
  end.

(** The keys of a parameter object with their values, in the order the
    route handler creates them (lines 1880-1888); an absent key is left out. *)
Definition paramEntries (p : QueryParams) : list (string * JsVal) :=
  omap (fun kv : string * option string => (fun s => (fst kv, VStr s)) <$> snd kv)
    [("ver", ver p); ("auth", auth p); ("realm", realm p); ("type", type p);
     ("rt", rt p); ("text", text p); ("offset", offset p)].

(** [{ ...params, key: value }]. *)
Fixpoint spreadWith (key : string) (value : JsVal) (entries : list (string * JsVal))
  : list (string * JsVal) :=
  match entries with
  | [] => [(key, value)]
  | (k, v) :: rest =>
      if String.eqb k key then (key, value) :: rest
      else (k, v) :: spreadWith key value rest
  end.

(** [a.join(sep)]. *)
Fixpoint join (sep : string) (parts : list string) : string :=
  match parts with
  | [] => ""
  | [p] => p
  | p :: rest => p ++ sep ++ join sep rest
  end.

(** The common body of [buildVersionLinkUrl], [buildAuthorityLinkUrl] and
    [buildRealmLinkUrl] (lines 806-830). *)
Definition buildLinkUrl (key : string) (baseUrl : string) (currentParams : QueryParams)
    (value : JsVal) : string :=
  let params := spreadWith key value (paramEntries currentParams) in
  let queryString :=
    join "&"
      (map (fun kv : string * JsVal => fst kv ++ "=" ++ encodeURIComponent (jsString (snd kv)))
         (filter (fun kv : string * JsVal => truthyV (snd kv) = true) params)) in
  baseUrl ++ (if negb (String.eqb queryString "") then "?" ++ queryString else "").

Definition buildVersionLinkUrl := buildLinkUrl "ver".
Definition buildAuthorityLinkUrl := buildLinkUrl "auth".
Definition buildRealmLinkUrl := buildLinkUrl "realm".

(** ** The module's state and the world around it *)

Definition XIG_DB_URL : string := "http://fhir.org/guides/stats/xig.db".
Definition XIG_DB_PATH : string := "xig.db".

(** The synchronous file calls that can throw. *)
Inductive FsOp : Type :=
| Unlink (path : string)
| Rename (src dst : string).

(** A [sqlite3.Database] object: which one it is and the file it was
    opened on. *)
Record Db := { handle : nat; dbPath : string }.

#[global] Instance Db_eq_dec : EqDecision Db.
Proof. solve_decision. Defined.

(** The module variables [xigDb], [configCache] and [cacheLoadInProgress]
    (lines 20, 33, 43), the files on disk with their content, the calls
    the file system refuses (with the error's message), the number of
    database objects created so far, the clock and the messages logged. *)
Record World := {
  files : gmap string string;
  fsFault : FsOp -> option string;
  xigDb : option Db;
  configCache : Cache;
  cacheLoadInProgress : bool;
  handles : nat;
  now : Z;
  logged : list string
}.

Definition setFiles (f : gmap string string) (w : World) : World :=
  {| files := f; fsFault := fsFault w; xigDb := xigDb w; configCache := configCache w;
     cacheLoadInProgress := cacheLoadInProgress w; handles := handles w; now := now w;
     logged := logged w |}.

Definition setXigDb (d : option Db) (w : World) : World :=
  {| files := files w; fsFault := fsFault w; xigDb := d; configCache := configCache w;
     cacheLoadInProgress := cacheLoadInProgress w; handles := handles w; now := now w;
     logged := logged w |}.

Definition setConfigCache (c : Cache) (w : World) : World :=
  {| files := files w; fsFault := fsFault w; xigDb := xigDb w; configCache := c;
     cacheLoadInProgress := cacheLoadInProgress w; handles := handles w; now := now w;
     logged := logged w |}.

Definition setCacheLoadInProgress (b : bool) (w : World) : World :=
  {| files := files w; fsFault := fsFault w; xigDb := xigDb w; configCache := configCache w;
     cacheLoadInProgress := b; handles := handles w; now := now w;
     logged := logged w |}.

Definition setHandles (n : nat) (w : World) : World :=
  {| files := files w; fsFault := fsFault w; xigDb := xigDb w; configCache := configCache w;
     cacheLoadInProgress := cacheLoadInProgress w; handles := n; now := now w;
     logged := logged w |}.

Definition addLog (message : string) (w : World) : World :=
  {| files := files w; fsFault := fsFault w; xigDb := xigDb w; configCache := configCache w;
     cacheLoadInProgress := cacheLoadInProgress w; handles := handles w; now := now w;
     logged := (logged w ++ [message])%list |}.

(** ** Asynchronous functions

    Between two [await]s an async function runs without interruption.  A
    task is what is left of a call: finished, failed, waiting for one
    operation of the outside world, with the function that continues from
    the operation's outcome in the state the module has by then, or
    waiting for a promise that nothing settles any more. *)

(** The operations a task waits for. *)
Inductive Op : Type :=
| HttpGet (url : string)
| DbOpen (h : nat) (path : string)
| DbClose (h : nat)
| DbAll (h : nat) (sql : string)
| DbGet (h : nat) (sql : string).

Definition Row := list (string * JsVal).

(** [row.name]. *)
Fixpoint field (row : Row) (name : string) : JsVal :=
  match row with
  | [] => VUndef
  | (k, v) :: rest => if String.eqb k name then v else field rest name
  end.

(** What became of the body of a response with status 200: written to
    its end (the stream's [finish]); an error of the write stream; an
    error of the request while the body arrived; no data for the five
    minutes of the request's timeout; or the connection closed before the
    end of the body without an error of the request, which calls none of
    the listeners of lines 1299-1319. *)
Inductive Body : Type :=
| Finished (data : string)
| FileError (message : string)
| Aborted (message : string) (partial : string)
| Stalled (partial : string)
| Cut (partial : string).

(** What a callback is called with. *)
Inductive Outcome : Type :=
| OErr (message : string)
| OOk
| ORows (rows : list Row)
| ORow (row : option Row)
| OResponse (statusCode : Z) (location : option string) (body : Body)
| OTimeout.

(** The [err] argument of a callback.  An outcome of a shape that is not
    one of its operation is read as the callback's arguments being absent. *)
Definition errOf (o : Outcome) : option string :=
  match o with
  | OErr message => Some message
  | OTimeout => Some "timeout"
  | _ => None
  end.

(** The [rows] argument of [db.all]'s callback, [None] for undefined. *)
Definition rowsOf (o : Outcome) : option (list Row) :=
  match o with
  | ORows rows => Some rows
  | _ => None
  end.

(** The [row] argument of [db.get]'s callback. *)
Definition rowOf (o : Outcome) : option Row :=
  match o with
  | ORow row => row
  | _ => None
  end.

Inductive Task (E A : Type) : Type :=
| Done (w : World) (a : A)
| Throw (w : World) (e : E)
| Await (w : World) (op : Op) (k : Outcome -> World -> Task E A)
| Never (w : World).

Arguments Done {E A} w a.
Arguments Throw {E A} w e.
Arguments Await {E A} w op k.
Arguments Never {E A} w.

Definition Async (E A : Type) : Type := World -> Task E A.

Definition worldOf {E A} (t : Task E A) : World :=
  match t with
  | Done w _ | Throw w _ | Await w _ _ | Never w => w
  end.

Definition ret {E A} (a : A) : Async E A := fun w => Done w a.

Definition throw {E A} (e : E) : Async E A := fun w => Throw w e.

Definition await {E} (op : Op) : Async E Outcome :=
  fun w => Await w op (fun o w' => Done w' o).

Definition getWorld {E} : Async E World := fun w => Done w w.

Definition modify {E} (f : World -> World) : Async E unit := fun w => Done (f w) tt.

(** A promise that is never settled. *)
Definition never {E A} : Async E A := fun w => Never w.

Fixpoint bindTask {E A B} (t : Task E A) (f : A -> Async E B) : Task E B :=
  match t with
  | Done w a => f a w
  | Throw w e => Throw w e
  | Await w op k => Await w op (fun o w' => bindTask (k o w') f)
  | Never w => Never w
  end.

Definition bind {E A B} (m : Async E A) (f : A -> Async E B) : Async E B :=
  fun w => bindTask (m w) f.

(** [try { t } catch (e) { h e }]. *)
Fixpoint catchTask {E E' A} (t : Task E A) (h : E -> Async E' A) : Task E' A :=
  match t with
  | Done w a => Done w a
  | Throw w e => h e w
  | Await w op k => Await w op (fun o w' => catchTask (k o w') h)
  | Never w => Never w
  end.

Definition tryCatch {E E' A} (m : Async E A) (h : E -> Async E' A) : Async E' A :=
  fun w => catchTask (m w) h.

(** [try { t } finally { f }] for a [finally] block that only assigns. *)
Fixpoint finallyTask {E A} (t : Task E A) (f : World -> World) : Task E A :=
  match t with
  | Done w a => Done (f w) a
  | Throw w e => Throw (f w) e
  | Await w op k => Await w op (fun o w' => finallyTask (k o w') f)
  | Never w => Never w
  end.

Definition tryFinally {E A} (m : Async E A) (f : World -> World) : Async E A :=
  fun w => finallyTask (m w) f.

Notation "x <- m ;> k" := (bind m (fun x => k))
  (at level 100, m at next level, right associativity, only parsing).
Notation "m ;> k" := (bind m (fun _ => k))
  (at level 100, right associativity, only parsing).

(** The task after its pending operation ended with [o] while the module
    is in state [w]. *)
Definition resume {E A} (t : Task E A) (o : Outcome) (w : World) : Task E A :=
  match t with
  | Await _ _ k => k o w
  | _ => t
  end.

(** A call running alone: the outcomes arrive in order and nothing else
    touches the module's state in between. *)
Fixpoint run {E A} (t : Task E A) (outcomes : list Outcome) : Task E A :=
  match outcomes with
  | [] => t
  | o :: rest => run (resume t o (worldOf t)) rest
  end.

Definition pendingOp {E A} (t : Task E A) : option Op :=
  match t with
  | Await _ op _ => Some op
  | _ => None
  end.

(** The operations a call running alone starts, in order. *)
Fixpoint opsOf {E A} (t : Task E A) (outcomes : list Outcome) : list Op :=
  match t, outcomes with
  | Await w op k, o :: rest => op :: opsOf (k o w) rest
  | Await _ op _, [] => [op]
  | _, _ => []
  end.

(** ** Logging and files *)

Definition logMessage {E} (message : string) : Async E unit :=
  modify (addLog message).

(** [fs.existsSync(path)]. *)
Definition existsSync (path : string) (w : World) : bool :=
  bool_decide (is_Some (files w !! path)).

(** [fs.unlinkSync(path)]. *)
Definition unlinkSync (path : string) : Async string unit :=
  fun w =>
    match fsFault w (Unlink path) with
    | Some message => Throw w message
    | None =>
        if existsSync path w then Done (setFiles (delete path (files w)) w) tt
        else Throw w ("ENOENT: no such file or directory, unlink '" ++ path ++ "'")
    end.

(** [fs.renameSync(src, dst)]: a file already at [dst] is replaced. *)
Definition renameSync (src dst : string) : Async string unit :=
  fun w =>
    match fsFault w (Rename src dst) with
    | Some message => Throw w message
    | None =>
        match files w !! src with
        | Some content => Done (setFiles (<[dst := content]> (delete src (files w))) w) tt
        | None =>
            Throw w ("ENOENT: no such file or directory, rename '" ++ src ++ "' -> '"
                     ++ dst ++ "'")
        end
    end.

(** What a write stream leaves at [path]. *)
Definition written (path content : string) (w : World) : World :=
  setFiles (<[path := content]> (files w)) w.

(** [fs.unlink(path, () => {})]: a failure is ignored. *)
Definition unlinkQuietly (path : string) (w : World) : World :=
  match fsFault w (Unlink path) with
  | Some _ => w
  | None => setFiles (delete path (files w)) w
  end.

(** [new sqlite3.Database(...)]: the object exists at once, the outcome of
    opening the file arrives in the callback. *)
Definition newDatabase {E} (path : string) : Async E Db :=
  fun w => Done (setHandles (S (handles w)) w) {| handle := handles w; dbPath := path |}.

(** ** Download and validation (lines 1250-1352) *)

(** [attemptDownload(currentUrl, redirectCount)], counting the attempts
    left: [redirectCount > maxRedirects] when none is.  The location of a
    redirect is the header's value once lines 1268-1276 have made it
    absolute, an address that [protocol.get] accepts: the message of line
    1265 has that address here, where the code logs the header as it came,
    and a redirect to an address [protocol.get] refuses, which throws in
    the response callback outside the promise, is no outcome of the
    request here.  A body cut before its end settles nothing. *)
Fixpoint attemptDownload (destination : string) (maxRedirects attemptsLeft : nat)
    (currentUrl : string) : Async string unit :=
  match attemptsLeft with
  | O => throw ("Too many redirects (" ++ natStr maxRedirects ++ ")")
  | S remaining =>
      o <- await (HttpGet currentUrl) ;>
      match o with
      | OResponse statusCode location body =>
          if (300 <=? statusCode)%Z && (statusCode <? 400)%Z && truthy location then
            logMessage ("Redirect " ++ numStr statusCode ++ " to: " ++ str location) ;>
            attemptDownload destination maxRedirects remaining (str location)
          else if negb (statusCode =? 200)%Z then
            throw ("Download failed with status code: " ++ numStr statusCode)
          else
            match body with
            | Finished data =>
                modify (written destination data) ;>
                logMessage ("Download completed successfully. Downloaded "
                            ++ natStr (String.length data) ++ " bytes to " ++ destination)
            | FileError message =>
                modify (unlinkQuietly destination) ;> throw message
            | Aborted message partial =>
                modify (written destination partial) ;> throw message
            | Stalled partial =>
                modify (written destination partial) ;> throw "Download timeout"
            | Cut partial =>
                modify (written destination partial) ;> never
            end
      | OTimeout => throw "Download timeout"
      | OErr message => throw message
      | _ => throw "request failed"
      end
  end.

Definition downloadFile (url destination : string) : Async string unit :=
  let maxRedirects := 5 in
  logMessage ("Starting download from " ++ url) ;>
  attemptDownload destination maxRedirects (S maxRedirects) url.

Definition validateDatabaseFile (filePath : string) : Async string unit :=
  w <- getWorld ;>
  if negb (existsSync filePath w) then throw "Database file does not exist"
  else
    testDb <- newDatabase filePath ;>
    opened <- await (DbOpen (handle testDb) filePath) ;>
    match errOf opened with
    | Some message => throw ("Invalid SQLite database: " ++ message)
    | None =>
        o <- await (DbGet (handle testDb)
                      "SELECT name FROM sqlite_master WHERE type='table' LIMIT 1") ;>
        match errOf o with
        | Some message => throw ("Database validation failed: " ++ message)
        | None => ret tt
        end
    end.

(** ** Building the cache (lines 1354-1529) *)

(** A callback run over the rows, on the state its assignments act on;
    [inl] is the message of the TypeError that ends the loop, with the
    state reached by then. *)
Fixpoint forEach {S : Type} (f : S -> Row -> string + S) (rows : list Row) (s : S)
  : (string * S) + S :=
  match rows with
  | [] => inr s
  | row :: rest =>
      match f s row with
      | inl message => inl (message, s)
      | inr s' => forEach f rest s'
      end
  end.

Definition typeError (v : JsVal) (property : string) : string :=
  "Cannot read properties of " ++ jsString v ++ " (reading '" ++ property ++ "')".

Definition notAFunction (what : string) : string := what ++ " is not a function".

(** [s.trim() !== '']: some code unit is not white space. *)
Definition isWhite (c : ascii) : bool :=
  bool_decide (N_of_ascii c ∈ [9; 10; 11; 12; 13; 32; 160]%N).

Fixpoint trimmedNonEmpty (s : string) : bool :=
  match s with
  | EmptyString => false
  | String c r => negb (isWhite c) || trimmedNonEmpty r
  end.

(** [s.replace(/#/g, '|')]. *)
Fixpoint replaceHash (s : string) : string :=
  match s with
  | EmptyString => EmptyString
  | String c r => String (if Ascii.eqb c "#" then "|"%char else c) (replaceHash r)
  end.

(** [newCache.maps[name] = table]. *)
Definition setTable (name : string) (table : Table) (c : Cache) : Cache :=
  {| loaded := loaded c; lastUpdated := lastUpdated c; maps := <[name := table]> (maps c) |}.

Definition setLoaded (b : bool) (c : Cache) : Cache :=
  {| loaded := b; lastUpdated := lastUpdated c; maps := maps c |}.

(** [executeQuery(sql)] (lines 1377-1387); [xigDb] is read when the query
    is issued. *)
Definition executeQuery (sql : string) : Async string (option (list Row)) :=
  w <- getWorld ;>
  match xigDb w with
  | None => throw (typeError VNull "all")
  | Some db =>
      o <- await (DbAll (handle db) sql) ;>
      match errOf o with
      | Some message => throw message
      | None => ret (rowsOf o)
      end
  end.

(** [rows.forEach(f)] on what a query resolved to. *)
Definition forEachRow {S : Type} (f : S -> Row -> string + S) (rows : option (list Row))
    (s : S) : Async string S :=
  match rows with
  | None => throw (typeError VUndef "forEach")
  | Some l =>
      match forEach f l s with
      | inl (message, _) => throw message
      | inr s' => ret s'
      end
  end.

(** [rows.length] on what a query resolved to. *)
Definition lengthOf (rows : option (list Row)) : Async string nat :=
  match rows with
  | None => throw (typeError VUndef "length")
  | Some l => ret (length l)
  end.

Definition addMetadata (m : list (JsVal * MapVal)) (row : Row) : string + list (JsVal * MapVal) :=
  inr (mapSet (field row "Name") (MJs (field row "Value")) m).

Definition addRealm (s : list JsVal) (row : Row) : string + list JsVal :=
  match field row "Code" with
  | VStr code => inr (if (String.length code <=? 3)%nat then setAdd (VStr code) s else s)
  | VNum _ => inr s
  | v => inl (typeError v "length")
  end.

Definition addCode (s : list JsVal) (row : Row) : string + list JsVal :=
  inr (setAdd (field row "Code") s).

Definition addPackage (ms : list (JsVal * MapVal) * list (JsVal * MapVal)) (row : Row)
  : string + (list (JsVal * MapVal) * list (JsVal * MapVal)) :=
  let packageObj :=
    {| PackageKey := field row "PackageKey"; Id := field row "Id"; PID := field row "PID";
       Web := field row "Web"; Canonical := field row "Canonical" |} in
  let packages := mapSet (field row "PackageKey") (MPkg packageObj) (fst ms) in
  if truthyV (field row "PID") then
    match field row "PID" with
    | VStr pid =>
        let pidKey := replaceHash pid in
        inr (packages,
             if truthyV (VStr pidKey) then mapSet (VStr pidKey) (MPkg packageObj) (snd ms)
             else snd ms)
    | _ => inl (notAFunction "row.PID.replace")
    end
  else inr (packages, snd ms).

Definition addType (s : list JsVal) (row : Row) : string + list JsVal :=
  if truthyV (field row "Type") then
    match field row "Type" with
    | VStr t => inr (if trimmedNonEmpty t then setAdd (VStr t) s else s)
    | _ => inl (notAFunction "row.Type.trim")
    end
  else inr s.

Definition addResourceType (s : list JsVal) (row : Row) : string + list JsVal :=
  inr (setAdd (field row "ResourceType") s).

Definition addTxSource (m : list (JsVal * MapVal)) (row : Row) : string + list (JsVal * MapVal) :=
  inr (mapSet (field row "Code") (MJs (field row "Display")) m).

Definition fixedVersions : list JsVal :=
  [VStr "R2"; VStr "R2B"; VStr "R3"; VStr "R4"; VStr "R4B"; VStr "R5"; VStr "R6"].

Definition fixedTypes : list (JsVal * MapVal) :=
  [(VStr "rp", MJs (VStr "Resource Profiles"));
   (VStr "dp", MJs (VStr "Datatype Profiles"));
   (VStr "ext", MJs (VStr "Extensions"));
   (VStr "lm", MJs (VStr "Logical Models"));
   (VStr "cs", MJs (VStr "CodeSystems"));
   (VStr "vs", MJs (VStr "ValueSets"));
   (VStr "cm", MJs (VStr "ConceptMaps"))].

(** Lines 1448-1478: the three tables read from [Resources], empty when
    the table is missing. *)
Definition loadResourceTables (resourcesTableExists : nat) (newCache : Cache)
  : Async string Cache :=
  if (0 <? resourcesTableExists)%nat then
    profileResourceRows <- executeQuery
      "SELECT DISTINCT Type FROM Resources WHERE ResourceType = 'StructureDefinition' AND Kind = 'resource'" ;>
    profileResources <- forEachRow addType profileResourceRows [] ;>
    let newCache := setTable "profileResources" (TSet profileResources) newCache in
    profileTypeRows <- executeQuery
      "SELECT DISTINCT Type FROM Resources WHERE ResourceType = 'StructureDefinition' AND (Kind = 'complex-type' OR Kind = 'primitive-type')" ;>
    profileTypes <- forEachRow addType profileTypeRows [] ;>
    let newCache := setTable "profileTypes" (TSet profileTypes) newCache in
    resourceTypeRows <- executeQuery "SELECT DISTINCT ResourceType FROM Resources" ;>
    resourceTypes <- forEachRow addResourceType resourceTypeRows [] ;>
    ret (setTable "resourceTypes" (TSet resourceTypes) newCache)
  else
    ret (setTable "resourceTypes" (TSet [])
           (setTable "profileTypes" (TSet [])
              (setTable "profileResources" (TSet []) newCache))).

(** Lines 1370-1513: the new cache object, from its creation to
    [newCache.loaded = true]. *)
Definition buildNewCache : Async string Cache :=
  w <- getWorld ;>
  let newCache := {| loaded := false; lastUpdated := Some (now w); maps := ∅ |} in
  logMessage "Loading metadata..." ;>
  metadataRows <- executeQuery "SELECT Name, Value FROM Metadata" ;>
  metadata <- forEachRow addMetadata metadataRows [] ;>
  let newCache := setTable "metadata" (TMap metadata) newCache in
  n <- lengthOf metadataRows ;>
  logMessage ("Loaded " ++ natStr n ++ " metadata entries") ;>
  logMessage "Loading realms..." ;>
  realmRows <- executeQuery "SELECT Code FROM Realms" ;>
  realms <- forEachRow addRealm realmRows [] ;>
  let newCache := setTable "realms" (TSet realms) newCache in
  n <- lengthOf realmRows ;>
  logMessage ("Loaded " ++ natStr n ++ " realms") ;>
  logMessage "Loading authorities..." ;>
  authRows <- executeQuery "SELECT Code FROM Authorities" ;>
  authorities <- forEachRow addCode authRows [] ;>
  let newCache := setTable "authorities" (TSet authorities) newCache in
  n <- lengthOf authRows ;>
  logMessage ("Loaded " ++ natStr n ++ " authorities") ;>
  logMessage "Loading packages..." ;>
  packageRows <- executeQuery "SELECT PackageKey, Id, PID, Web, Canonical FROM Packages" ;>
  packages <- forEachRow addPackage packageRows ([], []) ;>
  let newCache := setTable "packagesById" (TMap (snd packages))
                    (setTable "packages" (TMap (fst packages)) newCache) in
  n <- lengthOf packageRows ;>
  logMessage ("Loaded " ++ natStr n ++ " packages") ;>
  resourcesTableExists <- executeQuery
    "SELECT name FROM sqlite_master WHERE type='table' AND name='Resources'" ;>
  n <- lengthOf resourcesTableExists ;>
  newCache <- loadResourceTables n newCache ;>
  extensionContextRows <- executeQuery "SELECT DISTINCT Code FROM Categories WHERE Mode = 2" ;>
  extensionContexts <- forEachRow addCode extensionContextRows [] ;>
  let newCache := setTable "extensionContexts" (TSet extensionContexts) newCache in
  extensionTypeRows <- executeQuery "SELECT DISTINCT Code FROM Categories WHERE Mode = 3" ;>
  extensionTypes <- forEachRow addCode extensionTypeRows [] ;>
  let newCache := setTable "extensionTypes" (TSet extensionTypes) newCache in
  txSourceRows <- executeQuery "SELECT Code, Display FROM TxSource" ;>
  txSources <- forEachRow addTxSource txSourceRows [] ;>
  let newCache := setTable "txSources" (TMap txSources) newCache in
  let newCache := setTable "versions" (TSet fixedVersions) newCache in
  let newCache := setTable "types" (TMap fixedTypes) newCache in
  ret (setLoaded true newCache).

(** [loadConfigCache()].  No listener of [cacheEmitter] is registered in
    the module, so the event of line 1522 has no effect here. *)
Definition loadConfigCache : Async string unit :=
  w <- getWorld ;>
  if cacheLoadInProgress w then
    logMessage "Cache load already in progress, skipping"
  else if negb (bool_decide (is_Some (xigDb w))) then
    logMessage "No database connection available for cache loading"
  else
    modify (setCacheLoadInProgress true) ;>
    logMessage "Starting config cache load" ;>
    tryFinally
      (tryCatch
         (newCache <- buildNewCache ;>
          modify (setConfigCache newCache) ;>
          logMessage ("Config cache updated successfully. Total cached collections: "
                      ++ natStr (size (maps newCache))))
         (fun error => logMessage ("Config cache load failed: " ++ error)))
      (setCacheLoadInProgress false).

(** ** Opening and replacing the database (lines 1531-1600) *)

Definition initializeDatabase : Async string unit :=
  w <- getWorld ;>
  if negb (existsSync XIG_DB_PATH w) then
    logMessage "XIG database file not found, will download on first update"
  else
    db <- newDatabase XIG_DB_PATH ;>
    modify (setXigDb (Some db)) ;>
    opened <- await (DbOpen (handle db) XIG_DB_PATH) ;>
    match errOf opened with
    | Some message =>
        logMessage ("Failed to open XIG database: " ++ message) ;>
        throw message
    | None =>
        logMessage "XIG database connected successfully" ;>
        tryCatch loadConfigCache
          (fun cacheError =>
             logMessage ("Warning: Failed to load config cache: " ++ cacheError))
    end.

(** Lines 1567-1577. *)
Definition closeCurrent : Async string unit :=
  w <- getWorld ;>
  match xigDb w with
  | None => ret tt
  | Some db =>
      closed <- await (DbClose (handle db)) ;>
      (match errOf closed with
       | Some message =>
           logMessage ("Warning: Error closing existing database: " ++ message)
       | None => ret tt
       end) ;>
      modify (setXigDb None)
  end.

(** Lines 1579-1582. *)
Definition replaceFile (tempPath : string) : Async string unit :=
  w <- getWorld ;>
  (if existsSync XIG_DB_PATH w then unlinkSync XIG_DB_PATH else ret tt) ;>
  renameSync tempPath XIG_DB_PATH.

Definition updateXigDatabase : Async string unit :=
  tryCatch
    (logMessage "Starting XIG database update process" ;>
     let tempPath := XIG_DB_PATH ++ ".tmp" in
     downloadFile XIG_DB_URL tempPath ;>
     validateDatabaseFile tempPath ;>
     closeCurrent ;>
     replaceFile tempPath ;>
     initializeDatabase ;>
     logMessage "XIG database update completed successfully")
    (fun error =>
       logMessage ("XIG database update failed: " ++ error) ;>
       let tempPath := XIG_DB_PATH ++ ".tmp" in
       w <- getWorld ;>
       (if existsSync tempPath w then unlinkSync tempPath else ret tt) ;>
       w <- getWorld ;>
       if negb (bool_decide (is_Some (xigDb w))) then initializeDatabase else ret tt).

(** ** Summary statistics (lines 682-803) *)

(** The order of [Array.prototype.sort()] without a comparator: by the
    elements' strings, undefined last. *)
Definition sortsBefore (a b : JsVal) : bool :=
  match a, b with
  | VUndef, _ => false
  | _, VUndef => true
  | _, _ => String.ltb (jsString a) (jsString b)
  end.

Fixpoint insertSorted (v : JsVal) (l : list JsVal) : list JsVal :=
  match l with
  | [] => [v]
  | x :: rest => if sortsBefore v x then v :: x :: rest else x :: insertSorted v rest
  end.

Definition sortArray (l : list JsVal) : list JsVal :=
  foldl (fun sorted v => insertSorted v sorted) [] l.

Definition getCachedSet (configCache : Cache) (tableName : string) : list JsVal :=
  match getCachedTable configCache tableName with
  | Some (TSet elems) => sortArray elems
  | _ => []
  end.

(** The promise around [xigDb.get] of lines 708-713. *)
Definition getCount (sql : string) : Async string JsVal :=
  w <- getWorld ;>
  match xigDb w with
  | None => throw (typeError VNull "get")
  | Some db =>
      o <- await (DbGet (handle db) sql) ;>
      match errOf o with
      | Some message => throw message
      | None => ret (match rowOf o with Some row => field row "count" | None => VNum 0 end)
      end
  end.

(** The promise around [xigDb.all] of lines 736-741 and 769-774. *)
Definition getRows (sql : string) : Async string (list Row) :=
  w <- getWorld ;>
  match xigDb w with
  | None => throw (typeError VNull "all")
  | Some db =>
      o <- await (DbAll (handle db) sql) ;>
      match errOf o with
      | Some message => throw message
      | None => ret (default [] (rowsOf o))
      end
  end.

(** One item of a breakdown, with a link narrowing to [value]. *)
Definition linkItem (linkUrl : string) (value : JsVal) (count : string) : string :=
  "<li><a href=" ++ dquote ++ linkUrl ++ dquote ++ ">" ++ escapeHtml value ++ "</a>: "
  ++ count ++ "</li>".

(** Lines 702-706. *)
Definition versionSql (currentFilter : string) (version : JsVal) : string :=
  if String.eqb currentFilter ""
  then "SELECT COUNT(*) as count FROM Resources WHERE " ++ jsString version ++ " = 1"
  else "SELECT COUNT(*) as count FROM Resources " ++ currentFilter ++ " AND "
       ++ jsString version ++ " = 1".

(** The body of the loop over the versions (lines 700-719). *)
Definition versionItem (currentFilter baseUrl : string) (queryParams : QueryParams)
    (version : JsVal) : Async string string :=
  tryCatch
    (let sql := versionSql currentFilter version in
     count <- getCount sql ;>
     let linkUrl := buildVersionLinkUrl baseUrl queryParams version in
     match toLocaleString count with
     | Some n => ret (linkItem linkUrl version n)
     | None => throw (typeError count "toLocaleString")
     end)
    (fun _ : string => ret ("<li>" ++ escapeHtml version ++ ": Error</li>")).

Fixpoint versionItems (currentFilter baseUrl : string) (queryParams : QueryParams)
    (versions : list JsVal) (html : string) : Async string string :=
  match versions with
  | [] => ret html
  | version :: rest =>
      item <- versionItem currentFilter baseUrl queryParams version ;>
      versionItems currentFilter baseUrl queryParams rest (html ++ item)
  end.

(** The callback of [authorityResults.forEach] (lines 743-753) on the
    text built so far. *)
Definition authorityItem (baseUrl : string) (queryParams : QueryParams) (html : string)
    (row : Row) : string + string :=
  let authority := field row "Authority" in
  let count := field row "count" in
  match toLocaleString count with
  | None => inl (typeError count "toLocaleString")
  | Some n =>
      if negb (truthyV authority) then inr (html ++ "<li>none: " ++ n ++ "</li>")
      else inr (html ++ linkItem (buildAuthorityLinkUrl baseUrl queryParams authority)
                          authority n)
  end.

(** [realmCode.length > 3]. *)
Definition longerThan3 (realmCode : JsVal) : bool :=
  match realmCode with
  | VStr s => (3 <? String.length s)%nat
  | _ => false
  end.

(** The callback of [realmResults.forEach] (lines 777-789) on the text
    built so far and the counter [c]. *)
Definition realmItem (baseUrl : string) (queryParams : QueryParams) (state : string * Z)
    (row : Row) : string + (string * Z) :=
  let '(html, c) := state in
  let realmCode := field row "Realm" in
  let count := field row "count" in
  if negb (truthyV realmCode) then
    match toLocaleString count with
    | None => inl (typeError count "toLocaleString")
    | Some n => inr (html ++ "<li>none: " ++ n ++ "</li>", c)
    end
  else if longerThan3 realmCode then inr (html, (c + 1)%Z)
  else
    match toLocaleString count with
    | None => inl (typeError count "toLocaleString")
    | Some n =>
        inr (html ++ linkItem (buildRealmLinkUrl baseUrl queryParams realmCode) realmCode n, c)
    end.

(** Lines 776-793: the items of the realm list for the rows of the
    query. *)
Definition realmItems (baseUrl : string) (queryParams : QueryParams) (realmResults : list Row)
    (html : string) : (string * string) + string :=
  match forEach (realmItem baseUrl queryParams) realmResults (html, 0%Z) with
  | inl (message, (html, _)) => inl (html, message)
  | inr (html, c) =>
      inr (if (0 <? c)%Z then html ++ "<li>other: " ++ numStr c ++ "</li>" else html)
  end.

Definition listOpen : string :=
  "<ul style=" ++ dquote ++ "columns: 4; -webkit-columns: 4; -moz-columns: 4" ++ dquote ++ ">".

(** A step of the [try] block of line 691: what it throws reaches the
    [catch] of line 797 together with the text built so far. *)
Definition within {A} (html : string) (m : Async string A) : Async (string * string) A :=
  tryCatch m (fun message => throw (html, message)).

(** Lines 694-722. *)
Definition versionBreakdown (currentFilter baseUrl : string) (queryParams : QueryParams)
    (html : string) : Async (string * string) string :=
  if negb (truthy (ver queryParams)) then
    let html := html ++ "<p><strong>By Version</strong></p>" in
    let html := html ++ listOpen in
    w <- getWorld ;>
    let versions := getCachedSet (configCache w) "versions" in
    html <- within html (versionItems currentFilter baseUrl queryParams versions html) ;>
    ret (html ++ "</ul>")
  else ret html.

Definition authoritySql (currentFilter : string) : string :=
  if String.eqb currentFilter ""
  then "SELECT Authority, COUNT(*) as count FROM Resources GROUP BY Authority ORDER BY Authority"
  else "SELECT Authority, COUNT(*) as count FROM Resources " ++ currentFilter
       ++ " GROUP BY Authority ORDER BY Authority".

(** Lines 725-755. *)
Definition authorityBreakdown (currentFilter baseUrl : string) (queryParams : QueryParams)
    (html : string) : Async (string * string) string :=
  if negb (truthy (auth queryParams)) then
    let html := html ++ "<p><strong>By Authority</strong></p>" in
    let html := html ++ listOpen in
    let sql := authoritySql currentFilter in
    authorityResults <- within html (getRows sql) ;>
    match forEach (authorityItem baseUrl queryParams) authorityResults html with
    | inl (message, html) => throw (html, message)
    | inr html => ret (html ++ "</ul>")
    end
  else ret html.

Definition realmSql (currentFilter : string) : string :=
  if String.eqb currentFilter ""
  then "SELECT Realm, COUNT(*) as count FROM Resources GROUP BY Realm ORDER BY Realm"
  else "SELECT Realm, COUNT(*) as count FROM Resources " ++ currentFilter
       ++ " GROUP BY Realm ORDER BY Realm".

(** Lines 758-794. *)
Definition realmBreakdown (currentFilter baseUrl : string) (queryParams : QueryParams)
    (html : string) : Async (string * string) string :=
  if negb (truthy (realm queryParams)) then
    let html := html ++ "<p><strong>By Realm</strong></p>" in
    let html := html ++ listOpen in
    let sql := realmSql currentFilter in
    realmResults <- within html (getRows sql) ;>
    match realmItems baseUrl queryParams realmResults html with
    | inl failure => throw failure
    | inr html => ret (html ++ "</ul>")
    end
  else ret html.

Definition buildSummaryStats (queryParams : QueryParams) (baseUrl : string)
  : Async string string :=
  w <- getWorld ;>
  let currentFilter := buildSqlFilter (configCache w) queryParams in
  let html := "" in
  if negb (bool_decide (is_Some (xigDb w))) then
    ret ("<p class=" ++ dquote ++ "text-warning" ++ dquote
         ++ ">Database not available for summary statistics</p>")
  else
    tryCatch
      (let html := html ++ "<div style=" ++ dquote
                   ++ "background-color:rgb(254, 250, 198); border: 1px black solid; padding: 6px; font-size: 12px; font-family: verdana;"
                   ++ dquote ++ ">" in
       html <- versionBreakdown currentFilter baseUrl queryParams html ;>
       html <- authorityBreakdown currentFilter baseUrl queryParams html ;>
       html <- realmBreakdown currentFilter baseUrl queryParams html ;>
       ret (html ++ "</div><p>&nbsp;</p>"))
      (fun failure : string * string =>
         logMessage ("Error building summary stats: " ++ snd failure) ;>
         ret (fst failure ++ "<p class=" ++ dquote ++ "text-warning" ++ dquote
              ++ ">Error loading summary statistics: " ++ escapeHtmlStr (snd failure) ++ "</p>")).


(** ** Several calls at once

    The triggers (the daily schedule, [POST /update], the start of the
    module) call an async function while other calls are waiting; when an
    operation ends, the call waiting for it continues in the state the
    module has at that moment. *)

Record System := {
  world : World;
  calls : list (Task string unit);
  started : list Op
}.

Inductive Event : Type :=
| Trigger (f : Async string unit)
| Deliver (call : nat) (o : Outcome).

Definition noteStarted {E A} (t : Task E A) (ops : list Op) : list Op :=
  match pendingOp t with
  | Some op => (ops ++ [op])%list
  | None => ops
  end.

Definition step (s : System) (e : Event) : System :=
  match e with
  | Trigger f =>
      let t := f (world s) in
      {| world := worldOf t; calls := (calls s ++ [t])%list;
         started := noteStarted t (started s) |}
  | Deliver i o =>
      match calls s !! i with
      | Some (Await _ _ k) =>
          let t := k o (world s) in
          {| world := worldOf t; calls := <[i := t]> (calls s);
             started := noteStarted t (started s) |}
      | _ => s
      end
  end.

Definition steps (s : System) (events : list Event) : System :=
  foldl step s events.

Definition startOf (w : World) : System :=
  {| world := w; calls := []; started := [] |}.

(** The functions that write [xigDb] and [configCache]. *)
Inductive lifecycle : Async string unit -> Prop :=
| lifecycle_load : lifecycle loadConfigCache
| lifecycle_initialize : lifecycle initializeDatabase
| lifecycle_update : lifecycle updateXigDatabase.

(** Events whose triggers are calls of the lifecycle functions. *)
Definition lifecycleEvent (e : Event) : Prop :=
  match e with
  | Trigger f => lifecycle f
  | Deliver _ _ => True
  end.

(** ** A call on its own *)

(** A call running alone, with the outcomes it did not use. *)
Fixpoint consume {E A} (t : Task E A) (outcomes : list Outcome) {struct outcomes}
  : Task E A * list Outcome :=
  match outcomes with
  | [] => (t, [])
  | o :: rest =>
      match t with
      | Await w _ k => consume (k o w) rest
      | _ => (t, outcomes)
      end
  end.

Definition isDone {E A} (t : Task E A) : bool :=
  match t with
  | Done _ _ => true
  | _ => false
  end.

(** ** Invariants of calls *)

(** When every uninterrupted stretch of the task starts in a state where
    [P] holds, it also ends in one, and a result of the task satisfies
    [Q]. *)
Fixpoint safe {E A} (P : World -> Prop) (Q : A -> Prop) (t : Task E A) : Prop :=
  match t with
  | Done w a => P w /\ Q a
  | Throw w _ => P w
  | Await w _ k => P w /\ forall o w', P w' -> safe P Q (k o w')
  | Never w => P w
  end.

Definition safely {E A} (P : World -> Prop) (Q : A -> Prop) (m : Async E A) : Prop :=
  forall w, P w -> safe P Q (m w).

Definition anything {A} : A -> Prop := fun _ => True.

(** [P] holds now and every waiting call is safe for it. *)
Definition allSafe (P : World -> Prop) (s : System) : Prop :=
  P (world s) /\ Forall (safe P anything) (calls s).

(** ** The published cache *)

(** The names of the lookup tables of a cache (lines 1392-1511). *)
Definition tableNames : list string :=
  ["metadata"; "realms"; "authorities"; "packages"; "packagesById";
   "profileResources"; "profileTypes"; "resourceTypes"; "extensionContexts";
   "extensionTypes"; "txSources"; "versions"; "types"].

(** A cache with every lookup table in place and [loaded] set. *)
Definition fullyBuilt (c : Cache) : Prop :=
  loaded c = true /\ Forall (fun name => is_Some (maps c !! name)) tableNames.

(** What may stand behind the [configCache] reference. *)
Definition published (c : Cache) : Prop :=
  c = initialCache \/ fullyBuilt c.

(** The three tables of [loadResourceTables] are in its result, on top of
    the cache it was given. *)
Definition withResourceTables (newCache c : Cache) : Prop :=
  exists t1 t2 t3,
    c = setTable "resourceTypes" (TSet t3)
          (setTable "profileTypes" (TSet t2)
             (setTable "profileResources" (TSet t1) newCache)).

(** The state in which [loadConfigCache] starts to build, once past its
    two guards (lines 1365-1366). *)
Definition buildStart (w : World) : World :=
  addLog "Starting config cache load" (setCacheLoadInProgress true w).

(** ** The refresh, step by step *)

(** The temporary path of [updateXigDatabase]. *)
Definition tempPath : string := XIG_DB_PATH ++ ".tmp".

(** The state in which [updateXigDatabase] starts its download. *)
Definition updateStart (w : World) : World :=
  addLog "Starting XIG database update process" w.

(** The state after a download that ended well. *)
Definition fetched (data : string) (w : World) : World :=
  addLog ("Download completed successfully. Downloaded " ++ natStr (String.length data)
          ++ " bytes to " ++ tempPath)
    (written tempPath data (addLog ("Starting download from " ++ XIG_DB_URL) w)).

(** The state the [catch] block of [updateXigDatabase] leaves when it has
    removed the temporary file. *)
Definition cleaned (e : string) (w : World) : World :=
  let failed := addLog ("XIG database update failed: " ++ e) w in
  setFiles (delete tempPath (files failed)) failed.

(** The [catch] block of [updateXigDatabase] (lines 1588-1599). *)
Definition updateCatch (error : string) : Async string unit :=
  logMessage ("XIG database update failed: " ++ error) ;>
  w <- getWorld ;>
  (if existsSync tempPath w then unlinkSync tempPath else ret tt) ;>
  w <- getWorld ;>
  if negb (bool_decide (is_Some (xigDb w))) then initializeDatabase else ret tt.

(** The connection, the cache, the guard and the dataset file of [x] are
    those of [w]. *)
Definition untouched (w x : World) : Prop :=
  xigDb x = xigDb w /\ configCache x = configCache w
  /\ cacheLoadInProgress x = cacheLoadInProgress w /\ fsFault x = fsFault w
  /\ files x !! XIG_DB_PATH = files w !! XIG_DB_PATH.

(** In the refresh that starts in [w] and gets [outcomes], the download
    throws, or the download succeeds and the validation throws; [rest] are
    the outcomes not used by then. *)
Definition fetchFails (w : World) (outcomes rest : list Outcome) : Prop :=
  (exists failed e,
     consume (downloadFile XIG_DB_URL tempPath (updateStart w)) outcomes
     = (Throw failed e, rest))
  \/ (exists fetched mid failed e,
        consume (downloadFile XIG_DB_URL tempPath (updateStart w)) outcomes
        = (Done fetched tt, mid)
        /\ consume (validateDatabaseFile tempPath fetched) mid = (Throw failed e, rest)).

(** In the refresh that starts in [w] and gets [outcomes], the download,
    the validation and the closing of the connection end well and use up
    [outcomes]; [x] is the state in which the file replacement starts. *)
Definition fetchEnds (w : World) (outcomes : list Outcome) (x : World) : Prop :=
  exists fetched mid validated rest,
    consume (downloadFile XIG_DB_URL tempPath (updateStart w)) outcomes
    = (Done fetched tt, mid)
    /\ consume (validateDatabaseFile tempPath fetched) mid = (Done validated tt, rest)
    /\ consume (closeCurrent validated) rest = (Done x tt, []).

(** [row ? row.count : 0] for the answer [o] of a count query (line 711). *)
Definition countOf (o : Outcome) : JsVal :=
  match rowOf o with
  | Some row => field row "count"
  | None => VNum 0
  end.

(** The item for [version] that says [Error] (line 718). *)
Definition errorItem (version : JsVal) : string :=
  "<li>" ++ escapeHtml version ++ ": Error</li>".

(** ** The facets *)

(** The table the refinement value is checked against, by view type
    (lines 260-310); [cs] and [lm] read no refinement value. *)
Definition refinementTable (type : option string) : option string :=
  if isStr type "cs" then None
  else if isStr type "rp" then Some "profileResources"
  else if isStr type "dp" then Some "profileTypes"
  else if isStr type "lm" then None
  else if isStr type "ext" then Some "extensionContexts"
  else if isStr type "vs" then Some "txSources"
  else if isStr type "cm" then Some "txSources"
  else Some "resourceTypes".

(** [value] is an element of the set, or a key of the map, the loaded
    cache holds under [table]. *)
Definition knownValue (c : Cache) (table value : string) : bool :=
  loaded c &&
  match maps c !! table with
  | Some (TSet elems) => setHas elems (VStr value)
  | Some (TMap entries) => bool_decide (is_Some (mapGet (VStr value) entries))
  | None => false
  end.

Definition withRt (v : option string) (q : QueryParams) : QueryParams :=
  {| ver := ver q; auth := auth q; realm := realm q; type := type q; rt := v;
     text := text q; offset := offset q |}.

Definition withVer (v : option string) (q : QueryParams) : QueryParams :=
  {| ver := v; auth := auth q; realm := realm q; type := type q; rt := rt q;
     text := text q; offset := offset q |}.

Definition withAuth (v : option string) (q : QueryParams) : QueryParams :=
  {| ver := ver q; auth := v; realm := realm q; type := type q; rt := rt q;
     text := text q; offset := offset q |}.

Definition withRealm (v : option string) (q : QueryParams) : QueryParams :=
  {| ver := ver q; auth := auth q; realm := v; type := type q; rt := rt q;
     text := text q; offset := offset q |}.

(** [needle] occurs in [hay]. *)
Definition occursIn (needle hay : string) : Prop :=
  exists before after, hay = before ++ needle ++ after.

(** The closed enumeration of the version facet. *)
Definition versionNames : list string := ["R2"; "R2B"; "R3"; "R4"; "R4B"; "R5"; "R6"].

(** ** The filter as SQL text: code and string literals *)

Inductive SqlToken : Type :=
| Code (sql : string)
| Lit (value : string).

(** A literal is written between quotes with its own quotes doubled. *)
Definition renderToken (t : SqlToken) : string :=
  match t with
  | Code sql => sql
  | Lit value => "'" ++ sqlEscapeString value ++ "'"
  end.

Fixpoint renderTokens (ts : list SqlToken) : string :=
  match ts with
  | [] => ""
  | t :: rest => renderToken t ++ renderTokens rest
  end.

Definition quoted (facet : option string) : list SqlToken := [Lit (str facet)].

Definition realmTokens (q : QueryParams) : list SqlToken :=
  if truthy (realm q) then (Code " and realm = " :: quoted (realm q)) else [].

Definition authTokens (q : QueryParams) : list SqlToken :=
  if truthy (auth q) then (Code " and authority = " :: quoted (auth q)) else [].

Definition versionTokens (q : QueryParams) : list SqlToken :=
  if String.eqb (versionClause (ver q)) "" then [] else [Code (versionClause (ver q))].

Definition categoryTokens (mode : string) (rt : option string) : list SqlToken :=
  (Code (" and ResourceKey in (Select ResourceKey from Categories where Mode = " ++ mode
         ++ " and Code = ") :: quoted rt ++ [Code ")"])%list.

Definition typeTokens (c : Cache) (q : QueryParams) : list SqlToken :=
  let structure := [Code " and ResourceType = "; Lit "StructureDefinition"] in
  (if isStr (type q) "cs" then [Code " and ResourceType = "; Lit "CodeSystem"]
   else if isStr (type q) "rp" then
     structure ++ [Code " and kind = "; Lit "resource"] ++
     (if rtKnown c "profileResources" (rt q) then Code " and Type = " :: quoted (rt q) else [])
   else if isStr (type q) "dp" then
     structure ++ [Code " and (kind = "; Lit "complex-type"; Code " or kind = ";
                   Lit "primitive-type"; Code ")"] ++
     (if rtKnown c "profileTypes" (rt q) then Code " and Type = " :: quoted (rt q) else [])
   else if isStr (type q) "lm" then
     structure ++ [Code " and kind = "; Lit "logical"]
   else if isStr (type q) "ext" then
     structure ++ [Code " and (Type = "; Lit "Extension"; Code ")"] ++
     (if rtKnown c "extensionContexts" (rt q) then categoryTokens "2" (rt q) else [])
   else if isStr (type q) "vs" then
     [Code " and ResourceType = "; Lit "ValueSet"] ++
     (if rtKnown c "txSources" (rt q) then categoryTokens "1" (rt q) else [])
   else if isStr (type q) "cm" then
     [Code " and ResourceType = "; Lit "ConceptMap"] ++
     (if rtKnown c "txSources" (rt q) then categoryTokens "1" (rt q) else [])
   else
     (if rtKnown c "resourceTypes" (rt q) then Code " and ResourceType = " :: quoted (rt q)
      else []))%list.

Definition ftsTokens (table first second : string) (text : option string) : list SqlToken :=
  (Code ("ResourceKey in (select ResourceKey from " ++ table ++ " where " ++ first ++ " match ")
   :: quoted text ++ Code (" or " ++ second ++ " match ") :: quoted text ++ [Code ")"])%list.

Definition textTokens (q : QueryParams) : list SqlToken :=
  (if truthy (text q) then
     if isStr (type q) "cs" then
       Code " and (" :: ftsTokens "ResourceFTS" "Description" "Narrative" (text q)
       ++ Code " or " :: ftsTokens "CodeSystemFTS" "Display" "Definition" (text q)
       ++ [Code ")"]
     else Code " and " :: ftsTokens "ResourceFTS" "Description" "Narrative" (text q)
   else [])%list.

(** The conjunction of line 325, token by token. *)
Definition conjunctionTokens (c : Cache) (q : QueryParams) : list SqlToken :=
  (realmTokens q ++ authTokens q ++ versionTokens q ++ typeTokens c q ++ textTokens q)%list.

(** Lines 326-329 on the tokens: the first one loses its first four
    characters and gets [WHERE] in front. *)
Definition whereTokens (ts : list SqlToken) : list SqlToken :=
  match ts with
  | Code sql :: rest => Code ("WHERE " ++ substring 4 sql) :: rest
  | _ => ts
  end.

Definition filterTokens (c : Cache) (q : QueryParams) : list SqlToken :=
  whereTokens (conjunctionTokens c q).

(** Tokens that are none, or begin with the separator. *)
Definition ledByAnd (ts : list SqlToken) : Prop :=
  ts = [] \/ exists sql rest, ts = Code (" and" ++ String " " sql) :: rest.

Fixpoint noQuote (s : string) : bool :=
  match s with
  | EmptyString => true
  | String c rest => negb (Ascii.eqb c "'") && noQuote rest
  end.

(** The code of the tokens holds no quote, and code stands between any two
    literals. *)
Fixpoint separated (ts : list SqlToken) : bool :=
  match ts with
  | [] => true
  | Code sql :: rest => noQuote sql && separated rest
  | Lit _ :: rest =>
      match rest with
      | [] => true
      | Code (String _ _) :: _ => separated rest
      | _ => false
      end
  end.

(** Reading SQL text: outside a literal, inside one, or just after a quote
    inside one (the literal's end, or the first half of a doubled quote). *)
Inductive Mode : Type :=
| Outside
| Inside (value : string)
| Closing (value : string).

(** The code read so far with [?] for each literal, and the literals'
    values. *)
Record Reading := {
  skeleton : string;
  literals : list string;
  mode : Mode
}.

Definition snoc (s : string) (c : ascii) : string := s ++ String c EmptyString.

Definition readChar (r : Reading) (c : ascii) : Reading :=
  match mode r with
  | Outside =>
      if Ascii.eqb c "'"
      then {| skeleton := skeleton r; literals := literals r; mode := Inside "" |}
      else {| skeleton := snoc (skeleton r) c; literals := literals r; mode := Outside |}
  | Inside value =>
      if Ascii.eqb c "'"
      then {| skeleton := skeleton r; literals := literals r; mode := Closing value |}
      else {| skeleton := skeleton r; literals := literals r; mode := Inside (snoc value c) |}
  | Closing value =>
      if Ascii.eqb c "'"
      then {| skeleton := skeleton r; literals := literals r; mode := Inside (snoc value c) |}
      else {| skeleton := snoc (skeleton r ++ "?") c;
              literals := (literals r ++ [value])%list; mode := Outside |}
  end.

Fixpoint readFrom (r : Reading) (s : string) : Reading :=
  match s with
  | EmptyString => r
  | String c rest => readFrom (readChar r c) rest
  end.

(** The reading at the end of the text; none when a literal is left open. *)
Definition finish (r : Reading) : option (string * list string) :=
  match mode r with
  | Outside => Some (skeleton r, literals r)
  | Closing value => Some (skeleton r ++ "?", (literals r ++ [value])%list)
  | Inside _ => None
  end.

Definition sqlRead (s : string) : option (string * list string) :=
  finish (readFrom {| skeleton := ""; literals := []; mode := Outside |} s).

(** The reading can go on with the tokens [ts]: it is outside a literal,
    or at the end of one that code follows. *)
Definition ready (r : Reading) (ts : list SqlToken) : Prop :=
  match mode r with
  | Outside => True
  | Closing _ =>
      match ts with
      | [] | Code (String _ _) :: _ => True
      | _ => False
      end
  | Inside _ => False
  end.

Fixpoint skeletonOf (ts : list SqlToken) : string :=
  match ts with
  | [] => ""
  | Code sql :: rest => sql ++ skeletonOf rest
  | Lit _ :: rest => "?" ++ skeletonOf rest
  end.

Fixpoint literalsOf (ts : list SqlToken) : list string :=
  match ts with
  | [] => []
  | Code _ :: rest => literalsOf rest
  | Lit value :: rest => value :: literalsOf rest
  end.

(** The facet values a filter can carry. *)
Definition facetValues (q : QueryParams) : list string :=
  [str (realm q); str (auth q); str (rt q); str (text q)].

(** The literals the source writes itself. *)
Definition fixedLiterals : list string :=
  ["CodeSystem"; "StructureDefinition"; "resource"; "complex-type"; "primitive-type";
   "logical"; "Extension"; "ValueSet"; "ConceptMap"].

(** Where a literal of the filter comes from. *)
Definition facetOrFixed (q : QueryParams) (value : string) : Prop :=
  value ∈ facetValues q \/ value ∈ fixedLiterals.

(** ** The filter as a list of clauses *)

Definition realmClauses (q : QueryParams) : list string :=
  if truthy (realm q) then ["realm = '" ++ sqlEscapeString (str (realm q)) ++ "'"] else [].

Definition authClauses (q : QueryParams) : list string :=
  if truthy (auth q) then ["authority = '" ++ sqlEscapeString (str (auth q)) ++ "'"] else [].

Definition versionClauses (q : QueryParams) : list string :=
  if bool_decide (str (ver q) ∈ versionNames) then [str (ver q) ++ " = 1"] else [].

Definition refinementClauses (known : bool) (clause : string) : list string :=
  if known then [clause] else [].

Definition categoryClause (mode : string) (rt : option string) : string :=
  "ResourceKey in (Select ResourceKey from Categories where Mode = " ++ mode
  ++ " and Code = '" ++ sqlEscapeString (str rt) ++ "')".

Definition typeClauses (c : Cache) (q : QueryParams) : list string :=
  let typeIs := "Type = '" ++ sqlEscapeString (str (rt q)) ++ "'" in
  (if isStr (type q) "cs" then ["ResourceType = 'CodeSystem'"]
   else if isStr (type q) "rp" then
     ["ResourceType = 'StructureDefinition'"; "kind = 'resource'"]
     ++ refinementClauses (rtKnown c "profileResources" (rt q)) typeIs
   else if isStr (type q) "dp" then
     ["ResourceType = 'StructureDefinition'";
      "(kind = 'complex-type' or kind = 'primitive-type')"]
     ++ refinementClauses (rtKnown c "profileTypes" (rt q)) typeIs
   else if isStr (type q) "lm" then
     ["ResourceType = 'StructureDefinition'"; "kind = 'logical'"]
   else if isStr (type q) "ext" then
     ["ResourceType = 'StructureDefinition'"; "(Type = 'Extension')"]
     ++ refinementClauses (rtKnown c "extensionContexts" (rt q)) (categoryClause "2" (rt q))
   else if isStr (type q) "vs" then
     ["ResourceType = 'ValueSet'"]
     ++ refinementClauses (rtKnown c "txSources" (rt q)) (categoryClause "1" (rt q))
   else if isStr (type q) "cm" then
     ["ResourceType = 'ConceptMap'"]
     ++ refinementClauses (rtKnown c "txSources" (rt q)) (categoryClause "1" (rt q))
   else
     refinementClauses (rtKnown c "resourceTypes" (rt q))
       ("ResourceType = '" ++ sqlEscapeString (str (rt q)) ++ "'"))%list.

Definition ftsClause (table first second : string) (text : option string) : string :=
  "ResourceKey in (select ResourceKey from " ++ table ++ " where " ++ first ++ " match '"
  ++ sqlEscapeString (str text) ++ "' or " ++ second ++ " match '"
  ++ sqlEscapeString (str text) ++ "')".

Definition textClauses (q : QueryParams) : list string :=
  if truthy (text q) then
    if isStr (type q) "cs" then
      ["(" ++ ftsClause "ResourceFTS" "Description" "Narrative" (text q) ++ " or "
       ++ ftsClause "CodeSystemFTS" "Display" "Definition" (text q) ++ ")"]
    else [ftsClause "ResourceFTS" "Description" "Narrative" (text q)]
  else [].

Definition filterClauses (c : Cache) (q : QueryParams) : list string :=
  (realmClauses q ++ authClauses q ++ versionClauses q ++ typeClauses c q ++ textClauses q)%list.

(** The conjunction of the clauses, each behind its separator. *)
Definition andAll (clauses : list string) : string :=
  renderTokens (map (fun clause => Code (" and " ++ clause)) clauses).

(** ** The three breakdowns *)

Inductive Dimension : Type :=
| ByVersion
| ByAuthority
| ByRealm.

Definition ownFacet (d : Dimension) (q : QueryParams) : option string :=
  match d with
  | ByVersion => ver q
  | ByAuthority => auth q
  | ByRealm => realm q
  end.

Definition withoutFacet (d : Dimension) (q : QueryParams) : QueryParams :=
  match d with
  | ByVersion => withVer None q
  | ByAuthority => withAuth None q
  | ByRealm => withRealm None q
  end.

Definition breakdown (d : Dimension)
  : string -> string -> QueryParams -> string -> Async (string * string) string :=
  match d with
  | ByVersion => versionBreakdown
  | ByAuthority => authorityBreakdown
  | ByRealm => realmBreakdown
  end.

(** The first query of a breakdown over the records the filter selects;
    the version breakdown has one query for each cached version. *)
Definition breakdownQuery (d : Dimension) (currentFilter : string) (db : Db)
    (versions : list JsVal) : option Op :=
  match d with
  | ByVersion =>
      match versions with
      | [] => None
      | version :: _ => Some (DbGet (handle db) (versionSql currentFilter version))
      end
  | ByAuthority => Some (DbAll (handle db) (authoritySql currentFilter))
  | ByRealm => Some (DbAll (handle db) (realmSql currentFilter))
  end.

(** ** States and inputs of the examples *)

(** A state with a connection open on the dataset file. *)
Definition connectedWorld : World :=
  {| files := {[ XIG_DB_PATH := "old" ]}; fsFault := fun _ => None;
     xigDb := Some {| handle := 0; dbPath := XIG_DB_PATH |}; configCache := initialCache;
     cacheLoadInProgress := false; handles := 1; now := 0; logged := [] |}.

(** The state of [connectedWorld] on a file system that refuses to rename. *)
Definition renameRefused : World :=
  {| files := files connectedWorld;
     fsFault := fun op => match op with
                          | Rename _ _ => Some "EPERM: operation not permitted"
                          | Unlink _ => None
                          end;
     xigDb := xigDb connectedWorld; configCache := configCache connectedWorld;
     cacheLoadInProgress := false; handles := handles connectedWorld; now := 0;
     logged := [] |}.


(** [connectedWorld] while a rebuild of the cache is in progress. *)
Definition rebuildingWorld : World := setCacheLoadInProgress true connectedWorld.


(** A loaded cache with the fixed versions. *)
Definition versionsCache : Cache :=
  {| loaded := true; lastUpdated := Some 0%Z; maps := {[ "versions" := TSet fixedVersions ]} |}.

Definition loadedWorld : World :=
  setConfigCache versionsCache connectedWorld.

(** The outcomes of a refresh in which every operation ends well and every
    table is empty. *)
Definition refreshOutcomes (data : string) : list Outcome :=
  [OResponse 200 None (Finished data); OOk; ORow None; OOk; OOk;
   ORows []; ORows []; ORows []; ORows []; ORows []; ORows []; ORows []; ORows []].

Definition deliverAll (call : nat) (outcomes : list Outcome) : list Event :=
  map (Deliver call) outcomes.

(** Two triggers of the refresh, the second while the first waits for its
    download; then the operations of the first end, then those of the
    second. *)
Definition twoRefreshes : list Event :=
  ([Trigger updateXigDatabase; Trigger updateXigDatabase]
   ++ deliverAll 0 (refreshOutcomes "first") ++ deliverAll 1 (refreshOutcomes "second"))%list.

(** How often [message] was logged. *)
Definition timesLogged (message : string) (w : World) : nat :=
  length (filter (fun m => m = message) (logged w)).

(** The rows of the realm query for ten records of realm [us], five of
    [uk] and three of [longcustomrealm], in the order of the query. *)
Definition sampleRealmRows : list Row :=
  [[("Realm", VStr "longcustomrealm"); ("count", VNum 3)];
   [("Realm", VStr "uk"); ("count", VNum 5)];
   [("Realm", VStr "us"); ("count", VNum 10)]].

Definition blockOpen : string :=
  "<div style=" ++ dquote
  ++ "background-color:rgb(254, 250, 198); border: 1px black solid; padding: 6px; font-size: 12px; font-family: verdana;"
  ++ dquote ++ ">".

Definition versionAndAuthority : QueryParams :=
  {| ver := Some "R4"; auth := Some "hl7"; realm := Some ""; type := Some "";
     rt := Some ""; text := Some ""; offset := Some "0" |}.

Definition authorityOnly : QueryParams :=
  {| ver := Some ""; auth := Some "hl7"; realm := Some ""; type := Some "";
     rt := Some ""; text := Some ""; offset := Some "0" |}.

(** ** Links and markup *)

(** The code units of a string. *)
Definition chars (s : string) : list ascii := list_ascii_of_string s.

(** The characters that open or close a tag or an attribute value. *)
Definition markupChars : list ascii := ["<"; ">"; dquoteChar; "'"]%char.

(** [s.split(sep)] for a separator of one character, with the part read
    so far. *)
Fixpoint splitFrom (sep : ascii) (part : string) (s : string) : list string :=
  match s with
  | EmptyString => [part]
  | String c r =>
      if Ascii.eqb c sep then part :: splitFrom sep "" r
      else splitFrom sep (part ++ String c EmptyString) r
  end.

Definition jsSplit (sep : ascii) (s : string) : list string := splitFrom sep "" s.

(** The [queryString] of [buildPaginationUrl] (lines 429-432), on the
    keys of [params] with their values. *)
Definition queryStringOf (params : list (string * JsVal)) : string :=
  join "&"
    (map (fun kv : string * JsVal => fst kv ++ "=" ++ encodeURIComponent (jsString (snd kv)))
       (filter (fun kv : string * JsVal => truthyV (snd kv) = true) params)).

Definition buildPaginationUrl (baseUrl : string) (params : list (string * JsVal)) : string :=
  let queryString := queryStringOf params in
  baseUrl ++ (if negb (String.eqb queryString "") then "?" ++ queryString else "").

(** The parameters a link carries: the keys with a value that is not
    empty, each with its value as the link spells it. *)
Definition carried (params : list (string * JsVal)) : list (list string) :=
  map (fun kv : string * JsVal => [fst kv; encodeURIComponent (jsString (snd kv))])
    (filter (fun kv : string * JsVal => truthyV (snd kv) = true) params).

(** No [&] and no [=] in a key. *)
Definition plainKey (key : string) : Prop :=
  ("&"%char ∉ chars key) /\ ("="%char ∉ chars key).

(** Reading the five entities of [escapeHtml] back; [skip] characters of
    an entity are still to pass. *)
Fixpoint decodeEntities (skip : nat) (s : string) : string :=
  match s with
  | EmptyString => EmptyString
  | String c r =>
      match skip with
      | S n => decodeEntities n r
      | O =>
          if String.prefix "&amp;" s then String "&" (decodeEntities 4 r)
          else if String.prefix "&lt;" s then String "<" (decodeEntities 3 r)
          else if String.prefix "&gt;" s then String ">" (decodeEntities 3 r)
          else if String.prefix "&quot;" s then String dquoteChar (decodeEntities 5 r)
          else if String.prefix "&#39;" s then String "'" (decodeEntities 4 r)
          else String c (decodeEntities 0 r)
      end
  end.

(** What [encodeURIComponent] writes: a character it leaves alone, or the
    percent sign of an escape. *)
Definition uriChar (c : ascii) : Prop := uriUnreserved c = true \/ c = "%"%char.

(** The names of the parameters of a request (lines 1880-1888). *)
Definition paramNames : list string :=
  ["ver"; "auth"; "realm"; "type"; "rt"; "text"; "offset"].

(** The parameters of the link to the next page of a search whose text
    holds an [&] and an [=]. *)
Definition sampleLinkParams : list (string * JsVal) :=
  spreadWith "offset" (VStr "200")
    (paramEntries
       {| ver := Some ""; auth := None; realm := Some "us"; type := Some "";
          rt := None; text := Some "a&b=c"; offset := Some "0" |}).

(** ** Reading the cache (lines 454-460, 1184-1246, 2110-2121) *)

(** An entry of a [Map] used as a condition. *)
Definition truthyM (m : MapVal) : bool :=
  match m with
  | MJs v => truthyV v
  | MPkg _ => true
  end.

(** [map.get(key)] as a value: [undefined] when there is no entry. *)
Definition mapGetValue (key : JsVal) (entries : list (JsVal * MapVal)) : MapVal :=
  default (MJs VUndef) (mapGet key entries).

Definition getCachedValue (configCache : Cache) (tableName : string) (key : JsVal)
  : MapVal :=
  if negb (loaded configCache) then MJs VNull
  else match maps configCache !! tableName with
       | None => MJs VNull
       | Some (TMap entries) => mapGetValue key entries
       | Some (TSet _) => MJs VNull
       end.

Definition getMetadata (configCache : Cache) (key : JsVal) : MapVal :=
  getCachedValue configCache "metadata" key.

(** [getPackage(packageKey)]; [inl] is the message of the TypeError thrown
    when the table is not a [Map]. *)
Definition getPackage (configCache : Cache) (packageKey : JsVal) : string + MapVal :=
  if negb (loaded configCache) then inr (MJs VNull)
  else match maps configCache !! "packages" with
       | None => inr (MJs VNull)
       | Some (TSet _) => inl (notAFunction "configCache.maps.packages.get")
       | Some (TMap entries) =>
           let found := mapGetValue packageKey entries in
           inr (if truthyM found then found else MJs VNull)
       end.

(** [s.replace(/\|/g, '#')] (line 2050). *)
Fixpoint replacePipe (s : string) : string :=
  match s with
  | EmptyString => EmptyString
  | String c r => String (if Ascii.eqb c "|" then "#"%char else c) (replacePipe r)
  end.

Definition getPackageByPid (configCache : Cache) (pid : string) : string + MapVal :=
  if negb (loaded configCache) then inr (MJs VNull)
  else match maps configCache !! "packagesById" with
       | None => inr (MJs VNull)
       | Some (TSet _) => inl (notAFunction "configCache.maps.packagesById.get")
       | Some (TMap entries) =>
           let pidWithPipe := replaceHash pid in
           let byPid := mapGetValue (VStr pid) entries in
           if truthyM byPid then inr byPid
           else
             let byPipe := mapGetValue (VStr pidWithPipe) entries in
             inr (if truthyM byPipe then byPipe else MJs VNull)
       end.

(** The values of a column in the rows of a query. *)
Definition column (name : string) (rows : list Row) : list JsVal :=
  map (fun row => field row name) rows.

(** Two packages whose identifiers differ in the version only. *)
Definition samplePackageRows : list Row :=
  [[("PackageKey", VNum 1); ("Id", VStr "hl7.fhir.us.core"); ("PID", VStr "hl7.fhir.us.core#6.1.0");
    ("Web", VNull); ("Canonical", VNull)];
   [("PackageKey", VNum 2); ("Id", VStr "hl7.fhir.us.core"); ("PID", VStr "hl7.fhir.us.core#7.0.0");
    ("Web", VNull); ("Canonical", VNull)]].

(** The answers to the queries of a rebuild of a database without a
    [Resources] table: the metadata, the realms, the authorities, the
    packages, the check for the table, the two kinds of categories and the
    terminology sources. *)
Definition sampleBuildOutcomes : list Outcome :=
  [ORows [[("Name", VStr "title"); ("Value", VStr "Draft")];
          [("Name", VStr "title"); ("Value", VStr "XIG")]];
   ORows [[("Code", VStr "uv")]; [("Code", VStr "europe")]; [("Code", VStr "us")]];
   ORows [[("Code", VStr "hl7")]; [("Code", VStr "ihe")]];
   ORows samplePackageRows;
   ORows []; ORows []; ORows [];
   ORows [[("Code", VStr "loinc"); ("Display", VStr "LOINC")]]].

(** The cache built from them. *)
Definition sampleBuiltCache : Cache :=
  match fst (consume (buildNewCache connectedWorld) sampleBuildOutcomes) with
  | Done _ c => c
  | _ => initialCache
  end.

(** The second of the packages. *)
Definition samplePackage : Package :=
  {| PackageKey := VNum 2; Id := VStr "hl7.fhir.us.core"; PID := VStr "hl7.fhir.us.core#7.0.0";
     Web := VNull; Canonical := VNull |}.

(** ** How a call can end *)

(** However the operations of the call end and whatever state the module
    is in when the call goes on, the call ends, if it does, with a result
    and a state that satisfy [Q], or with an error and a state that
    satisfy [R]. *)
Fixpoint ends {E A} (Q : World -> A -> Prop) (R : World -> E -> Prop) (t : Task E A)
  : Prop :=
  match t with
  | Done w a => Q w a
  | Throw w e => R w e
  | Await _ _ k => forall o w', ends Q R (k o w')
  | Never _ => True
  end.

(** The promise of the call is never rejected. *)
Definition neverRejects {E A} (t : Task E A) : Prop :=
  ends (fun _ _ => True) (fun _ _ => False) t.

(** A response that [attemptDownload] follows (line 1264). *)
Definition isRedirect (o : Outcome) : bool :=
  match o with
  | OResponse statusCode location _ =>
      (300 <=? statusCode)%Z && (statusCode <? 400)%Z && truthy location
  | _ => false
  end.

(** The connection object [initializeDatabase] creates in [w]. *)
Definition nextDb (w : World) : Db := {| handle := handles w; dbPath := XIG_DB_PATH |}.

(** A module with a connection and a dataset file that cannot be removed. *)
Definition unlinkRefused : World :=
  {| files := {[ XIG_DB_PATH := "old" ]};
     fsFault := fun op => match op with
                          | Unlink path => if String.eqb path XIG_DB_PATH
                                           then Some "EBUSY: resource busy or locked"
                                           else None
                          | Rename _ _ => None
                          end;
     xigDb := Some {| handle := 0; dbPath := XIG_DB_PATH |};
     configCache := initialCache; cacheLoadInProgress := false; handles := 1; now := 0;
     logged := [] |}.

(** The answers to a download that is redirected once, and the answer to
    the operation after it. *)
Definition redirectedOnce : list Outcome :=
  [OResponse 301 (Some "http://fhir.org/xig.db") (Finished "");
   OResponse 200 None (Finished "data"); OOk].

(** ** The queries of the resource list (lines 342-387) *)

(** The line break of a template literal. *)
Definition nl : string := String (ascii_of_nat 10) EmptyString.

(** [s.trimStart()], [s.trimEnd()] and [s.trim()]. *)
Fixpoint trimStart (s : string) : string :=
  match s with
  | EmptyString => EmptyString
  | String c r => if isWhite c then trimStart r else s
  end.

Fixpoint trimEnd (s : string) : string :=
  match s with
  | EmptyString => EmptyString
  | String c r =>
      let kept := trimEnd r in
      if isWhite c && String.eqb kept "" then EmptyString else String c kept
  end.

Definition trim (s : string) : string := trimEnd (trimStart s).

(** The numbers [offset] and [limit] are integers, written in a template
    literal as their decimal digits. *)
Definition buildResourceListQuery (configCache : Cache) (queryParams : QueryParams)
    (offset limit : Z) : string :=
  let whereClause := buildSqlFilter configCache queryParams in
  let sql :=
    nl ++ "    SELECT " ++
    nl ++ "      ResourceKey," ++
    nl ++ "      ResourceType," ++
    nl ++ "      Type," ++
    nl ++ "      Kind," ++
    nl ++ "      Description," ++
    nl ++ "      PackageKey," ++
    nl ++ "      Realm," ++
    nl ++ "      Authority," ++
    nl ++ "      R2, R2B, R3, R4, R4B, R5, R6," ++
    nl ++ "      Id," ++
    nl ++ "      Url," ++
    nl ++ "      Version," ++
    nl ++ "      Status," ++
    nl ++ "      Date," ++
    nl ++ "      Name," ++
    nl ++ "      Title," ++
    nl ++ "      Content," ++
    nl ++ "      Supplements," ++
    nl ++ "      Details," ++
    nl ++ "      Web" ++
    nl ++ "    FROM Resources" ++
    nl ++ "    " ++ whereClause ++
    nl ++ "    ORDER BY ResourceType, Type, Description" ++
    nl ++ "    LIMIT " ++ numStr limit ++ " OFFSET " ++ numStr offset ++
    nl ++ "  " in
  trim sql.

Definition buildResourceCountQuery (configCache : Cache) (queryParams : QueryParams)
  : string :=
  let whereClause := buildSqlFilter configCache queryParams in
  let sql :=
    nl ++ "    SELECT COUNT(*) as total" ++
    nl ++ "    FROM Resources" ++
    nl ++ "    " ++ whereClause ++
    nl ++ "  " in
  trim sql.

(** The last character of the text is not white space. *)
Fixpoint endsWell (s : string) : bool :=
  match s with
  | EmptyString => false
  | String c r =>
      match r with
      | EmptyString => negb (isWhite c)
      | String _ _ => endsWell r
      end
  end.

(** The text, read as SQL, has the literals of the filter of [q] and no
    other. *)
Definition readsWithFilterOf (c : Cache) (q : QueryParams) (sql : string) : Prop :=
  exists code, sqlRead sql = Some (code, literalsOf (filterTokens c q)).

(** The text of the list query before the filter, from [SELECT] on, and
    the text between the filter and the limit. *)
Definition listSelect : string :=
  "SELECT " ++
  nl ++ "      ResourceKey," ++
  nl ++ "      ResourceType," ++
  nl ++ "      Type," ++
  nl ++ "      Kind," ++
  nl ++ "      Description," ++
  nl ++ "      PackageKey," ++
  nl ++ "      Realm," ++
  nl ++ "      Authority," ++
  nl ++ "      R2, R2B, R3, R4, R4B, R5, R6," ++
  nl ++ "      Id," ++
  nl ++ "      Url," ++
  nl ++ "      Version," ++
  nl ++ "      Status," ++
  nl ++ "      Date," ++
  nl ++ "      Name," ++
  nl ++ "      Title," ++
  nl ++ "      Content," ++
  nl ++ "      Supplements," ++
  nl ++ "      Details," ++
  nl ++ "      Web" ++
  nl ++ "    FROM Resources" ++
  nl ++ "    ".

Definition listOrder : string :=
  nl ++ "    ORDER BY ResourceType, Type, Description" ++ nl ++ "    LIMIT ".

Definition countSelect : string :=
  "SELECT COUNT(*) as total" ++ nl ++ "    FROM Resources".

(** ** Request statistics (lines 26-30, 1603-1621) *)

Record RequestStats := {
  total : Z;
  dailyCounts : gmap string Z
}.

(** The statistics the module starts with. *)
Definition initialStats : RequestStats := {| total := 0; dailyCounts := ∅ |}.

(** [trackRequest], with the two dates it reads off the clock: [today]
    (line 1606) and [cutoffDate], the date thirty days back (lines
    1610-1612).  Dates are compared as strings (line 1615). *)
Definition trackRequest (today cutoffDate : string) (requestStats : RequestStats)
  : RequestStats :=
  let currentCount := default 0%Z (dailyCounts requestStats !! today) in
  let counts := <[today := (currentCount + 1)%Z]> (dailyCounts requestStats) in
  {| total := (total requestStats + 1)%Z;
     dailyCounts :=
       filter (fun entry : string * Z => String.ltb (fst entry) cutoffDate = false) counts |}.

(** The requests the daily counts stand for. *)
Definition countedRequests (counts : gmap string Z) : Z :=
  map_fold (fun _ n sum => (n + sum)%Z) 0%Z counts.

(** The statistics after requests made at the given pairs of dates. *)
Definition afterRequests (dates : list (string * string)) : RequestStats :=
  foldl (fun stats d => trackRequest (fst d) (snd d) stats) initialStats dates.

(** ** The start of the module (lines 63-76, 2501-2526) *)

Definition TEMPLATE_PATH : string := "xig-template.html".

(** [loadTemplate()].  [readFault] is the error [fs.readFileSync] throws,
    when it throws.  The text read goes to [htmlTemplate], which none of
    the functions here reads; what is left of the call is the line it
    logs. *)
Definition loadTemplate {E} (readFault : option string) : Async E unit :=
  w <- getWorld ;>
  if existsSync TEMPLATE_PATH w then
    match readFault with
    | Some message => logMessage ("Failed to load HTML template: " ++ message)
    | None => logMessage "HTML template loaded successfully"
    end
  else logMessage "xig-template.html".

(** What [initializeXigModule] registers: the timer of line 2511 and the
    schedule of line 2516.  Each calls [updateXigDatabase] when it is
    due. *)
Inductive Timer : Type :=
| InitialDownload
| DailyUpdate.

(** [initializeXigModule()], with the timers it has registered as its
    result. *)
Definition initializeXigModule (readFault : option string) : Async string (list Timer) :=
  tryCatch
    (logMessage "Initializing XIG module" ;>
     loadTemplate readFault ;>
     initializeDatabase ;>
     w <- getWorld ;>
     timers <- (if negb (existsSync XIG_DB_PATH w) then
                  logMessage "No existing XIG database found, triggering initial download" ;>
                  ret [InitialDownload]
                else ret []) ;>
     let timers := (timers ++ [DailyUpdate])%list in
     logMessage "XIG module initialized successfully" ;>
     ret timers)
    (fun error =>
       logMessage ("XIG module initialization failed: " ++ error) ;>
       ret []).

(** ** The manual update (lines 2483-2498) *)

(** What a handler sends: the status code of the response and the fields
    of its JSON body. *)
Record Reply := {
  replyCode : Z;
  replyStatus : string;
  replyMessage : string;
  replyError : option string
}.

(** The handler of [POST /update], with the reply it sends as its
    result. *)
Definition postUpdate : Async string Reply :=
  tryCatch
    (logMessage "Manual update triggered via API" ;>
     updateXigDatabase ;>
     ret {| replyCode := 200; replyStatus := "SUCCESS";
            replyMessage := "XIG database updated successfully"; replyError := None |})
    (fun error =>
       ret {| replyCode := 500; replyStatus := "ERROR";
              replyMessage := "Failed to update XIG database"; replyError := Some error |}).

(** ** The control panel (lines 1034-1154) *)

(** [value === current] for an element of a table and a parameter. *)
Definition strictEq (value : JsVal) (current : option string) : bool :=
  match value, current with
  | VStr s, Some t => String.eqb s t
  | VUndef, None => true
  | _, _ => false
  end.

(** [s.includes(c)] for a text of one character. *)
Definition includes (c : ascii) (s : string) : bool := bool_decide (c ∈ chars s).

(** [{ ...params }] after [delete filteredParams[excludeParam]]. *)
Definition withoutKey (excludeParam : string) (entries : list (string * JsVal))
  : list (string * JsVal) :=
  filter (fun kv : string * JsVal => fst kv <> excludeParam) entries.

Definition buildBaseUrl (baseUrl : string) (params : QueryParams) (excludeParam : string)
  : string :=
  let filteredParams := withoutKey excludeParam (paramEntries params) in
  let queryString := queryStringOf filteredParams in
  baseUrl ++ (if negb (String.eqb queryString "") then "?" ++ queryString else "").

(** The address of the link of one value of a bar (lines 1065-1066, and
    the same in the other bars). *)
Definition barLink (baseUrlWithout key : string) (value : JsVal) : string :=
  let separator := if includes "?" baseUrlWithout then "&" else "?" in
  baseUrlWithout ++ separator ++ key ++ "=" ++ encodeURIComponent (jsString value).

(** The callback of the [forEach] of a bar, on the text built so far:
    the current value in bold, any other as a link. *)
Definition barItem (baseUrlWithout key : string) (current : option string) (html : string)
    (value : JsVal) : string :=
  if strictEq value current then html ++ " | <b>" ++ escapeHtml value ++ "</b>"
  else html ++ " | <a href=" ++ dquote ++ barLink baseUrlWithout key value ++ dquote ++ ">"
       ++ escapeHtml value ++ "</a>".

(** The common body of [buildVersionBar], [buildAuthorityBar] and
    [buildRealmBar] (lines 1046-1125). *)
Definition buildBar (label key tableName : string) (current : option string)
    (configCache : Cache) (baseUrl : string) (currentParams : QueryParams) : string :=
  let baseUrlWithout := buildBaseUrl baseUrl currentParams key in
  let html := label in
  let html :=
    if negb (truthy current) then html ++ "<b>All</b>"
    else html ++ "<a href=" ++ dquote ++ baseUrlWithout ++ dquote ++ ">All</a>" in
  foldl (barItem baseUrlWithout key current) html (getCachedSet configCache tableName).

Definition buildVersionBar (configCache : Cache) (baseUrl : string)
    (currentParams : QueryParams) : string :=
  buildBar "Version: " "ver" "versions" (ver currentParams) configCache baseUrl currentParams.

Definition buildAuthorityBar (configCache : Cache) (baseUrl : string)
    (currentParams : QueryParams) : string :=
  buildBar "Authority: " "auth" "authorities" (auth currentParams) configCache baseUrl
    currentParams.

Definition buildRealmBar (configCache : Cache) (baseUrl : string)
    (currentParams : QueryParams) : string :=
  buildBar "Realm: " "realm" "realms" (realm currentParams) configCache baseUrl currentParams.

(** [escapeHtml] on a value of a [Map]: an object is not a string and is
    written by [String]. *)
Definition escapeHtmlM (display : MapVal) : string :=
  match display with
  | MJs v => escapeHtml v
  | MPkg _ => "[object Object]"
  end.

(** The callback of [typesMap.forEach] (lines 1143-1150). *)
Definition typeItem (baseUrlWithoutType : string) (current : option string) (html : string)
    (entry : JsVal * MapVal) : string :=
  let (code, display) := entry in
  if strictEq code current then html ++ " | <b>" ++ escapeHtmlM display ++ "</b>"
  else html ++ " | <a href=" ++ dquote ++ barLink baseUrlWithoutType "type" code ++ dquote
       ++ ">" ++ escapeHtmlM display ++ "</a>".

Definition buildTypeBar (configCache : Cache) (baseUrl : string)
    (currentParams : QueryParams) : string :=
  let baseUrlWithoutType := buildBaseUrl baseUrl currentParams "type" in
  let html := "View: " in
  let html :=
    if negb (truthy (type currentParams)) then html ++ "<b>All</b>"
    else html ++ "<a href=" ++ dquote ++ baseUrlWithoutType ++ dquote ++ ">All</a>" in
  match getCachedTable configCache "types" with
  | Some (TMap entries) => foldl (typeItem baseUrlWithoutType (type currentParams)) html entries
  | _ => html
  end.

(** The parameters with a value that a request carries besides [key],
    and the one a link of the bar of [key] adds. *)
Definition carriedWith (key : string) (value : JsVal) (q : QueryParams) : list (list string) :=
  (carried (withoutKey key (paramEntries q))
   ++ [[key; encodeURIComponent (jsString value)]])%list.

(** A request for the second page of the profiles of the US realm. *)
Definition sampleRequest : QueryParams :=
  {| ver := Some ""; auth := Some ""; realm := Some "us"; type := Some "rp"; rt := Some "";
     text := Some ""; offset := Some "200" |}.

#[local] Arguments String.append !s1 s2 : simpl nomatch.

(** * Proofs *)

(** ** Strings *)

Lemma append_assoc (a b c : string) : (a ++ b) ++ c = a ++ (b ++ c).
Proof. induction a as [|x a IH]; simpl; congruence. Qed.

Lemma append_empty_r (a : string) : a ++ "" = a.
Proof. induction a as [|x a IH]; simpl; congruence. Qed.

Lemma eqb_empty_false (c : ascii) (s : string) : String.eqb (String c s) "" = false.
Proof. reflexivity. Qed.

Lemma truthy_str (x : option string) :
  truthy x = true -> exists c s, x = Some (String c s).
Proof. destruct x as [[|c s]|]; simpl; intros H; try discriminate; eauto. Qed.

Lemma isStr_eq (x : option string) (lit : string) :
  isStr x lit = true -> x = Some lit.
Proof.
  destruct x as [s|]; simpl; [|discriminate].
  intros H. apply String.eqb_eq in H. now subst.
Qed.

Lemma join_and (c : string) (cs : list string) :
  renderTokens (map (fun clause => Code (" and " ++ clause)) (c :: cs))
  = " and " ++ join " and " (c :: cs).
Proof.
  revert c. induction cs as [|d cs IH]; intros c.
  - simpl. now rewrite append_empty_r.
  - change (renderTokens (map (fun clause => Code (" and " ++ clause)) (c :: d :: cs)))
      with ((" and " ++ c) ++ renderTokens (map (fun clause => Code (" and " ++ clause)) (d :: cs))).
    rewrite IH. change (join " and " (c :: d :: cs)) with (c ++ " and " ++ join " and " (d :: cs)).
    now rewrite append_assoc.
Qed.

(** ** The stages of the filter *)

Lemma renderTokens_app (a b : list SqlToken) :
  renderTokens (a ++ b)%list = renderTokens a ++ renderTokens b.
Proof.
  induction a as [|x a IH]; [reflexivity|].
  change (renderToken x ++ renderTokens (a ++ b)%list
          = (renderToken x ++ renderTokens a) ++ renderTokens b).
  now rewrite IH, append_assoc.
Qed.

Lemma andAll_app (a b : list string) : andAll (a ++ b)%list = andAll a ++ andAll b.
Proof. unfold andAll. now rewrite map_app, renderTokens_app. Qed.

Lemma filterConjunction_stages (c : Cache) (q : QueryParams) :
  filterConjunction c q
  = (if truthy (realm q) then " and realm = '" ++ sqlEscapeString (str (realm q)) ++ "'" else "")
    ++ (if truthy (auth q) then " and authority = '" ++ sqlEscapeString (str (auth q)) ++ "'" else "")
    ++ versionClause (ver q) ++ typeClause c (type q) (rt q) ++ textClause (type q) (text q).
Proof.
  unfold filterConjunction.
  destruct (truthy (realm q)), (truthy (auth q)); cbn [String.append];
    rewrite ?append_assoc; cbn [String.append]; rewrite ?append_assoc; reflexivity.
Qed.

Lemma versionClause_clauses (q : QueryParams) :
  versionClause (ver q) = andAll (versionClauses q).
Proof.
  unfold versionClause, versionClauses, andAll.
  destruct (ver q) as [v|]; [|reflexivity].
  destruct (truthy (Some v)) eqn:T.
  2:{ destruct v; [reflexivity | discriminate]. }
  cbn [negb isStr str default].
  unfold versionNames.
  repeat match goal with
  | |- context [String.eqb v ?l] =>
      destruct (String.eqb_spec v l); [subst; reflexivity|]
  end.
  rewrite bool_decide_eq_false_2; [reflexivity|].
  rewrite !elem_of_cons, elem_of_nil. tauto.
Qed.

Lemma typeClause_clauses (c : Cache) (q : QueryParams) :
  typeClause c (type q) (rt q) = andAll (typeClauses c q).
Proof.
  unfold typeClause, typeClauses, andAll, refinementClauses, categoryClause, hasTerminologySource.
  fold (rtKnown c "txSources" (rt q)).
  repeat match goal with
  | |- context [if isStr (type q) ?l then _ else _] => destruct (isStr (type q) l)
  | |- context [if rtKnown c ?t (rt q) then _ else _] => destruct (rtKnown c t (rt q))
  end; cbn; rewrite ?append_assoc, ?append_empty_r; cbn; rewrite ?append_assoc; reflexivity.
Qed.

Lemma textClause_clauses (q : QueryParams) :
  textClause (type q) (text q) = andAll (textClauses q).
Proof.
  unfold textClause, textClauses, andAll, ftsClause.
  destruct (truthy (text q)); [|reflexivity].
  destruct (isStr (type q) "cs"); cbn; rewrite ?append_assoc, ?append_empty_r; cbn;
    rewrite ?append_assoc; cbn; rewrite ?append_assoc; reflexivity.
Qed.

Lemma filterConjunction_clauses (c : Cache) (q : QueryParams) :
  filterConjunction c q = andAll (filterClauses c q).
Proof.
  rewrite filterConjunction_stages. unfold filterClauses.
  rewrite !andAll_app, <- versionClause_clauses, <- typeClause_clauses, <- textClause_clauses.
  f_equal; [|f_equal].
  - unfold realmClauses. destruct (truthy (realm q)); [|reflexivity].
    unfold andAll. cbn. now rewrite append_empty_r.
  - unfold authClauses. destruct (truthy (auth q)); [|reflexivity].
    unfold andAll. cbn. now rewrite append_empty_r.
Qed.

(** ** The shape of the filter *)

Lemma andAll_cons (clause : string) (rest : list string) :
  andAll (clause :: rest) = " and " ++ join " and " (clause :: rest).
Proof. apply join_and. Qed.

Lemma buildSqlFilter_clauses (c : Cache) (q : QueryParams) :
  buildSqlFilter c q
  = match filterClauses c q with
    | [] => ""
    | clauses => "WHERE " ++ " " ++ join " and " clauses
    end.
Proof.
  unfold buildSqlFilter. rewrite filterConjunction_clauses.
  destruct (filterClauses c q) as [|clause rest]; [reflexivity|].
  rewrite andAll_cons. reflexivity.
Qed.

Lemma occursIn_refl (s : string) : occursIn s s.
Proof. exists "", "". simpl. now rewrite append_empty_r. Qed.

Lemma occursIn_append (needle a hay b : string) :
  occursIn needle hay -> occursIn needle (a ++ hay ++ b).
Proof.
  intros (before & after & ->). exists (a ++ before), (after ++ b).
  now rewrite !append_assoc.
Qed.

Lemma occursIn_prefixed (needle a hay : string) :
  occursIn needle hay -> occursIn needle (a ++ hay).
Proof.
  intros H. rewrite <- (append_empty_r hay). now apply occursIn_append.
Qed.

Lemma occursIn_join (sep clause : string) (clauses : list string) :
  clause ∈ clauses -> occursIn clause (join sep clauses).
Proof.
  induction clauses as [|x rest IH]; intros H; [now apply elem_of_nil in H|].
  apply elem_of_cons in H as [->|H].
  - destruct rest as [|y rest]; [apply occursIn_refl|].
    change (occursIn x ("" ++ x ++ (sep ++ join sep (y :: rest)))).
    apply occursIn_append, occursIn_refl.
  - destruct rest as [|y rest]; [now apply elem_of_nil in H|].
    change (occursIn clause (x ++ sep ++ join sep (y :: rest))).
    rewrite <- append_assoc. apply occursIn_prefixed, IH, H.
Qed.

Lemma clause_occurs (c : Cache) (q : QueryParams) (clause : string) :
  clause ∈ filterClauses c q -> occursIn clause (buildSqlFilter c q).
Proof.
  intros H. rewrite buildSqlFilter_clauses.
  destruct (filterClauses c q) as [|x rest] eqn:E; [now apply elem_of_nil in H|].
  rewrite <- append_assoc. apply occursIn_prefixed, occursIn_join, H.
Qed.

Lemma not_occursIn_empty (c : ascii) (s : string) : ~ occursIn (String c s) "".
Proof. intros ([|x before] & after & H); discriminate H. Qed.

(** ** The refinement value *)

Lemma hasCachedValue_known (c : Cache) (table value : string) :
  hasCachedValue c table value = true -> knownValue c table value = true.
Proof.
  unfold hasCachedValue, knownValue.
  destruct (loaded c); simpl; [|discriminate].
  destruct (maps c !! table) as [[elems|entries]|]; auto; discriminate.
Qed.

Lemma rtKnown_unknown (c : Cache) (table value : string) :
  knownValue c table value = false -> rtKnown c table (Some value) = false.
Proof.
  intros H. unfold rtKnown.
  destruct (hasCachedValue c table (str (Some value))) eqn:E.
  - apply hasCachedValue_known in E. simpl in E. congruence.
  - apply andb_false_r.
Qed.

Lemma typeClause_unknown (c : Cache) (type : option string) (value : string) :
  (forall table, refinementTable type = Some table -> knownValue c table value = false) ->
  typeClause c type (Some value) = typeClause c type None.
Proof.
  unfold refinementTable, typeClause, hasTerminologySource. intros H.
  fold (rtKnown c "txSources" (Some value)). fold (rtKnown c "txSources" None).
  repeat match goal with
  | |- context [if isStr type ?l then _ else _] => destruct (isStr type l)
  end; try reflexivity;
  match goal with
  | |- context [rtKnown c ?t (Some value)] =>
      rewrite (rtKnown_unknown c t value) by (apply H; reflexivity); reflexivity
  end.
Qed.

(** C5: for every view type, a refinement value that is not in the
    known-value set of that view type (none is, for a cache that is not
    loaded) compiles to exactly the filter that is compiled with [rt]
    omitted: the value does not reach the query text. *)
Theorem unknown_refinement_is_dropped (c : Cache) (q : QueryParams) (value : string) :
  (forall table, refinementTable (type q) = Some table -> knownValue c table value = false) ->
  buildSqlFilter c (withRt (Some value) q) = buildSqlFilter c (withRt None q).
Proof.
  intros H. unfold buildSqlFilter. rewrite !filterConjunction_stages. simpl.
  now rewrite (typeClause_unknown c (type q) value H).
Qed.

(** The code-system view with the refinement value [bogus], on the cache
    the module starts with. *)
Lemma unknown_refinement_is_dropped_witness :
  buildSqlFilter initialCache
    (withRt (Some "bogus")
       {| ver := None; auth := None; realm := None; type := Some "cs"; rt := None;
          text := None; offset := None |})
  = "WHERE  ResourceType = 'CodeSystem'".
Proof.
  rewrite (unknown_refinement_is_dropped initialCache _ "bogus").
  - reflexivity.
  - intros table _. reflexivity.
Defined.

(** The filter of a cache that is not loaded never carries a refinement
    value. *)
Lemma unloaded_cache_drops_refinement (c : Cache) (q : QueryParams) (value : string) :
  loaded c = false ->
  buildSqlFilter c (withRt (Some value) q) = buildSqlFilter c (withRt None q).
Proof.
  intros H. unfold buildSqlFilter. rewrite !filterConjunction_stages. simpl.
  rewrite (typeClause_unknown c (type q) value); [reflexivity|].
  intros table _. unfold knownValue. now rewrite H.
Qed.

Lemma versionClauses_member (q : QueryParams) (v : string) :
  ver q = Some v -> v ∈ versionNames -> (v ++ " = 1") ∈ versionClauses q.
Proof.
  intros E H. unfold versionClauses. rewrite E. simpl.
  rewrite bool_decide_eq_true_2 by exact H. apply list_elem_of_singleton. reflexivity.
Qed.

Lemma versionClause_other (v : string) :
  v ∉ versionNames -> versionClause (Some v) = "".
Proof.
  intros H. unfold versionClause. destruct (truthy (Some v)); [|reflexivity].
  simpl. unfold versionNames in H.
  repeat match goal with
  | |- context [String.eqb v ?l] =>
      destruct (String.eqb_spec v l);
      [subst; exfalso; apply H; rewrite !elem_of_cons; tauto|]
  end.
  reflexivity.
Qed.

(** C9, as amended: every non-empty realm and every non-empty authority,
    known or not, has its clause in the filter; the version has one when it
    is one of the seven names of the enumeration, and any other version
    compiles as if no version were given. *)
Theorem realm_and_authority_pass_unchecked (c : Cache) (q : QueryParams) :
  (truthy (realm q) = true ->
   occursIn ("realm = '" ++ sqlEscapeString (str (realm q)) ++ "'") (buildSqlFilter c q))
  /\ (truthy (auth q) = true ->
      occursIn ("authority = '" ++ sqlEscapeString (str (auth q)) ++ "'") (buildSqlFilter c q))
  /\ (forall v, ver q = Some v -> v ∈ versionNames ->
      occursIn (v ++ " = 1") (buildSqlFilter c q))
  /\ (forall v, ver q = Some v -> v ∉ versionNames ->
      buildSqlFilter c q = buildSqlFilter c (withVer None q)).
Proof.
  repeat split.
  - intros H. apply clause_occurs. unfold filterClauses, realmClauses. rewrite H.
    apply elem_of_app. left. apply list_elem_of_singleton. reflexivity.
  - intros H. apply clause_occurs. unfold filterClauses, authClauses. rewrite H.
    rewrite !elem_of_app. right. left. apply list_elem_of_singleton. reflexivity.
  - intros v E H. apply clause_occurs. unfold filterClauses.
    rewrite !elem_of_app. right. right. left. now apply versionClauses_member.
  - intros v E H. unfold buildSqlFilter. rewrite !filterConjunction_stages. simpl.
    rewrite E. now rewrite (versionClause_other v H).
Qed.

(** The realm [zz] and the authority [nobody], which no cache knows, and
    the version [R4B]. *)
Lemma realm_and_authority_pass_unchecked_witness :
  let q := {| ver := Some "R4B"; auth := Some "nobody"; realm := Some "zz"; type := None;
              rt := None; text := None; offset := None |} in
  occursIn "realm = 'zz'" (buildSqlFilter initialCache q)
  /\ occursIn "authority = 'nobody'" (buildSqlFilter initialCache q)
  /\ occursIn "R4B = 1" (buildSqlFilter initialCache q)
  /\ buildSqlFilter initialCache (withVer (Some "R7") q)
     = buildSqlFilter initialCache (withVer None (withVer (Some "R7") q)).
Proof.
  intros q.
  destruct (realm_and_authority_pass_unchecked initialCache q) as (Hr & Ha & Hv & _).
  destruct (realm_and_authority_pass_unchecked initialCache (withVer (Some "R7") q))
    as (_ & _ & _ & Hd).
  split; [exact (Hr eq_refl)|]. split; [exact (Ha eq_refl)|].
  split; [apply (Hv "R4B" eq_refl); unfold versionNames; rewrite !elem_of_cons; tauto|].
  apply (Hd "R7" eq_refl). unfold versionNames.
  rewrite !elem_of_cons, elem_of_nil. intros H.
  repeat (destruct H as [H|H]; [discriminate H|]). exact H.
Defined.

(** C9, as the claim has it, fails for the version: [R7] is a non-empty
    value and the filter has no clause for it. *)
Lemma version_outside_enumeration_has_no_clause :
  truthy (ver (withVer (Some "R7") noParams)) = true
  /\ buildSqlFilter initialCache (withVer (Some "R7") noParams) = ""
  /\ ~ occursIn "R7" (buildSqlFilter initialCache (withVer (Some "R7") noParams)).
Proof.
  split; [reflexivity|]. split; [reflexivity|].
  change (buildSqlFilter initialCache (withVer (Some "R7") noParams)) with "".
  apply not_occursIn_empty.
Qed.

(** The output of the compiler for every input: nothing, or [WHERE], the
    blank that [substring(4)] leaves of the first separator, and the clauses
    joined by the separator. *)
Lemma filter_is_empty_or_where (c : Cache) (q : QueryParams) :
  (filterClauses c q = [] /\ buildSqlFilter c q = "")
  \/ (filterClauses c q <> [] /\
      buildSqlFilter c q = "WHERE " ++ " " ++ join " and " (filterClauses c q)).
Proof.
  rewrite buildSqlFilter_clauses.
  destruct (filterClauses c q) as [|x rest]; [left | right]; split; congruence.
Qed.

(** C10 at one input: with the realm [us] as the only facet the compiler
    returns [WHERE], two blanks and the clause; [WHERE], one blank and the
    clauses joined is another string. *)
Theorem filter_keeps_blank_of_separator :
  let q := withRealm (Some "us") noParams in
  filterClauses initialCache q = ["realm = 'us'"]
  /\ buildSqlFilter initialCache q = "WHERE  realm = 'us'"
  /\ buildSqlFilter initialCache q <> "WHERE " ++ join " and " (filterClauses initialCache q).
Proof. repeat split. discriminate. Qed.

(** ** The filter, token by token *)

Lemma sqlEscapeString_replace (s : string) : sqlEscapeString s = replaceQuotes s.
Proof. destruct s; reflexivity. Qed.

Lemma versionClause_tokens (q : QueryParams) :
  versionClause (ver q) = renderTokens (versionTokens q).
Proof.
  unfold versionTokens. destruct (String.eqb_spec (versionClause (ver q)) "") as [E|E].
  - now rewrite E.
  - simpl. now rewrite append_empty_r.
Qed.

Lemma typeClause_tokens (c : Cache) (q : QueryParams) :
  typeClause c (type q) (rt q) = renderTokens (typeTokens c q).
Proof.
  unfold typeClause, typeTokens, categoryTokens, quoted, hasTerminologySource.
  fold (rtKnown c "txSources" (rt q)).
  repeat match goal with
  | |- context [if isStr (type q) ?l then _ else _] => destruct (isStr (type q) l)
  | |- context [if rtKnown c ?t (rt q) then _ else _] => destruct (rtKnown c t (rt q))
  end; cbn; rewrite ?append_assoc, ?append_empty_r; cbn; rewrite ?append_assoc; reflexivity.
Qed.

Lemma textClause_tokens (q : QueryParams) :
  textClause (type q) (text q) = renderTokens (textTokens q).
Proof.
  unfold textClause, textTokens, ftsTokens, quoted.
  destruct (truthy (text q)); [|reflexivity].
  destruct (isStr (type q) "cs"); cbn; rewrite ?append_assoc, ?append_empty_r; cbn;
    rewrite ?append_assoc; cbn; rewrite ?append_assoc; reflexivity.
Qed.

Lemma filterConjunction_tokens (c : Cache) (q : QueryParams) :
  filterConjunction c q = renderTokens (conjunctionTokens c q).
Proof.
  rewrite filterConjunction_stages. unfold conjunctionTokens.
  rewrite !renderTokens_app, <- versionClause_tokens, <- typeClause_tokens,
    <- textClause_tokens.
  f_equal; [|f_equal].
  - unfold realmTokens, quoted. destruct (truthy (realm q)); [|reflexivity].
    cbn. now rewrite append_empty_r.
  - unfold authTokens, quoted. destruct (truthy (auth q)); [|reflexivity].
    cbn. now rewrite append_empty_r.
Qed.

Lemma ledByAnd_app (a b : list SqlToken) : ledByAnd a -> ledByAnd b -> ledByAnd (a ++ b)%list.
Proof.
  intros [->|(sql & rest & ->)] Hb; [exact Hb|].
  right. exists sql, (rest ++ b)%list. reflexivity.
Qed.

Lemma versionTokens_led (q : QueryParams) : ledByAnd (versionTokens q).
Proof.
  unfold versionTokens, versionClause.
  destruct (truthy (ver q)); simpl; [|now left].
  repeat match goal with
  | |- context [if isStr (ver q) ?l then _ else _] =>
      destruct (isStr (ver q) l); [right; simpl; eauto|]
  end.
  now left.
Qed.

Lemma typeTokens_led (c : Cache) (q : QueryParams) : ledByAnd (typeTokens c q).
Proof.
  unfold typeTokens, categoryTokens.
  repeat match goal with
  | |- context [if isStr (type q) ?l then _ else _] =>
      destruct (isStr (type q) l); [right; simpl; eauto|]
  end.
  destruct (rtKnown c "resourceTypes" (rt q)); [right; simpl; eauto | now left].
Qed.

Lemma textTokens_led (q : QueryParams) : ledByAnd (textTokens q).
Proof.
  unfold textTokens. destruct (truthy (text q)); [|now left].
  destruct (isStr (type q) "cs"); right; simpl; eauto.
Qed.

Lemma conjunctionTokens_led (c : Cache) (q : QueryParams) : ledByAnd (conjunctionTokens c q).
Proof.
  unfold conjunctionTokens. repeat apply ledByAnd_app.
  - unfold realmTokens. destruct (truthy (realm q)); [right; simpl; eauto | now left].
  - unfold authTokens. destruct (truthy (auth q)); [right; simpl; eauto | now left].
  - apply versionTokens_led.
  - apply typeTokens_led.
  - apply textTokens_led.
Qed.

Lemma buildSqlFilter_tokens (c : Cache) (q : QueryParams) :
  buildSqlFilter c q = renderTokens (filterTokens c q).
Proof.
  unfold buildSqlFilter, filterTokens. rewrite filterConjunction_tokens.
  destruct (conjunctionTokens_led c q) as [->|(sql & rest & ->)]; reflexivity.
Qed.

(** ** Reading the filter as SQL *)

Lemma readFrom_app (r : Reading) (a b : string) :
  readFrom r (a ++ b) = readFrom (readFrom r a) b.
Proof. revert r. induction a as [|x a IH]; intros r; simpl; [reflexivity | apply IH]. Qed.

Lemma snoc_append (s : string) (c : ascii) (rest : string) :
  snoc s c ++ rest = s ++ String c rest.
Proof. unfold snoc. now rewrite append_assoc. Qed.

Lemma read_code (sql : string) : forall sk lits,
  noQuote sql = true ->
  readFrom {| skeleton := sk; literals := lits; mode := Outside |} sql
  = {| skeleton := sk ++ sql; literals := lits; mode := Outside |}.
Proof.
  induction sql as [|x sql IH]; intros sk lits H; simpl.
  - now rewrite append_empty_r.
  - simpl in H. apply andb_prop in H as [Hx H].
    unfold readChar. simpl. apply negb_true_iff in Hx. rewrite Hx.
    rewrite IH by exact H. f_equal. apply snoc_append.
Qed.

Lemma read_escaped (value : string) : forall sk lits inside,
  readFrom {| skeleton := sk; literals := lits; mode := Inside inside |} (replaceQuotes value)
  = {| skeleton := sk; literals := lits; mode := Inside (inside ++ value) |}.
Proof.
  induction value as [|x value IH]; intros sk lits inside; simpl.
  - now rewrite append_empty_r.
  - destruct (Ascii.eqb_spec x "'") as [->|Hx].
    + simpl. unfold readChar at 2. simpl. unfold readChar at 1. simpl.
      rewrite IH. f_equal. f_equal. apply snoc_append.
    + simpl. unfold readChar at 1. simpl.
      apply Ascii.eqb_neq in Hx. rewrite Hx.
      rewrite IH. f_equal. f_equal. apply snoc_append.
Qed.

Lemma read_literal (value : string) (sk : string) (lits : list string) :
  readFrom {| skeleton := sk; literals := lits; mode := Outside |}
    (renderToken (Lit value))
  = {| skeleton := sk; literals := lits; mode := Closing value |}.
Proof.
  unfold renderToken. rewrite sqlEscapeString_replace.
  change ("'" ++ replaceQuotes value ++ "'") with (String "'" (replaceQuotes value ++ "'")).
  simpl. unfold readChar at 1. simpl.
  rewrite readFrom_app, read_escaped. reflexivity.
Qed.

Lemma read_tokens (ts : list SqlToken) : forall r sk lits,
  separated ts = true -> ready r ts -> finish r = Some (sk, lits) ->
  finish (readFrom r (renderTokens ts))
  = Some (sk ++ skeletonOf ts, (lits ++ literalsOf ts)%list).
Proof.
  induction ts as [|t ts IH]; intros [rsk rlits rmode] sk lits Hs Hr Hf.
  - simpl. now rewrite append_empty_r, app_nil_r.
  - change (renderTokens (t :: ts)) with (renderToken t ++ renderTokens ts).
    rewrite readFrom_app. destruct t as [sql|value].
    + simpl in Hs. apply andb_prop in Hs as [Hq Hs].
      destruct rmode as [|inside|closing]; simpl in Hr; [| contradiction |].
      * simpl in Hf. injection Hf as <- <-.
        simpl renderToken. rewrite read_code by exact Hq.
        rewrite (IH _ (rsk ++ sql) rlits Hs); [|exact I|reflexivity].
        simpl. now rewrite append_assoc.
      * destruct sql as [|x sql]; [contradiction|].
        simpl in Hf. injection Hf as <- <-.
        simpl in Hq. apply andb_prop in Hq as [Hx Hq]. apply negb_true_iff in Hx.
        simpl renderToken. simpl readFrom. unfold readChar at 1. simpl. rewrite Hx.
        rewrite read_code by exact Hq.
        rewrite (IH _ (snoc (rsk ++ "?") x ++ sql) (rlits ++ [closing])%list Hs);
          [|exact I|reflexivity].
        simpl. f_equal. f_equal. rewrite snoc_append. now rewrite !append_assoc.
    + destruct rmode as [|inside|closing]; simpl in Hr; [| contradiction | contradiction].
      simpl in Hf. injection Hf as <- <-.
      rewrite read_literal.
      assert (Hs' : separated ts = true).
      { simpl in Hs. destruct ts as [|[[|x sql]|v] ts']; try discriminate; [reflexivity | exact Hs]. }
      rewrite (IH _ (rsk ++ "?") (rlits ++ [value])%list Hs').
      * simpl. f_equal. f_equal; [now rewrite append_assoc | now rewrite <- app_assoc].
      * simpl. simpl in Hs. destruct ts as [|[[|x sql]|v] ts']; try discriminate; exact I.
      * reflexivity.
Qed.

Lemma sqlRead_tokens (ts : list SqlToken) :
  separated ts = true -> sqlRead (renderTokens ts) = Some (skeletonOf ts, literalsOf ts).
Proof.
  intros H. unfold sqlRead.
  now rewrite (read_tokens ts {| skeleton := ""; literals := []; mode := Outside |}
                 "" [] H I eq_refl).
Qed.

Lemma separated_app (a b : list SqlToken) :
  separated a = true -> separated b = true -> ledByAnd b -> separated (a ++ b)%list = true.
Proof.
  intros Ha Hb Hled. induction a as [|t a IH]; [exact Hb|].
  destruct t as [sql|value].
  - simpl in *. apply andb_prop in Ha as [Hq Ha]. rewrite Hq. simpl. now apply IH.
  - destruct a as [|[[|x sql]|v] a']; try discriminate Ha.
    + destruct Hled as [->|(sql & rest & ->)]; [reflexivity|]. exact Hb.
    + simpl in Ha. specialize (IH Ha). exact IH.
Qed.

Lemma noQuote_app (a b : string) : noQuote (a ++ b) = noQuote a && noQuote b.
Proof.
  induction a as [|x a IH]; simpl; [reflexivity|]. rewrite IH. now rewrite andb_assoc.
Qed.

Lemma separated_where (ts : list SqlToken) :
  separated ts = true -> ledByAnd ts -> separated (whereTokens ts) = true.
Proof.
  intros Hs [->|(sql & rest & ->)]; [reflexivity|].
  simpl in *. exact Hs.
Qed.

Lemma versionTokens_separated (q : QueryParams) : separated (versionTokens q) = true.
Proof.
  unfold versionTokens, versionClause.
  destruct (truthy (ver q)); simpl; [|reflexivity].
  repeat match goal with
  | |- context [if isStr (ver q) ?l then _ else _] =>
      destruct (isStr (ver q) l); [reflexivity|]
  end.
  reflexivity.
Qed.

Lemma typeTokens_separated (c : Cache) (q : QueryParams) : separated (typeTokens c q) = true.
Proof.
  unfold typeTokens, categoryTokens, quoted.
  repeat match goal with
  | |- context [if isStr (type q) ?l then _ else _] => destruct (isStr (type q) l)
  | |- context [if rtKnown c ?t (rt q) then _ else _] => destruct (rtKnown c t (rt q))
  end; reflexivity.
Qed.

Lemma textTokens_separated (q : QueryParams) : separated (textTokens q) = true.
Proof.
  unfold textTokens, ftsTokens, quoted. destruct (truthy (text q)); [|reflexivity].
  destruct (isStr (type q) "cs"); reflexivity.
Qed.

Lemma filterTokens_separated (c : Cache) (q : QueryParams) :
  separated (filterTokens c q) = true.
Proof.
  unfold filterTokens. apply separated_where; [|apply conjunctionTokens_led].
  unfold conjunctionTokens.
  apply separated_app;
    [| apply separated_app;
       [| apply separated_app;
          [| apply separated_app;
             [ apply typeTokens_separated | apply textTokens_separated
             | apply textTokens_led ]
           | apply ledByAnd_app; [apply typeTokens_led | apply textTokens_led] ]
        | repeat apply ledByAnd_app;
          [apply versionTokens_led | apply typeTokens_led | apply textTokens_led] ]
     | repeat apply ledByAnd_app ].
  - unfold realmTokens, quoted. now destruct (truthy (realm q)).
  - unfold authTokens, quoted. now destruct (truthy (auth q)).
  - apply versionTokens_separated.
  - unfold authTokens. destruct (truthy (auth q)); [right; simpl; eauto | now left].
  - apply versionTokens_led.
  - apply typeTokens_led.
  - apply textTokens_led.
Qed.

Lemma literalsOf_app (a b : list SqlToken) :
  literalsOf (a ++ b)%list = (literalsOf a ++ literalsOf b)%list.
Proof.
  induction a as [|[sql|value] a IH]; simpl; [reflexivity | exact IH | now rewrite IH].
Qed.

Lemma literalsOf_where (ts : list SqlToken) : literalsOf (whereTokens ts) = literalsOf ts.
Proof. destruct ts as [|[sql|value] ts]; reflexivity. Qed.

Ltac origin :=
  repeat first
    [ apply Forall_nil_2
    | apply Forall_cons_2;
      [ first [ right; unfold fixedLiterals; rewrite !elem_of_cons; tauto
              | left; unfold facetValues; rewrite !elem_of_cons; tauto ] | ] ].

Lemma versionTokens_literals (q : QueryParams) : literalsOf (versionTokens q) = [].
Proof. unfold versionTokens. now destruct (String.eqb (versionClause (ver q)) ""). Qed.

Lemma typeTokens_literals (c : Cache) (q : QueryParams) :
  Forall (facetOrFixed q) (literalsOf (typeTokens c q)).
Proof.
  unfold typeTokens, categoryTokens, quoted.
  repeat match goal with
  | |- context [if isStr (type q) ?l then _ else _] => destruct (isStr (type q) l)
  | |- context [if rtKnown c ?t (rt q) then _ else _] => destruct (rtKnown c t (rt q))
  end; simpl; origin.
Qed.

Lemma textTokens_literals (q : QueryParams) :
  Forall (facetOrFixed q) (literalsOf (textTokens q)).
Proof.
  unfold textTokens, ftsTokens, quoted. destruct (truthy (text q)); [|constructor].
  destruct (isStr (type q) "cs"); simpl; origin.
Qed.

Lemma filterTokens_literals (c : Cache) (q : QueryParams) :
  Forall (facetOrFixed q) (literalsOf (filterTokens c q)).
Proof.
  unfold filterTokens, conjunctionTokens.
  rewrite literalsOf_where, !literalsOf_app, versionTokens_literals.
  repeat apply Forall_app_2.
  - unfold realmTokens, quoted. destruct (truthy (realm q)); simpl; origin.
  - unfold authTokens, quoted. destruct (truthy (auth q)); simpl; origin.
  - constructor.
  - apply typeTokens_literals.
  - apply textTokens_literals.
Qed.

(** C6: the filter is the text of its tokens, in which the code is the
    source's own and every facet value is written as a literal, between
    quotes and through [sqlEscapeString]; read as SQL, the text gives back
    the code with one literal for each, and each literal's value is the
    facet value as it came in, or one of the words the source writes
    itself: no quote of a value ends its literal. *)
Theorem facet_values_are_escaped (c : Cache) (q : QueryParams) :
  buildSqlFilter c q = renderTokens (filterTokens c q)
  /\ sqlRead (buildSqlFilter c q)
     = Some (skeletonOf (filterTokens c q), literalsOf (filterTokens c q))
  /\ Forall (facetOrFixed q) (literalsOf (filterTokens c q)).
Proof.
  split; [apply buildSqlFilter_tokens|]. split; [|apply filterTokens_literals].
  rewrite buildSqlFilter_tokens. apply sqlRead_tokens, filterTokens_separated.
Qed.

(** Doubling is what the escaping does: read back, the text of a literal
    is the value. *)
Lemma escaped_literal_reads_back (value : string) :
  sqlRead ("'" ++ sqlEscapeString value ++ "'") = Some ("?", [value]).
Proof.
  pose proof (sqlRead_tokens [Lit value] eq_refl) as H.
  cbn [renderTokens] in H. rewrite append_empty_r in H. exact H.
Qed.

Example filter_with_quote :
  let q := {| ver := None; auth := None; realm := Some "u's"; type := Some "cs";
              rt := None; text := Some "x' or 1=1 --"; offset := None |} in
  literalsOf (filterTokens initialCache q)
  = ["u's"; "CodeSystem"; "x' or 1=1 --"; "x' or 1=1 --"; "x' or 1=1 --"; "x' or 1=1 --"]
  /\ sqlRead (buildSqlFilter initialCache q)
     = Some (skeletonOf (filterTokens initialCache q), literalsOf (filterTokens initialCache q)).
Proof. split; reflexivity. Qed.

(** ** Tasks *)

Lemma run_consume {E A} (t : Task E A) (outcomes : list Outcome) :
  run t outcomes = fst (consume t outcomes).
Proof.
  revert t. induction outcomes as [|o rest IH]; intros t; [reflexivity|].
  destruct t as [w a|w e|w op k|w]; simpl; [| | apply IH |];
    rewrite IH; now destruct rest.
Qed.

Lemma consume_bind {E A B} (f : A -> Async E B) (outcomes : list Outcome) :
  forall t : Task E A,
  consume (bindTask t f) outcomes
  = match consume t outcomes with
    | (Done w a, rest) => consume (f a w) rest
    | (Throw w e, rest) => (Throw w e, rest)
    | (Await w op k, rest) => (Await w op (fun o w' => bindTask (k o w') f), rest)
    | (Never w, rest) => (Never w, rest)
    end.
Proof.
  induction outcomes as [|o rest IH]; intros [w a|w e|w op k|w]; simpl; try reflexivity.
  apply IH.
Qed.

Lemma consume_catch {E E' A} (h : E -> Async E' A) (outcomes : list Outcome) :
  forall t : Task E A,
  consume (catchTask t h) outcomes
  = match consume t outcomes with
    | (Done w a, rest) => (Done w a, rest)
    | (Throw w e, rest) => consume (h e w) rest
    | (Await w op k, rest) => (Await w op (fun o w' => catchTask (k o w') h), rest)
    | (Never w, rest) => (Never w, rest)
    end.
Proof.
  induction outcomes as [|o rest IH]; intros [w a|w e|w op k|w]; simpl; try reflexivity.
  apply IH.
Qed.

Lemma consume_finally {E A} (f : World -> World) (outcomes : list Outcome) :
  forall t : Task E A,
  consume (finallyTask t f) outcomes
  = match consume t outcomes with
    | (Done w a, rest) => (Done (f w) a, rest)
    | (Throw w e, rest) => (Throw (f w) e, rest)
    | (Await w op k, rest) => (Await w op (fun o w' => finallyTask (k o w') f), rest)
    | (Never w, rest) => (Never w, rest)
    end.
Proof.
  induction outcomes as [|o rest IH]; intros [w a|w e|w op k|w]; simpl; try reflexivity.
  apply IH.
Qed.

Lemma consume_done {E A} (w : World) (a : A) (outcomes : list Outcome) :
  consume (Done (E := E) w a) outcomes = (Done w a, outcomes).
Proof. now destruct outcomes. Qed.

Lemma consume_throw {E A} (w : World) (e : E) (outcomes : list Outcome) :
  consume (Throw (A := A) w e) outcomes = (Throw w e, outcomes).
Proof. now destruct outcomes. Qed.

Lemma consume_never {E A} (w : World) (outcomes : list Outcome) :
  consume (Never (E := E) (A := A) w) outcomes = (Never w, outcomes).
Proof. now destruct outcomes. Qed.

Section Safety.
Context {E : Type} (P : World -> Prop).

Lemma safe_world {A} (Q : A -> Prop) (t : Task E A) : safe P Q t -> P (worldOf t).
Proof. destruct t; simpl; tauto. Qed.

Lemma safe_weaken {A} (Q Q' : A -> Prop) (t : Task E A) :
  (forall a, Q a -> Q' a) -> safe P Q t -> safe P Q' t.
Proof.
  intros HQ. induction t as [w a|w e|w op k IH|w]; simpl; [intuition | intuition | | intuition].
  intros [Hw Hk]. split; [exact Hw|]. intros o w' Hw'. apply IH, Hk, Hw'.
Qed.

Lemma safe_bindTask {A B} (Q : A -> Prop) (R : B -> Prop) (f : A -> Async E B)
    (t : Task E A) :
  safe P Q t -> (forall a, Q a -> safely P R (f a)) -> safe P R (bindTask t f).
Proof.
  intros Ht Hf. induction t as [w a|w e|w op k IH|w]; simpl in *.
  - destruct Ht as [Hw Ha]. now apply Hf.
  - exact Ht.
  - destruct Ht as [Hw Hk]. split; [exact Hw|]. intros o w' Hw'. apply IH, Hk, Hw'.
  - exact Ht.
Qed.

Lemma safely_bind {A B} (Q : A -> Prop) (R : B -> Prop) (m : Async E A)
    (f : A -> Async E B) :
  safely P Q m -> (forall a, Q a -> safely P R (f a)) -> safely P R (bind m f).
Proof. intros Hm Hf w Hw. unfold bind. eapply safe_bindTask; eauto. Qed.

Lemma safely_ret {A} (Q : A -> Prop) (a : A) : Q a -> safely P Q (ret (E := E) a).
Proof. intros Ha w Hw. simpl. auto. Qed.

Lemma safely_throw {A} (Q : A -> Prop) (e : E) : safely P Q (throw e).
Proof. intros w Hw. exact Hw. Qed.

Lemma safely_never {A} (Q : A -> Prop) : safely P Q (never (E := E)).
Proof. intros w Hw. exact Hw. Qed.

Lemma safely_await (op : Op) : safely P anything (await (E := E) op).
Proof. intros w Hw. simpl. split; [exact Hw|]. intros o w' Hw'. now split. Qed.

Lemma safely_getWorld : safely P P (getWorld (E := E)).
Proof. intros w Hw. simpl. auto. Qed.

Lemma safely_modify (f : World -> World) :
  (forall w, P w -> P (f w)) -> safely P anything (modify (E := E) f).
Proof. intros Hf w Hw. simpl. split; [auto | exact I]. Qed.

Lemma safely_weaken {A} (Q Q' : A -> Prop) (m : Async E A) :
  (forall a, Q a -> Q' a) -> safely P Q m -> safely P Q' m.
Proof. intros HQ Hm w Hw. eapply safe_weaken; eauto. Qed.

Lemma safely_finally {A} (Q : A -> Prop) (m : Async E A) (f : World -> World) :
  (forall w, P w -> P (f w)) -> safely P Q m -> safely P Q (tryFinally m f).
Proof.
  intros Hf Hm w Hw. unfold tryFinally. specialize (Hm w Hw).
  induction (m w) as [w1 a|w1 e|w1 op k IH|w1]; simpl in *.
  - destruct Hm. auto.
  - auto.
  - destruct Hm as [H1 Hk]. split; [exact H1|]. intros o w' Hw'. apply IH, Hk, Hw'.
  - exact Hm.
Qed.

Lemma safe_consume {A} (Q : A -> Prop) (outcomes : list Outcome) :
  forall t : Task E A, safe P Q t -> safe P Q (fst (consume t outcomes)).
Proof.
  induction outcomes as [|o rest IH]; intros t Ht; [exact Ht|].
  destruct t as [w a|w e|w op k|w]; simpl; try exact Ht.
  apply IH. destruct Ht as [Hw Hk]. now apply Hk.
Qed.
End Safety.

Lemma safely_catch {E E' A} (P : World -> Prop) (Q : A -> Prop) (m : Async E A)
    (h : E -> Async E' A) :
  safely P Q m -> (forall e, safely P Q (h e)) -> safely P Q (tryCatch m h).
Proof.
  intros Hm Hh w Hw. unfold tryCatch. specialize (Hm w Hw).
  induction (m w) as [w1 a|w1 e|w1 op k IH|w1]; simpl in *.
  - exact Hm.
  - now apply Hh.
  - destruct Hm as [H1 Hk]. split; [exact H1|]. intros o w' Hw'. apply IH, Hk, Hw'.
  - exact Hm.
Qed.

(** ** What the lifecycle functions keep *)

Ltac safe_bind := eapply safely_bind; [| intros ? ?].

Ltac safe_basic :=
  first
    [ apply safely_throw
    | apply safely_never
    | apply safely_await
    | apply safely_getWorld
    | apply safely_ret; exact I ].

Section Lifecycle.
Variable P : World -> Prop.
Hypothesis P_log : forall message w, P w -> P (addLog message w).
Hypothesis P_files : forall f w, P w -> P (setFiles f w).
Hypothesis P_beside : forall f w,
  P w -> f !! XIG_DB_PATH = files w !! XIG_DB_PATH -> P (setFiles f w).
Hypothesis P_handles : forall n w, P w -> P (setHandles n w).
Hypothesis P_xigDb : forall d w, P w -> P (setXigDb d w).
Hypothesis P_flag : forall b w, P w -> P (setCacheLoadInProgress b w).
Hypothesis P_cache : forall c w, fullyBuilt c -> P w -> P (setConfigCache c w).

Lemma safely_log {E} (message : string) : safely P anything (logMessage (E := E) message).
Proof. apply safely_modify. intros w. apply P_log. Qed.

Lemma safely_executeQuery (sql : string) : safely P anything (executeQuery sql).
Proof.
  unfold executeQuery. safe_bind; [safe_basic|].
  destruct (xigDb a); [|safe_basic].
  safe_bind; [safe_basic|]. destruct (errOf a0); safe_basic.
Qed.

Lemma safely_forEachRow {S} (f : S -> Row -> string + S) (rows : option (list Row)) (s : S) :
  safely P anything (forEachRow f rows s).
Proof.
  unfold forEachRow. destruct rows as [l|]; [|safe_basic].
  destruct (forEach f l s) as [[message s']|s']; safe_basic.
Qed.

Lemma safely_lengthOf (rows : option (list Row)) : safely P anything (lengthOf rows).
Proof. unfold lengthOf. destruct rows; safe_basic. Qed.

Lemma safely_loadResourceTables (n : nat) (newCache : Cache) :
  safely P (withResourceTables newCache) (loadResourceTables n newCache).
Proof.
  unfold loadResourceTables. destruct (0 <? n)%nat.
  - safe_bind; [apply safely_executeQuery|].
    safe_bind; [apply safely_forEachRow|].
    safe_bind; [apply safely_executeQuery|].
    safe_bind; [apply safely_forEachRow|].
    safe_bind; [apply safely_executeQuery|].
    safe_bind; [apply safely_forEachRow|].
    apply safely_ret. unfold withResourceTables. eauto.
  - apply safely_ret. unfold withResourceTables. eauto.
Qed.

Lemma fullyBuilt_tables (stamp : option Z) (t1 t2 t3 t4 t5 t6 t7 t8 t9 t10 t11 t12 t13 : Table) :
  fullyBuilt
    (setLoaded true
       (setTable "types" t13 (setTable "versions" t12 (setTable "txSources" t11
       (setTable "extensionTypes" t10 (setTable "extensionContexts" t9
       (setTable "resourceTypes" t8 (setTable "profileTypes" t7
       (setTable "profileResources" t6
       (setTable "packagesById" t5 (setTable "packages" t4
       (setTable "authorities" t3 (setTable "realms" t2 (setTable "metadata" t1
          {| loaded := false; lastUpdated := stamp; maps := ∅ |})))))))))))))).
Proof.
  split; [reflexivity|]. unfold tableNames.
  repeat (apply Forall_cons_2; [vm_compute; eauto|]). apply Forall_nil_2.
Qed.

Lemma safely_buildNewCache : safely P fullyBuilt buildNewCache.
Proof.
  unfold buildNewCache.
  safe_bind; [safe_basic|].
  safe_bind; [apply safely_log|].
  safe_bind; [apply safely_executeQuery|].
  safe_bind; [apply safely_forEachRow|].
  safe_bind; [apply safely_lengthOf|].
  safe_bind; [apply safely_log|].
  safe_bind; [apply safely_log|].
  safe_bind; [apply safely_executeQuery|].
  safe_bind; [apply safely_forEachRow|].
  safe_bind; [apply safely_lengthOf|].
  safe_bind; [apply safely_log|].
  safe_bind; [apply safely_log|].
  safe_bind; [apply safely_executeQuery|].
  safe_bind; [apply safely_forEachRow|].
  safe_bind; [apply safely_lengthOf|].
  safe_bind; [apply safely_log|].
  safe_bind; [apply safely_log|].
  safe_bind; [apply safely_executeQuery|].
  safe_bind; [apply safely_forEachRow|].
  safe_bind; [apply safely_lengthOf|].
  safe_bind; [apply safely_log|].
  safe_bind; [apply safely_executeQuery|].
  safe_bind; [apply safely_lengthOf|].
  safe_bind; [apply safely_loadResourceTables|].
  safe_bind; [apply safely_executeQuery|].
  safe_bind; [apply safely_forEachRow|].
  safe_bind; [apply safely_executeQuery|].
  safe_bind; [apply safely_forEachRow|].
  safe_bind; [apply safely_executeQuery|].
  safe_bind; [apply safely_forEachRow|].
  apply safely_ret.
  match goal with H : withResourceTables _ _ |- _ => destruct H as (t1 & t2 & t3 & ->) end.
  apply fullyBuilt_tables.
Qed.

Lemma safely_loadConfigCache : safely P anything loadConfigCache.
Proof.
  unfold loadConfigCache. safe_bind; [safe_basic|].
  destruct (cacheLoadInProgress a); [apply safely_log|].
  destruct (negb _); [apply safely_log|].
  safe_bind; [apply safely_modify; intros w; apply P_flag|].
  safe_bind; [apply safely_log|].
  apply safely_finally; [intros w; apply P_flag|].
  apply safely_catch; [|intros e; apply safely_log].
  safe_bind; [apply safely_buildNewCache|].
  safe_bind; [apply safely_modify; intros w; now apply P_cache|].
  apply safely_log.
Qed.

Lemma safely_newDatabase {E} (path : string) : safely P anything (newDatabase (E := E) path).
Proof. intros w Hw. simpl. split; [now apply P_handles | exact I]. Qed.

Lemma safely_initializeDatabase : safely P anything initializeDatabase.
Proof.
  unfold initializeDatabase. safe_bind; [safe_basic|].
  destruct (negb _); [apply safely_log|].
  safe_bind; [apply safely_newDatabase|].
  safe_bind; [apply safely_modify; intros w; apply P_xigDb|].
  safe_bind; [safe_basic|].
  destruct (errOf _).
  - safe_bind; [apply safely_log | safe_basic].
  - safe_bind; [apply safely_log|].
    apply safely_catch; [apply safely_loadConfigCache | intros e; apply safely_log].
Qed.

Lemma safely_attemptDownload (destination : string) (maxRedirects attemptsLeft : nat) :
  destination <> XIG_DB_PATH ->
  forall currentUrl,
  safely P anything (attemptDownload destination maxRedirects attemptsLeft currentUrl).
Proof.
  intros Hd.
  assert (Hwritten : forall content w, P w -> P (written destination content w)).
  { intros content w Hw. apply P_beside; [exact Hw|]. now apply lookup_insert_ne. }
  induction attemptsLeft as [|n IH]; intros currentUrl; simpl; [safe_basic|].
  safe_bind; [safe_basic|].
  destruct a as [message| |rows|row|statusCode location body|]; try safe_basic.
  destruct (_ && truthy location).
  - safe_bind; [apply safely_log | apply IH].
  - destruct (negb _); [safe_basic|].
    destruct body as [data|message|message partial|partial|partial].
    + safe_bind; [apply safely_modify; intros w; apply Hwritten | apply safely_log].
    + safe_bind; [apply safely_modify|safe_basic].
      intros w Hw. unfold unlinkQuietly. destruct (fsFault w _); [exact Hw|].
      apply P_beside; [exact Hw|]. now apply lookup_delete_ne.
    + safe_bind; [apply safely_modify; intros w; apply Hwritten | safe_basic].
    + safe_bind; [apply safely_modify; intros w; apply Hwritten | safe_basic].
    + safe_bind; [apply safely_modify; intros w; apply Hwritten | safe_basic].
Qed.

Lemma safely_downloadFile (url destination : string) :
  destination <> XIG_DB_PATH -> safely P anything (downloadFile url destination).
Proof.
  intros Hd. unfold downloadFile.
  safe_bind; [apply safely_log | now apply safely_attemptDownload].
Qed.

Lemma safely_validateDatabaseFile (filePath : string) :
  safely P anything (validateDatabaseFile filePath).
Proof.
  unfold validateDatabaseFile. safe_bind; [safe_basic|].
  destruct (negb _); [safe_basic|].
  safe_bind; [apply safely_newDatabase|].
  safe_bind; [safe_basic|].
  destruct (errOf _); [safe_basic|].
  safe_bind; [safe_basic|].
  destruct (errOf _); safe_basic.
Qed.

Lemma safely_closeCurrent : safely P anything closeCurrent.
Proof.
  unfold closeCurrent. safe_bind; [safe_basic|].
  destruct (xigDb a); [|safe_basic].
  safe_bind; [safe_basic|].
  safe_bind; [destruct (errOf _); [apply safely_log | safe_basic]|].
  apply safely_modify. intros w. apply P_xigDb.
Qed.

Lemma safely_unlinkSync (path : string) : safely P anything (unlinkSync path).
Proof.
  intros w Hw. unfold unlinkSync.
  destruct (fsFault w _); [exact Hw|].
  destruct (existsSync path w); simpl; [split; [now apply P_files | exact I] | exact Hw].
Qed.

Lemma safely_renameSync (src dst : string) : safely P anything (renameSync src dst).
Proof.
  intros w Hw. unfold renameSync.
  destruct (fsFault w _); [exact Hw|].
  destruct (files w !! src); simpl; [split; [now apply P_files | exact I] | exact Hw].
Qed.

Lemma safely_replaceFile (path : string) : safely P anything (replaceFile path).
Proof.
  unfold replaceFile. safe_bind; [safe_basic|].
  safe_bind; [|apply safely_renameSync].
  destruct (existsSync _ a); [apply safely_unlinkSync | safe_basic].
Qed.

Lemma safely_updateXigDatabase : safely P anything updateXigDatabase.
Proof.
  unfold updateXigDatabase. apply safely_catch.
  - safe_bind; [apply safely_log|].
    safe_bind; [apply safely_downloadFile; discriminate|].
    safe_bind; [apply safely_validateDatabaseFile|].
    safe_bind; [apply safely_closeCurrent|].
    safe_bind; [apply safely_replaceFile|].
    safe_bind; [apply safely_initializeDatabase|].
    apply safely_log.
  - intros e. safe_bind; [apply safely_log|].
    safe_bind; [safe_basic|].
    safe_bind; [destruct (existsSync _ a0); [apply safely_unlinkSync | safe_basic]|].
    safe_bind; [safe_basic|].
    destruct (negb _); [apply safely_initializeDatabase | safe_basic].
Qed.

Lemma safely_lifecycle (f : Async string unit) : lifecycle f -> safely P anything f.
Proof.
  intros [| |];
    [apply safely_loadConfigCache | apply safely_initializeDatabase
    | apply safely_updateXigDatabase].
Qed.

(** *** Any number of calls, in any order *)

Lemma step_safe (s : System) (e : Event) :
  lifecycleEvent e -> allSafe P s -> allSafe P (step s e).
Proof.
  intros He [Hw Hc]. destruct e as [f|i o]; simpl.
  - pose proof (safely_lifecycle f He (world s) Hw) as Ht.
    split; simpl; [eapply safe_world; exact Ht|].
    apply Forall_app_2; [exact Hc | now constructor].
  - destruct (calls s !! i) as [[w a|w e|w op k|w]|] eqn:Ei; try (split; assumption).
    pose proof (Forall_lookup_1 _ _ _ _ Hc Ei) as [_ Hk].
    specialize (Hk o (world s) Hw).
    split; simpl; [eapply safe_world; exact Hk|].
    apply Forall_insert; assumption.
Qed.

Lemma steps_safe (events : list Event) :
  forall s, Forall lifecycleEvent events -> allSafe P s -> allSafe P (steps s events).
Proof.
  induction events as [|e events IH]; intros s He Hs; [exact Hs|].
  apply Forall_cons_1 in He as [He Hes]. simpl. apply IH; [exact Hes|].
  now apply step_safe.
Qed.
End Lifecycle.

(** ** The published cache *)

Lemma loadConfigCache_building (w : World) :
  cacheLoadInProgress w = false -> is_Some (xigDb w) ->
  loadConfigCache w
  = finallyTask
      (catchTask
         (bindTask (buildNewCache (buildStart w))
            (fun newCache =>
               modify (setConfigCache newCache) ;>
               logMessage ("Config cache updated successfully. Total cached collections: "
                           ++ natStr (size (maps newCache)))))
         (fun error => logMessage ("Config cache load failed: " ++ error)))
      (setCacheLoadInProgress false).
Proof.
  intros Hflag Hdb. unfold loadConfigCache, bind at 1, getWorld. simpl.
  rewrite Hflag. rewrite bool_decide_eq_true_2 by exact Hdb. reflexivity.
Qed.

Lemma buildNewCache_keeps_cache (w : World) (outcomes : list Outcome) :
  configCache (worldOf (fst (consume (buildNewCache w) outcomes))) = configCache w.
Proof.
  apply (safe_world (fun x => configCache x = configCache w) fullyBuilt).
  apply safe_consume. apply safely_buildNewCache; [|reflexivity].
  intros message x Hx. exact Hx.
Qed.

Lemma buildNewCache_result (w : World) (outcomes rest : list Outcome) (after : World)
    (newCache : Cache) :
  consume (buildNewCache w) outcomes = (Done after newCache, rest) -> fullyBuilt newCache.
Proof.
  intros H.
  pose proof (safe_consume (fun _ => True) fullyBuilt outcomes (buildNewCache w)) as Hs.
  rewrite H in Hs. simpl in Hs. apply Hs.
  apply safely_buildNewCache; [|exact I]. intros; exact I.
Qed.

(** C8: whatever calls of the lifecycle functions are made and however
    their operations end and interleave, the cache behind [configCache] is
    the one the module starts with or one with [loaded] set and every
    lookup table in place; and when the building of a new cache throws,
    [loadConfigCache] ends without throwing and [configCache] is the cache
    it was before the call. *)
Theorem published_cache_is_whole (w : World) (events : list Event)
    (outcomes : list Outcome) :
  published (configCache w) -> Forall lifecycleEvent events ->
  published (configCache (world (steps (startOf w) events)))
  /\ (forall failed e rest,
        cacheLoadInProgress w = false -> is_Some (xigDb w) ->
        consume (buildNewCache (buildStart w)) outcomes = (Throw failed e, rest) ->
        exists after,
          consume (loadConfigCache w) outcomes = (Done after tt, rest)
          /\ configCache after = configCache w
          /\ cacheLoadInProgress after = false).
Proof.
  intros Hw He. split.
  - apply (steps_safe (fun x => published (configCache x))); try (intros; assumption).
    + intros c x Hc _. right. exact Hc.
    + split; [exact Hw | constructor].
  - intros failed e rest Hflag Hdb Hbuild.
    rewrite (loadConfigCache_building w Hflag Hdb).
    rewrite consume_finally, consume_catch, consume_bind, Hbuild.
    unfold logMessage, modify. rewrite consume_done.
    eexists. split; [reflexivity|]. split; [|reflexivity].
    pose proof (buildNewCache_keeps_cache (buildStart w) outcomes) as Hk.
    rewrite Hbuild in Hk. exact Hk.
Qed.

(** Three events from a connected module at its start, and a rebuild
    whose second query fails. *)
Lemma published_cache_is_whole_witness :
  published (configCache (world (steps (startOf connectedWorld)
     [Trigger loadConfigCache; Trigger updateXigDatabase; Deliver 0 (ORows [])])))
  /\ exists after,
       consume (loadConfigCache connectedWorld) [ORows []; OErr "no such table: Realms"]
       = (Done after tt, [])
       /\ configCache after = configCache connectedWorld
       /\ cacheLoadInProgress after = false.
Proof.
  pose proof (published_cache_is_whole connectedWorld
    [Trigger loadConfigCache; Trigger updateXigDatabase; Deliver 0 (ORows [])]
    [ORows []; OErr "no such table: Realms"]) as H.
  destruct H as [H1 H2].
  - left. reflexivity.
  - repeat constructor.
  - split; [exact H1|].
    eapply H2; [reflexivity | eexists; reflexivity | reflexivity].
Defined.

(** ** A refresh whose download or validation fails *)

Lemma untouched_refl (w : World) : untouched w w.
Proof. repeat split. Qed.

Lemma untouched_download (w x : World) (outcomes : list Outcome) :
  untouched w x ->
  untouched w (worldOf (fst (consume (downloadFile XIG_DB_URL tempPath x) outcomes))).
Proof.
  intros Hx. apply (safe_world (untouched w) anything). apply safe_consume.
  apply safely_downloadFile; [| |discriminate|exact Hx].
  - intros message y Hy. exact Hy.
  - intros f y (H1 & H2 & H3 & H4 & H5) Hf. repeat split; try assumption.
    simpl. congruence.
Qed.

Lemma untouched_validate (w x : World) (outcomes : list Outcome) :
  untouched w x ->
  untouched w (worldOf (fst (consume (validateDatabaseFile tempPath x) outcomes))).
Proof.
  intros Hx. apply (safe_world (untouched w) anything). apply safe_consume.
  apply safely_validateDatabaseFile; [|exact Hx].
  intros n y Hy. exact Hy.
Qed.

Lemma consume_ret {E A} (a : A) (w : World) (outcomes : list Outcome) :
  consume (ret (E := E) a w) outcomes = (Done w a, outcomes).
Proof. apply consume_done. Qed.

Lemma consume_log {E} (message : string) (w : World) (outcomes : list Outcome) :
  consume (logMessage (E := E) message w) outcomes = (Done (addLog message w) tt, outcomes).
Proof. apply consume_done. Qed.

Lemma update_starts_download (w : World) :
  pendingOp (updateXigDatabase w) = Some (HttpGet XIG_DB_URL).
Proof. reflexivity. Qed.

(** The [try] block of [updateXigDatabase] from the download on. *)
Lemma updateXigDatabase_unfold (w : World) :
  updateXigDatabase w
  = catchTask
      (bindTask (downloadFile XIG_DB_URL tempPath (updateStart w))
         (fun _ =>
            validateDatabaseFile tempPath ;>
            closeCurrent ;>
            replaceFile tempPath ;>
            initializeDatabase ;>
            logMessage "XIG database update completed successfully"))
      (fun error =>
         logMessage ("XIG database update failed: " ++ error) ;>
         w <- getWorld ;>
         (if existsSync tempPath w then unlinkSync tempPath else ret tt) ;>
         w <- getWorld ;>
         if negb (bool_decide (is_Some (xigDb w))) then initializeDatabase else ret tt).
Proof. reflexivity. Qed.

(** The [catch] block in a state whose temporary file can be removed and
    which has a connection, or no dataset file. *)
Lemma update_handler_settles (w x : World) (e : string) (rest : list Outcome) :
  untouched w x ->
  (xigDb w = None -> files w !! XIG_DB_PATH = None) ->
  fsFault w (Unlink tempPath) = None ->
  exists after,
    consume
      ((logMessage ("XIG database update failed: " ++ e) ;>
        w <- getWorld ;>
        (if existsSync tempPath w then unlinkSync tempPath else ret tt) ;>
        w <- getWorld ;>
        if negb (bool_decide (is_Some (xigDb w))) then initializeDatabase else ret tt) x)
      rest
    = (Done after tt, rest)
    /\ untouched w after /\ files after !! tempPath = None.
Proof.
  intros (H1 & H2 & H3 & H4 & H5) Hnone Hfault.
  unfold bind at 1, logMessage, modify. cbn [bindTask].
  unfold bind at 1, getWorld. cbn [bindTask].
  unfold bind at 1.
  set (y := addLog ("XIG database update failed: " ++ e) x).
  assert (Hy : untouched w y) by (repeat split; assumption).
  assert (Hclean : exists z,
            (if existsSync tempPath y then unlinkSync tempPath else ret tt) y = Done z tt
            /\ untouched w z /\ files z !! tempPath = None).
  { destruct (existsSync tempPath y) eqn:Ex.
    - unfold unlinkSync. rewrite Ex.
      replace (fsFault y (Unlink tempPath)) with (@None string)
        by (symmetry; unfold y; simpl; rewrite H4; exact Hfault).
      eexists. split; [reflexivity|]. split.
      + repeat split; try assumption. simpl. rewrite lookup_delete_ne by discriminate.
        exact H5.
      + simpl. apply lookup_delete_eq.
    - exists y. split; [reflexivity|]. split; [exact Hy|].
      unfold existsSync in Ex. apply bool_decide_eq_false in Ex.
      destruct (files y !! tempPath) eqn:El; [|reflexivity].
      exfalso. apply Ex. eauto. }
  destruct Hclean as (z & -> & Hz & Htemp). cbn [bindTask].
  unfold bind at 1, getWorld. cbn [bindTask].
  destruct Hz as (Z1 & Z2 & Z3 & Z4 & Z5).
  destruct (xigDb z) as [db|] eqn:Ez.
  - rewrite bool_decide_eq_true_2 by eauto. change (negb true) with false. cbv iota.
    rewrite consume_ret. exists z. repeat split; congruence.
  - rewrite bool_decide_eq_false_2 by (intros [? ?]; discriminate).
    change (negb false) with true. cbv iota.
    unfold initializeDatabase, bind at 1, getWorld. cbn [bindTask].
    assert (Hno : existsSync XIG_DB_PATH z = false).
    { unfold existsSync. apply bool_decide_eq_false_2. rewrite Z5.
      rewrite Hnone by congruence. intros [? ?]; discriminate. }
    rewrite Hno. change (negb false) with true. cbv iota. rewrite consume_log.
    eexists. split; [reflexivity|]. split; [|exact Htemp].
    repeat split; simpl; congruence.
Qed.

Lemma consume_app {E A} (a b : list Outcome) :
  forall t t' : Task E A, consume t a = (t', []) -> consume t (a ++ b)%list = consume t' b.
Proof.
  induction a as [|o a IH]; intros t t' H.
  - injection H as ->. reflexivity.
  - destruct t as [w x|w e|w op k|w]; cbn [consume app] in *; try discriminate.
    now apply IH.
Qed.

(** [initializeDatabase] when the open of the dataset file fails. *)
Lemma initializeDatabase_open_fails (z : World) (o : Outcome) (message : string)
    (rest : list Outcome) :
  is_Some (files z !! XIG_DB_PATH) -> errOf o = Some message ->
  consume (initializeDatabase z) (o :: rest)
  = (Throw (addLog ("Failed to open XIG database: " ++ message)
              (setXigDb (Some (nextDb z)) (setHandles (S (handles z)) z))) message, rest).
Proof.
  intros Hfile Ho. unfold initializeDatabase, bind at 1, getWorld. cbn [bindTask].
  unfold existsSync. rewrite bool_decide_eq_true_2 by exact Hfile.
  change (negb true) with false. cbv iota.
  unfold bind at 1, newDatabase. cbn [bindTask].
  unfold bind at 1, modify. cbn [bindTask].
  unfold bind at 1, await. cbn [bindTask consume]. rewrite Ho.
  unfold bind, logMessage, modify, throw. cbn [bindTask]. apply consume_throw.
Qed.

Lemma initializeDatabase_absent (w : World) :
  files w !! XIG_DB_PATH = None ->
  initializeDatabase w
  = Done (addLog "XIG database file not found, will download on first update" w) tt.
Proof.
  intros H. unfold initializeDatabase, bind at 1, getWorld. cbn [bindTask].
  unfold existsSync. rewrite bool_decide_eq_false_2; [reflexivity|].
  rewrite H. intros [? ?]; discriminate.
Qed.

Lemma initializeDatabase_present (w : World) :
  is_Some (files w !! XIG_DB_PATH) ->
  exists k,
    initializeDatabase w
    = Await (setXigDb (Some {| handle := handles w; dbPath := XIG_DB_PATH |})
               (setHandles (S (handles w)) w))
        (DbOpen (handles w) XIG_DB_PATH) k.
Proof.
  intros H. unfold initializeDatabase, bind at 1, getWorld. cbn [bindTask].
  unfold existsSync. rewrite bool_decide_eq_true_2 by exact H.
  eexists. reflexivity.
Qed.



(** The [catch] block when the removal of the temporary file is not
    refused: with a connection it ends, without one it goes on as
    [initializeDatabase]; only the log and the temporary file differ. *)
Lemma update_handler_cleans (x : World) (e : string) :
  fsFault x (Unlink tempPath) = None ->
  exists z,
    updateCatch e x
    = match xigDb x with
      | Some _ => Done z tt
      | None => initializeDatabase z
      end
    /\ untouched x z /\ files z !! tempPath = None /\ handles z = handles x.
Proof.
  intros Hfault. unfold updateCatch.
  unfold bind at 1, logMessage, modify. cbn [bindTask].
  unfold bind at 1, getWorld. cbn [bindTask].
  unfold bind at 1.
  set (y := addLog ("XIG database update failed: " ++ e) x).
  assert (Hclean : exists z,
            (if existsSync tempPath y then unlinkSync tempPath else ret tt) y = Done z tt
            /\ untouched x z /\ files z !! tempPath = None /\ handles z = handles x).
  { destruct (existsSync tempPath y) eqn:Ex.
    - unfold unlinkSync. rewrite Ex.
      change (fsFault y (Unlink tempPath)) with (fsFault x (Unlink tempPath)).
      rewrite Hfault. eexists. split; [reflexivity|]. split; [|split].
      + repeat split. cbn. now rewrite lookup_delete_ne by discriminate.
      + cbn. apply lookup_delete_eq.
      + reflexivity.
    - exists y. split; [reflexivity|]. split; [repeat split|]. split; [|reflexivity].
      unfold existsSync in Ex. apply bool_decide_eq_false in Ex.
      destruct (files y !! tempPath) eqn:El; [|reflexivity].
      exfalso. apply Ex. eauto. }
  destruct Hclean as (z & -> & Hz & Htemp & Hhandles). cbn [bindTask].
  unfold bind at 1, getWorld. cbn [bindTask].
  exists z. split; [|auto].
  destruct Hz as (Z1 & _). rewrite Z1.
  destruct (xigDb x) as [db|].
  - rewrite bool_decide_eq_true_2 by eauto. reflexivity.
  - rewrite bool_decide_eq_false_2 by (intros [? ?]; discriminate). reflexivity.
Qed.




(** ** A refresh whose file replacement fails *)

Lemma download_succeeds (data : string) (w : World) (rest : list Outcome) :
  consume (downloadFile XIG_DB_URL tempPath w) (OResponse 200 None (Finished data) :: rest)
  = (Done (fetched data w) tt, rest).
Proof. simpl. apply consume_done. Qed.

Lemma validate_succeeds (w : World) (opened validated : Outcome) (rest : list Outcome) :
  is_Some (files w !! tempPath) -> errOf opened = None -> errOf validated = None ->
  consume (validateDatabaseFile tempPath w) (opened :: validated :: rest)
  = (Done (setHandles (S (handles w)) w) tt, rest).
Proof.
  intros Hfile Ho Hv. unfold validateDatabaseFile, bind at 1, getWorld. cbn [bindTask].
  unfold existsSync. rewrite bool_decide_eq_true_2 by exact Hfile.
  change (negb true) with false. cbv iota.
  simpl. rewrite Ho. simpl. rewrite Hv. apply consume_done.
Qed.

Lemma close_succeeds (w : World) (db : Db) (closed : Outcome) (rest : list Outcome) :
  xigDb w = Some db ->
  exists x,
    consume (closeCurrent w) (closed :: rest) = (Done (setXigDb None x) tt, rest)
    /\ untouched w x /\ files x = files w /\ handles x = handles w.
Proof.
  intros Hdb. unfold closeCurrent, bind at 1, getWorld. cbn [bindTask]. rewrite Hdb.
  unfold bind, await. cbn [bindTask consume].
  destruct (errOf closed); unfold logMessage, modify, ret; cbn [bindTask];
    rewrite consume_done; eexists; (split; [reflexivity|]); repeat split.
Qed.

Lemma update_handler_reopens (x : World) (e : string) :
  xigDb x = None -> is_Some (files x !! tempPath) -> fsFault x (Unlink tempPath) = None ->
  (logMessage ("XIG database update failed: " ++ e) ;>
   w <- getWorld ;>
   (if existsSync tempPath w then unlinkSync tempPath else ret tt) ;>
   w <- getWorld ;>
   if negb (bool_decide (is_Some (xigDb w))) then initializeDatabase else ret tt) x
  = initializeDatabase (cleaned e x).
Proof.
  intros Hdb Htemp Hfault.
  unfold bind at 1, logMessage, modify. cbn [bindTask].
  unfold bind at 1, getWorld. cbn [bindTask].
  unfold bind at 1.
  assert (Ex : existsSync tempPath (addLog ("XIG database update failed: " ++ e) x) = true).
  { unfold existsSync. apply bool_decide_eq_true_2. exact Htemp. }
  rewrite Ex. unfold unlinkSync. rewrite Ex.
  change (fsFault (addLog ("XIG database update failed: " ++ e) x) (Unlink tempPath))
    with (fsFault x (Unlink tempPath)).
  rewrite Hfault. cbn [bindTask].
  unfold bind at 1, getWorld. cbn [bindTask].
  change (xigDb (setFiles _ _)) with (xigDb x). rewrite Hdb.
  rewrite bool_decide_eq_false_2 by (intros [? ?]; discriminate).
  reflexivity.
Qed.



Lemma replaceFile_unlink_refused (x : World) (message : string) :
  is_Some (files x !! XIG_DB_PATH) -> fsFault x (Unlink XIG_DB_PATH) = Some message ->
  replaceFile tempPath x = Throw x message.
Proof.
  intros Hfile Hfault. unfold replaceFile, bind at 1, getWorld. cbn [bindTask].
  unfold existsSync. rewrite bool_decide_eq_true_2 by exact Hfile.
  unfold bind, unlinkSync. rewrite Hfault. reflexivity.
Qed.

Lemma consume_done_app {E A} (a b mid : list Outcome) (w : World) (x : A) :
  forall t : Task E A,
  consume t a = (Done w x, mid) -> consume t (a ++ b)%list = (Done w x, (mid ++ b)%list).
Proof.
  induction a as [|o a IH]; intros t H.
  - injection H as -> <-. apply consume_done.
  - destruct t as [w' x'|w' e|w' op k|w']; cbn [consume app] in *; try discriminate.
    + injection H as <- <- <-. reflexivity.
    + now apply IH.
Qed.

Lemma download_keeps_handles (w : World) (outcomes : list Outcome) :
  handles (worldOf (fst (consume (downloadFile XIG_DB_URL tempPath w) outcomes)))
  = handles w.
Proof.
  apply (safe_world (fun x => handles x = handles w) anything). apply safe_consume.
  apply safely_downloadFile; [| |discriminate|reflexivity].
  - intros message y Hy. exact Hy.
  - intros f y Hy _. exact Hy.
Qed.

(** A validation that ended well found its file and created one database
    object. *)
Lemma validate_done (filePath : string) (w v : World) (outcomes rest : list Outcome) :
  consume (validateDatabaseFile filePath w) outcomes = (Done v tt, rest) ->
  is_Some (files w !! filePath) /\ v = setHandles (S (handles w)) w.
Proof.
  unfold validateDatabaseFile, bind at 1, getWorld. cbn [bindTask].
  unfold existsSync. case_bool_decide as Hfile; cbn [negb].
  2:{ unfold throw. rewrite consume_throw. discriminate. }
  unfold bind at 1, newDatabase. cbn [bindTask].
  unfold bind at 1, await. cbn [bindTask].
  destruct outcomes as [|opened outcomes]; [discriminate|]. cbn [consume].
  destruct (errOf opened) as [message|].
  { unfold throw. rewrite consume_throw. discriminate. }
  unfold bind, await. cbn [bindTask].
  destruct outcomes as [|probed outcomes]; [discriminate|]. cbn [consume].
  destruct (errOf probed) as [message|].
  { unfold throw. rewrite consume_throw. discriminate. }
  unfold ret. rewrite consume_done. intros [= <- _]. now split.
Qed.

(** After the closing of lines 1567-1577 there is no connection; nothing
    else has changed but the log. *)
Lemma close_done (v x : World) (outcomes rest : list Outcome) :
  consume (closeCurrent v) outcomes = (Done x tt, rest) ->
  xigDb x = None /\ files x = files v /\ fsFault x = fsFault v
  /\ configCache x = configCache v /\ cacheLoadInProgress x = cacheLoadInProgress v
  /\ handles x = handles v.
Proof.
  unfold closeCurrent, bind at 1, getWorld. cbn [bindTask].
  destruct (xigDb v) as [db|] eqn:Edb.
  - unfold bind at 1, await. cbn [bindTask].
    destruct outcomes as [|o outcomes]; [discriminate|]. cbn [consume].
    destruct (errOf o); unfold bind, logMessage, modify, ret; cbn [bindTask];
      rewrite consume_done; intros [= <- _]; repeat split.
  - unfold ret. rewrite consume_done. intros [= <- _]. repeat split. exact Edb.
Qed.

(** The state in which the file replacement starts. *)
Lemma fetchEnds_state (w x : World) (outcomes : list Outcome) :
  fetchEnds w outcomes x ->
  xigDb x = None /\ fsFault x = fsFault w /\ configCache x = configCache w
  /\ cacheLoadInProgress x = cacheLoadInProgress w
  /\ files x !! XIG_DB_PATH = files w !! XIG_DB_PATH
  /\ is_Some (files x !! tempPath) /\ handles x = S (handles w).
Proof.
  intros (fetched & mid & validated & rest & Hd & Hv & Hc).
  assert (Hstart : untouched w (updateStart w)) by (repeat split).
  pose proof (untouched_download w (updateStart w) outcomes Hstart) as Hu.
  rewrite Hd in Hu. destruct Hu as (U1 & U2 & U3 & U4 & U5).
  pose proof (download_keeps_handles (updateStart w) outcomes) as Hh.
  rewrite Hd in Hh. cbn in Hh.
  apply validate_done in Hv as [Htemp ->].
  apply close_done in Hc as (C1 & C2 & C3 & C4 & C5 & C6).
  cbn in *. rewrite C2. repeat split; congruence.
Qed.

(** The refresh from its file replacement on. *)
Lemma update_from_replacement (w x : World) (outcomes more : list Outcome) :
  fetchEnds w outcomes x ->
  consume (updateXigDatabase w) (outcomes ++ more)
  = consume
      (catchTask
         (bindTask (replaceFile tempPath x)
            (fun _ =>
               initializeDatabase ;>
               logMessage "XIG database update completed successfully"))
         updateCatch)
      more.
Proof.
  intros (fetched & mid & validated & rest & Hd & Hv & Hc).
  rewrite updateXigDatabase_unfold, !consume_catch.
  rewrite consume_bind, (consume_done_app _ more _ _ _ _ Hd).
  unfold bind at 1. rewrite consume_bind, (consume_done_app _ more _ _ _ _ Hv).
  unfold bind at 1. rewrite consume_bind, (consume_done_app _ more _ _ _ _ Hc).
  reflexivity.
Qed.

(** The file replacement when the rename is refused: the dataset file, if
    there was one, is gone by then. *)
Lemma replaceFile_rename_fails (x : World) (message : string) :
  files x !! XIG_DB_PATH = None \/ fsFault x (Unlink XIG_DB_PATH) = None ->
  fsFault x (Rename tempPath XIG_DB_PATH) = Some message ->
  exists failed,
    replaceFile tempPath x = Throw failed message
    /\ files failed !! XIG_DB_PATH = None
    /\ xigDb failed = xigDb x /\ fsFault failed = fsFault x
    /\ configCache failed = configCache x.
Proof.
  intros Hunlink Hrename. unfold replaceFile, bind at 1, getWorld. cbn [bindTask].
  unfold bind. unfold existsSync at 1. case_bool_decide as Hfile.
  - destruct Hunlink as [Hnone|Hunlink]; [rewrite Hnone in Hfile; now destruct Hfile|].
    unfold unlinkSync. rewrite Hunlink.
    unfold existsSync. rewrite bool_decide_eq_true_2 by exact Hfile. cbn [bindTask].
    unfold renameSync.
    change (fsFault (setFiles _ x) (Rename tempPath XIG_DB_PATH))
      with (fsFault x (Rename tempPath XIG_DB_PATH)).
    rewrite Hrename. eexists. split; [reflexivity|]. cbn.
    rewrite lookup_delete_eq. repeat split.
  - unfold ret. cbn [bindTask]. unfold renameSync. rewrite Hrename.
    exists x. split; [reflexivity|]. repeat split.
    destruct (files x !! XIG_DB_PATH) eqn:E; [|reflexivity]. exfalso. apply Hfile. eauto.
Qed.

(** The file replacement when nothing is refused. *)
Lemma replaceFile_done (x : World) (data : string) :
  files x !! XIG_DB_PATH = None \/ fsFault x (Unlink XIG_DB_PATH) = None ->
  fsFault x (Rename tempPath XIG_DB_PATH) = None ->
  files x !! tempPath = Some data ->
  exists y,
    replaceFile tempPath x = Done y tt
    /\ files y !! XIG_DB_PATH = Some data /\ files y !! tempPath = None
    /\ xigDb y = xigDb x /\ configCache y = configCache x /\ handles y = handles x
    /\ cacheLoadInProgress y = cacheLoadInProgress x /\ fsFault y = fsFault x.
Proof.
  intros Hunlink Hrename Htemp. unfold replaceFile, bind at 1, getWorld. cbn [bindTask].
  unfold bind.
  assert (Hstep : exists y,
            (if existsSync XIG_DB_PATH x then unlinkSync XIG_DB_PATH else ret tt) x
            = Done y tt
            /\ files y !! tempPath = Some data /\ fsFault y = fsFault x
            /\ xigDb y = xigDb x /\ configCache y = configCache x /\ handles y = handles x
            /\ cacheLoadInProgress y = cacheLoadInProgress x).
  { destruct (existsSync XIG_DB_PATH x) eqn:Ex.
    - destruct Hunlink as [Hnone|Hunlink].
      { unfold existsSync in Ex. apply bool_decide_eq_true in Ex.
        rewrite Hnone in Ex. now destruct Ex. }
      unfold unlinkSync. rewrite Hunlink, Ex. eexists. split; [reflexivity|].
      cbn. rewrite lookup_delete_ne by discriminate. repeat split. exact Htemp.
    - exists x. repeat split. exact Htemp. }
  destruct Hstep as (y & -> & Ytemp & Yfault & Ydb & Ycache & Yhandles & Yflag).
  cbn [bindTask]. unfold renameSync. rewrite Yfault, Hrename, Ytemp.
  eexists. split; [reflexivity|]. cbn.
  rewrite lookup_insert_eq, lookup_insert_ne by discriminate.
  rewrite lookup_delete_eq. repeat split; assumption.
Qed.

(** C2, as amended: step 3 of a refresh closes the connection, removes the
    dataset file if there is one, renames the temporary file onto its path
    and opens a new connection.  When the removal of the temporary file is
    not refused, a failure of this step is caught in [updateXigDatabase]:
    - the removal of the dataset file refused: the dataset file is the one
      from before, no temporary file is left, [initializeDatabase] has
      created a new connection on the dataset file and the refresh waits
      for it to open, the cache being the one from before the refresh;
      when that open fails, the refresh throws its error;
    - the rename refused: the refresh ends without throwing, with no
      dataset file, no temporary file, no connection and the cache from
      before the refresh;
    - the file replaced and the open of the new connection failed: the
      refresh ends without throwing, the dataset file holds the
      downloaded data, no temporary file is left, [xigDb] is the
      connection that is not open and the cache is the one from before.
    The connection from before the refresh is kept in no case: when the
    file replacement starts it has been closed and [xigDb] is null. *)
Theorem failed_replacement_is_caught (w x : World) (outcomes : list Outcome)
    (message : string) :
  fetchEnds w outcomes x ->
  fsFault w (Unlink tempPath) = None ->
  let t := run (updateXigDatabase w) outcomes in
  xigDb x = None
  /\ (is_Some (files w !! XIG_DB_PATH) -> fsFault w (Unlink XIG_DB_PATH) = Some message ->
     pendingOp t = Some (DbOpen (S (handles w)) XIG_DB_PATH)
     /\ xigDb (worldOf t) = Some {| handle := S (handles w); dbPath := XIG_DB_PATH |}
     /\ files (worldOf t) !! XIG_DB_PATH = files w !! XIG_DB_PATH
     /\ files (worldOf t) !! tempPath = None
     /\ configCache (worldOf t) = configCache w
     /\ forall o failure,
          errOf o = Some failure ->
          exists failed,
            run (updateXigDatabase w) (outcomes ++ [o])%list = Throw failed failure
            /\ files failed !! XIG_DB_PATH = files w !! XIG_DB_PATH
            /\ configCache failed = configCache w)
  /\ (files w !! XIG_DB_PATH = None \/ fsFault w (Unlink XIG_DB_PATH) = None ->
      fsFault w (Rename tempPath XIG_DB_PATH) = Some message ->
      isDone t = true
      /\ xigDb (worldOf t) = None
      /\ files (worldOf t) !! XIG_DB_PATH = None
      /\ files (worldOf t) !! tempPath = None
      /\ configCache (worldOf t) = configCache w)
  /\ (files w !! XIG_DB_PATH = None \/ fsFault w (Unlink XIG_DB_PATH) = None ->
      fsFault w (Rename tempPath XIG_DB_PATH) = None ->
      forall o failure,
        errOf o = Some failure ->
        let t' := run (updateXigDatabase w) (outcomes ++ [o])%list in
        isDone t' = true
        /\ xigDb (worldOf t') = Some {| handle := S (handles w); dbPath := XIG_DB_PATH |}
        /\ files (worldOf t') !! XIG_DB_PATH = files x !! tempPath
        /\ is_Some (files (worldOf t') !! XIG_DB_PATH)
        /\ files (worldOf t') !! tempPath = None
        /\ configCache (worldOf t') = configCache w).
Proof.
  intros Hends Htemp t.
  destruct (fetchEnds_state w x outcomes Hends)
    as (Xdb & Xfault & Xcache & Xflag & Xfile & Xtemp & Xhandles).
  assert (Et : t = fst (consume
                          (catchTask
                             (bindTask (replaceFile tempPath x)
                                (fun _ =>
                                   initializeDatabase ;>
                                   logMessage "XIG database update completed successfully"))
                             updateCatch) [])).
  { subst t. rewrite run_consume. rewrite <- (app_nil_r outcomes) at 1.
    now rewrite (update_from_replacement w x outcomes [] Hends). }
  cbn [consume fst] in Et. clearbody t.
  split; [exact Xdb|]. split; [|split].
  - intros Hfile Hunlink.
    assert (Hthrow : replaceFile tempPath x = Throw x message).
    { apply replaceFile_unlink_refused; [now rewrite Xfile | now rewrite Xfault]. }
    destruct (update_handler_cleans x message) as (z & Hz & (Z1 & Z2 & Z3 & Z4 & Z5) & Ztemp & Zh).
    { now rewrite Xfault. }
    rewrite Xdb in Hz.
    assert (Zfile : is_Some (files z !! XIG_DB_PATH)) by (rewrite Z5, Xfile; exact Hfile).
    assert (Erun : forall more,
              consume (updateXigDatabase w) (outcomes ++ more)
              = consume (initializeDatabase z) more).
    { intros more. rewrite (update_from_replacement w x outcomes more Hends).
      rewrite Hthrow. cbn [bindTask catchTask]. now rewrite Hz. }
    rewrite Hthrow in Et. cbn [bindTask catchTask] in Et.
    rewrite Hz in Et. subst t.
    destruct (initializeDatabase_present z Zfile) as (k & Ek).
    rewrite Ek. cbn [pendingOp worldOf setXigDb setHandles xigDb files configCache].
    rewrite Zh, Xhandles.
    split; [reflexivity|]. split; [reflexivity|]. split; [congruence|].
    split; [exact Ztemp|]. split; [congruence|].
    intros o failure Ho. rewrite run_consume, Erun.
    rewrite (initializeDatabase_open_fails z o failure [] Zfile Ho).
    eexists. split; [reflexivity|].
    cbn [addLog setXigDb setHandles files configCache]. split; congruence.
  - intros Hunlink Hrename.
    destruct (replaceFile_rename_fails x message) as (failed & Hthrow & F1 & F2 & F3 & F4).
    { destruct Hunlink as [H|H]; [left; now rewrite Xfile | right; now rewrite Xfault]. }
    { now rewrite Xfault. }
    destruct (update_handler_cleans failed message)
      as (z & Hz & (Z1 & Z2 & Z3 & Z4 & Z5) & Ztemp & Zh).
    { now rewrite F3, Xfault. }
    rewrite F2, Xdb in Hz.
    rewrite Hthrow in Et. cbn [bindTask catchTask] in Et.
    rewrite Hz in Et. subst t.
    rewrite initializeDatabase_absent by congruence.
    cbn [isDone worldOf addLog xigDb files configCache].
    split; [reflexivity|]. split; [congruence|]. split; [congruence|].
    split; [exact Ztemp | congruence].
  - intros Hunlink Hrename o failure Ho t'.
    destruct Xtemp as [data Xdata].
    destruct (replaceFile_done x data) as (y & Hy & Y1 & Y2 & Y3 & Y4 & Y5 & Y6 & Y7).
    { destruct Hunlink as [H|H]; [left; now rewrite Xfile | right; now rewrite Xfault]. }
    { now rewrite Xfault. }
    { exact Xdata. }
    assert (Yfile : is_Some (files y !! XIG_DB_PATH)) by (rewrite Y1; eauto).
    assert (Et' : exists after,
              t' = Done after tt
              /\ xigDb after = Some {| handle := S (handles w); dbPath := XIG_DB_PATH |}
              /\ files after !! XIG_DB_PATH = Some data
              /\ files after !! tempPath = None
              /\ configCache after = configCache w).
    { subst t'. rewrite run_consume, (update_from_replacement w x outcomes [o] Hends).
      rewrite Hy. cbn [bindTask]. rewrite consume_catch.
      unfold bind at 1. rewrite consume_bind.
      rewrite (initializeDatabase_open_fails y o failure [] Yfile Ho).
      set (failed := addLog _ (setXigDb _ _)).
      unfold updateCatch, bind at 1, logMessage, modify. cbn [bindTask].
      unfold bind at 1, getWorld. cbn [bindTask].
      assert (Ex : existsSync tempPath
                     (addLog ("XIG database update failed: " ++ failure) failed) = false).
      { unfold existsSync, failed. apply bool_decide_eq_false_2. cbn.
        intros [v Hfound]. change (files y !! tempPath = Some v) in Hfound. congruence. }
      unfold bind at 1. rewrite Ex. unfold ret at 1. cbn [bindTask].
      unfold bind at 1, getWorld. cbn [bindTask].
      eexists. split; [reflexivity|]. unfold failed, nextDb.
      cbn [addLog setXigDb setHandles xigDb files configCache].
      rewrite Y5, Xhandles. repeat split; congruence. }
    destruct Et' as (after & -> & A1 & A2 & A3 & A4). cbn [isDone worldOf].
    rewrite Xdata, A2. repeat split; try assumption. eauto.
Qed.

(** A refresh on a file system that refuses to rename, one on a file
    system that refuses to remove the dataset file, and one whose file
    replacement ends well. *)
Lemma failed_replacement_is_caught_witness :
  (let t := run (updateXigDatabase renameRefused)
              [OResponse 200 None (Finished "new"); OOk; ORow None; OOk] in
   isDone t = true
   /\ xigDb (worldOf t) = None
   /\ files (worldOf t) !! XIG_DB_PATH = None
   /\ files (worldOf t) !! tempPath = None
   /\ configCache (worldOf t) = configCache renameRefused)
  /\ (let t := run (updateXigDatabase unlinkRefused)
                 [OResponse 200 None (Finished "new"); OOk; ORow None; OOk] in
      pendingOp t = Some (DbOpen (S (handles unlinkRefused)) XIG_DB_PATH)
      /\ xigDb (worldOf t)
         = Some {| handle := S (handles unlinkRefused); dbPath := XIG_DB_PATH |}
      /\ files (worldOf t) !! XIG_DB_PATH = files unlinkRefused !! XIG_DB_PATH
      /\ files (worldOf t) !! tempPath = None
      /\ configCache (worldOf t) = configCache unlinkRefused
      /\ forall o failure,
           errOf o = Some failure ->
           exists failed,
             run (updateXigDatabase unlinkRefused)
               ([OResponse 200 None (Finished "new"); OOk; ORow None; OOk] ++ [o])%list
             = Throw failed failure
             /\ files failed !! XIG_DB_PATH = files unlinkRefused !! XIG_DB_PATH
             /\ configCache failed = configCache unlinkRefused)
  /\ (let t' := run (updateXigDatabase connectedWorld)
                  ([OResponse 200 None (Finished "new"); OOk; ORow None; OOk]
                   ++ [OErr "SQLITE_CANTOPEN: unable to open database file"])%list in
      isDone t' = true
      /\ xigDb (worldOf t')
         = Some {| handle := S (handles connectedWorld); dbPath := XIG_DB_PATH |}
      /\ files (worldOf t') !! XIG_DB_PATH = Some "new"
      /\ files (worldOf t') !! tempPath = None
      /\ configCache (worldOf t') = configCache connectedWorld).
Proof.
  split; [|split].
  - refine (proj1 (proj2 (proj2 (failed_replacement_is_caught renameRefused _
                                   [OResponse 200 None (Finished "new"); OOk; ORow None; OOk]
                                   "EPERM: operation not permitted" _ eq_refl))) _ eq_refl).
    + do 4 eexists. split; [reflexivity|]. split; reflexivity.
    + right. reflexivity.
  - refine (proj1 (proj2 (failed_replacement_is_caught unlinkRefused _
                            [OResponse 200 None (Finished "new"); OOk; ORow None; OOk]
                            "EBUSY: resource busy or locked" _ eq_refl)) _ eq_refl).
    + do 4 eexists. split; [reflexivity|]. split; reflexivity.
    + eexists. reflexivity.
  - pose proof (proj2 (proj2 (proj2 (failed_replacement_is_caught connectedWorld _
                                       [OResponse 200 None (Finished "new"); OOk; ORow None;
                                        OOk]
                                       "" ltac:(do 4 eexists; split; [reflexivity|];
                                                split; reflexivity) eq_refl)))
                  (or_intror eq_refl) eq_refl
                  (OErr "SQLITE_CANTOPEN: unable to open database file")
                  "SQLITE_CANTOPEN: unable to open database file" eq_refl)
      as (H1 & H2 & H3 & _ & H5 & H6).
    intros t'. split; [exact H1|]. split; [exact H2|]. split; [exact H3|].
    split; [exact H5 | exact H6].
Defined.

(** C2, as the claim has it, fails: the rename is refused after the
    dataset file was removed and the connection closed, and the refresh
    ends with neither. *)
Lemma failed_rename_leaves_no_dataset :
  let t := run (updateXigDatabase renameRefused)
             [OResponse 200 None (Finished "new"); OOk; ORow None; OOk] in
  files renameRefused !! XIG_DB_PATH = Some "old"
  /\ xigDb renameRefused = Some {| handle := 0; dbPath := XIG_DB_PATH |}
  /\ opsOf (updateXigDatabase renameRefused)
       [OResponse 200 None (Finished "new"); OOk; ORow None; OOk]
     = [HttpGet XIG_DB_URL; DbOpen 1 tempPath;
        DbGet 1 "SELECT name FROM sqlite_master WHERE type='table' LIMIT 1"; DbClose 0]
  /\ isDone t = true
  /\ files (worldOf t) !! XIG_DB_PATH = None
  /\ xigDb (worldOf t) = None.
Proof. repeat split. Qed.

(** A refresh in which every operation ends well: the new file is the
    dataset, a connection is open on it and the cache is built from it. *)
Example refresh_replaces_dataset :
  let t := run (updateXigDatabase connectedWorld) (refreshOutcomes "new") in
  isDone t = true
  /\ files (worldOf t) !! XIG_DB_PATH = Some "new"
  /\ files (worldOf t) !! tempPath = None
  /\ xigDb (worldOf t) = Some {| handle := 2; dbPath := XIG_DB_PATH |}
  /\ loaded (configCache (worldOf t)) = true
  /\ cacheLoadInProgress (worldOf t) = false.
Proof. repeat split. Qed.

(** ** One rebuild at a time, any number of refreshes *)

Lemma buildNewCache_keeps_guard (w : World) (outcomes : list Outcome) :
  cacheLoadInProgress w = true ->
  cacheLoadInProgress (worldOf (fst (consume (buildNewCache w) outcomes))) = true.
Proof.
  intros H. apply (safe_world (fun x => cacheLoadInProgress x = true) fullyBuilt).
  apply safe_consume. apply safely_buildNewCache; [|exact H].
  intros message x Hx. exact Hx.
Qed.

Lemma loadConfigCache_guarded (w : World) :
  cacheLoadInProgress w = true ->
  loadConfigCache w = Done (addLog "Cache load already in progress, skipping" w) tt.
Proof.
  intros H. unfold loadConfigCache, bind at 1, getWorld. cbn [bindTask]. now rewrite H.
Qed.

(** C3, as amended: the rebuild of the cache is what is serialized.  While
    a call of [loadConfigCache] has not ended, the guard is set, and a
    second call made then ends at once: it logs one line, starts no
    operation and leaves nothing to be retried.  [updateXigDatabase] looks
    at no guard: called in the same state, it starts a download. *)
Theorem rebuild_is_serialized (w : World) (outcomes : list Outcome) :
  cacheLoadInProgress w = false -> is_Some (xigDb w) ->
  let first := run (loadConfigCache w) outcomes in
  isDone first = false ->
  cacheLoadInProgress (worldOf first) = true
  /\ loadConfigCache (worldOf first)
     = Done (addLog "Cache load already in progress, skipping" (worldOf first)) tt
  /\ pendingOp (updateXigDatabase (worldOf first)) = Some (HttpGet XIG_DB_URL).
Proof.
  intros Hflag Hdb first Hwaiting.
  assert (Hguard : cacheLoadInProgress (worldOf first) = true).
  { subst first. revert Hwaiting.
    rewrite run_consume, (loadConfigCache_building w Hflag Hdb).
    rewrite consume_finally, consume_catch, consume_bind.
    pose proof (buildNewCache_keeps_guard (buildStart w) outcomes eq_refl) as Hk.
    destruct (consume (buildNewCache (buildStart w)) outcomes) as [[x c|x e|x op k|x] rest].
    - cbv beta. unfold bind, logMessage. cbn [modify bindTask].
      unfold modify. rewrite consume_done. simpl. discriminate.
    - rewrite consume_log. simpl. discriminate.
    - intros _. exact Hk.
    - intros _. exact Hk. }
  split; [exact Hguard|]. split; [now apply loadConfigCache_guarded|].
  apply update_starts_download.
Qed.

(** A rebuild that waits for its second query. *)
Lemma rebuild_is_serialized_witness :
  let first := run (loadConfigCache connectedWorld) [ORows []] in
  cacheLoadInProgress (worldOf first) = true
  /\ loadConfigCache (worldOf first)
     = Done (addLog "Cache load already in progress, skipping" (worldOf first)) tt
  /\ pendingOp (updateXigDatabase (worldOf first)) = Some (HttpGet XIG_DB_URL).
Proof.
  apply (rebuild_is_serialized connectedWorld [ORows []]).
  - reflexivity.
  - eexists. reflexivity.
  - reflexivity.
Defined.

(** C3, as the claim has it, fails: a second trigger of the refresh, made
    while the first waits for its download, starts a download of its own,
    and both refreshes run to their end, each with its validation, its
    replacement of the file and its rebuild of the cache. *)
Lemma second_trigger_runs_its_own_refresh :
  started (steps (startOf connectedWorld)
             [Trigger updateXigDatabase; Trigger updateXigDatabase])
  = [HttpGet XIG_DB_URL; HttpGet XIG_DB_URL]
  /\ map isDone (calls (steps (startOf connectedWorld) twoRefreshes)) = [true; true]
  /\ timesLogged "XIG database update completed successfully"
       (world (steps (startOf connectedWorld) twoRefreshes)) = 2
  /\ timesLogged "Config cache updated successfully. Total cached collections: 13"
       (world (steps (startOf connectedWorld) twoRefreshes)) = 2
  /\ files (world (steps (startOf connectedWorld) twoRefreshes)) !! XIG_DB_PATH
     = Some "second".
Proof. repeat split; vm_compute; reflexivity. Qed.

(** ** The breakdowns *)

(** A realm code longer than three characters adds one to the counter,
    whatever the count of its row, and nothing to the list. *)
Lemma long_realm_adds_one (baseUrl : string) (q : QueryParams) (html : string) (c : Z)
    (row : Row) :
  truthyV (field row "Realm") = true -> longerThan3 (field row "Realm") = true ->
  realmItem baseUrl q (html, c) row = inr (html, (c + 1)%Z).
Proof. intros Ht Hl. unfold realmItem. now rewrite Ht, Hl. Qed.

(** C1 at one input: ten records of realm [us], five of [uk] and three of
    [longcustomrealm], with the version and the authority facets applied
    and no realm facet.  The realm list has the two short codes with their
    counts and one [other] item; the number of that item is 1, the number
    of long codes, and not 3, the number of their records. *)
Theorem other_counts_codes_not_records :
  run (buildSummaryStats versionAndAuthority "/xig/resources" connectedWorld)
    [ORows sampleRealmRows]
  = Done connectedWorld
      (blockOpen ++ "<p><strong>By Realm</strong></p>" ++ listOpen
       ++ linkItem "/xig/resources?ver=R4&auth=hl7&realm=uk&offset=0" (VStr "uk") "5"
       ++ linkItem "/xig/resources?ver=R4&auth=hl7&realm=us&offset=0" (VStr "us") "10"
       ++ "<li>other: 1</li>" ++ "</ul>" ++ "</div><p>&nbsp;</p>").
Proof. vm_compute. reflexivity. Qed.

Lemma unapplied_facet_is_no_clause (d : Dimension) (c : Cache) (q : QueryParams) :
  truthy (ownFacet d q) = false -> buildSqlFilter c q = buildSqlFilter c (withoutFacet d q).
Proof.
  intros H. unfold buildSqlFilter. rewrite !filterConjunction_stages.
  destruct d; simpl in *; rewrite ?H; try reflexivity.
  unfold versionClause. now rewrite H.
Qed.

(** C4, as amended: a breakdown is made only when its own facet is not
    applied.  With the facet applied the breakdown adds nothing to the page
    and asks the database nothing; without it, the query of the breakdown
    runs over the records of the whole filter, which then is the filter of
    the other facets. *)
Theorem breakdown_needs_unapplied_facet (d : Dimension) (q : QueryParams)
    (baseUrl html : string) (w : World) (db : Db) :
  xigDb w = Some db ->
  let currentFilter := buildSqlFilter (configCache w) q in
  (truthy (ownFacet d q) = true ->
     breakdown d currentFilter baseUrl q html w = Done w html)
  /\ (truthy (ownFacet d q) = false ->
      currentFilter = buildSqlFilter (configCache w) (withoutFacet d q)
      /\ pendingOp (breakdown d currentFilter baseUrl q html w)
         = breakdownQuery d currentFilter db (getCachedSet (configCache w) "versions")).
Proof.
  intros Hdb currentFilter. split.
  - intros H. destruct d; simpl in H; simpl;
      [unfold versionBreakdown | unfold authorityBreakdown | unfold realmBreakdown];
      now rewrite H.
  - intros H. split; [now apply unapplied_facet_is_no_clause|].
    destruct d; simpl in H; simpl.
    + unfold versionBreakdown. rewrite H. change (negb false) with true. cbv iota.
      unfold bind at 1, getWorld. cbn [bindTask].
      destruct (getCachedSet (configCache w) "versions") as [|version versions];
        [reflexivity|].
      unfold bind, within, tryCatch. cbn [versionItems]. unfold bind, versionItem, tryCatch.
      unfold getCount, bind, getWorld. cbn [bindTask]. rewrite Hdb. reflexivity.
    + unfold authorityBreakdown. rewrite H. change (negb false) with true. cbv iota.
      unfold bind, within, tryCatch, getRows, bind, getWorld. cbn [bindTask].
      rewrite Hdb. reflexivity.
    + unfold realmBreakdown. rewrite H. change (negb false) with true. cbv iota.
      unfold bind, within, tryCatch, getRows, bind, getWorld. cbn [bindTask].
      rewrite Hdb. reflexivity.
Qed.

(** The authority breakdown with the authority [hl7] applied. *)
Lemma breakdown_needs_unapplied_facet_witness :
  breakdown ByAuthority (buildSqlFilter (configCache loadedWorld) authorityOnly)
    "/xig/resources" authorityOnly "" loadedWorld
  = Done loadedWorld "".
Proof.
  apply (breakdown_needs_unapplied_facet ByAuthority authorityOnly "/xig/resources" ""
           loadedWorld {| handle := 0; dbPath := XIG_DB_PATH |} eq_refl).
  reflexivity.
Defined.

(** C4, as the claim has it, fails: with the authority [hl7] applied the
    page has the seven version counts and the realm list; there is no
    query by authority, and the authority breakdown returns the page as it
    was. *)
Lemma applied_authority_has_no_breakdown :
  truthy (auth authorityOnly) = true
  /\ authorityBreakdown (buildSqlFilter (configCache loadedWorld) authorityOnly)
       "/xig/resources" authorityOnly "" loadedWorld
     = Done loadedWorld ""
  /\ opsOf (buildSummaryStats authorityOnly "/xig/resources" loadedWorld)
       [ORow None; ORow None; ORow None; ORow None; ORow None; ORow None; ORow None;
        ORows sampleRealmRows]
     = [DbGet 0 "SELECT COUNT(*) as count FROM Resources WHERE  authority = 'hl7' AND R2 = 1";
        DbGet 0 "SELECT COUNT(*) as count FROM Resources WHERE  authority = 'hl7' AND R2B = 1";
        DbGet 0 "SELECT COUNT(*) as count FROM Resources WHERE  authority = 'hl7' AND R3 = 1";
        DbGet 0 "SELECT COUNT(*) as count FROM Resources WHERE  authority = 'hl7' AND R4 = 1";
        DbGet 0 "SELECT COUNT(*) as count FROM Resources WHERE  authority = 'hl7' AND R4B = 1";
        DbGet 0 "SELECT COUNT(*) as count FROM Resources WHERE  authority = 'hl7' AND R5 = 1";
        DbGet 0 "SELECT COUNT(*) as count FROM Resources WHERE  authority = 'hl7' AND R6 = 1";
        DbAll 0 "SELECT Realm, COUNT(*) as count FROM Resources WHERE  authority = 'hl7' GROUP BY Realm ORDER BY Realm"].
Proof. repeat split. Qed.

(** ** Markup and links *)

Ltac decided := compute_done.

Lemma chars_app (a b : string) : chars (a ++ b) = (chars a ++ chars b)%list.
Proof. induction a as [|c a IH]; simpl; [reflexivity|]. unfold chars in *. simpl. now rewrite IH. Qed.

Lemma escapeHtmlStr_markup (s : string) :
  Forall (fun c => c ∉ markupChars) (chars (escapeHtmlStr s)).
Proof.
  induction s as [|c r IH]; [constructor|].
  cbn [escapeHtmlStr]. rewrite chars_app. apply Forall_app_2; [|exact IH].
  destruct (Ascii.eqb c "&") eqn:E1; [repeat constructor; decided|].
  destruct (Ascii.eqb c "<") eqn:E2; [repeat constructor; decided|].
  destruct (Ascii.eqb c ">") eqn:E3; [repeat constructor; decided|].
  destruct (Ascii.eqb c dquoteChar) eqn:E4; [repeat constructor; decided|].
  destruct (Ascii.eqb c "'") eqn:E5; [repeat constructor; decided|].
  apply Ascii.eqb_neq in E2, E3, E4, E5.
  repeat constructor. unfold markupChars. intros H.
  repeat (apply elem_of_cons in H as [H|H]; [congruence|]). inversion H.
Qed.

(** A decimal digit. *)
Lemma uint_digits (d : Decimal.uint) :
  Forall (fun c => (c ∉ markupChars) /\ c <> ","%char) (chars (NilEmpty.string_of_uint d)).
Proof.
  induction d; simpl; try constructor; try assumption; split; try decided; discriminate.
Qed.

Lemma numStr_markup (z : Z) : Forall (fun c => c ∉ markupChars) (chars (numStr z)).
Proof.
  assert (H : forall d, Forall (fun c => c ∉ markupChars) (chars (NilZero.string_of_uint d))).
  { intros d.
    assert (Forall (fun c => c ∉ markupChars) (chars (NilEmpty.string_of_uint d))) as Hd.
    { eapply Forall_impl; [apply uint_digits|]. intros c Hc. apply Hc. }
    destruct d; try exact Hd. repeat constructor; decided. }
  unfold numStr. destruct z as [|p|p]; simpl.
  - repeat constructor; decided.
  - apply H.
  - constructor; [decided | apply H].
Qed.

(** X1: for a string, and for an integer, [null] or [undefined], which
    [escapeHtml] writes with [String], none of the characters [<], [>],
    the double quote and the single quote is left in the result: text
    placed in an element or in an attribute value through [escapeHtml]
    opens no tag and closes no attribute. *)
Theorem escapeHtml_leaves_no_markup (v : JsVal) :
  Forall (fun c => c ∉ markupChars) (chars (escapeHtml v)).
Proof.
  destruct v as [| |z|s]; simpl.
  - repeat constructor; decided.
  - repeat constructor; decided.
  - apply numStr_markup.
  - apply escapeHtmlStr_markup.
Qed.

Lemma prefix_empty (s : string) : String.prefix "" s = true.
Proof. now destruct s. Qed.

(** X2: [escapeHtml] loses nothing of a string: reading the five entities
    back gives the text that was escaped, so two different texts are never
    shown as the same one. *)
Theorem escapeHtml_reads_back (s : string) :
  decodeEntities 0 (escapeHtml (VStr s)) = s.
Proof.
  simpl. induction s as [|c r IH]; [reflexivity|].
  cbn [escapeHtmlStr].
  destruct (Ascii.eqb c "&") eqn:E1;
    [apply Ascii.eqb_eq in E1; subst c; simpl; rewrite prefix_empty; now rewrite IH|].
  destruct (Ascii.eqb c "<") eqn:E2;
    [apply Ascii.eqb_eq in E2; subst c; simpl; rewrite prefix_empty; now rewrite IH|].
  destruct (Ascii.eqb c ">") eqn:E3;
    [apply Ascii.eqb_eq in E3; subst c; simpl; rewrite prefix_empty; now rewrite IH|].
  destruct (Ascii.eqb c dquoteChar) eqn:E4;
    [apply Ascii.eqb_eq in E4; subst c; simpl; rewrite prefix_empty; now rewrite IH|].
  destruct (Ascii.eqb c "'") eqn:E5;
    [apply Ascii.eqb_eq in E5; subst c; simpl; rewrite prefix_empty; now rewrite IH|].
  apply Ascii.eqb_neq in E1.
  cbn [String.append decodeEntities String.prefix].
  destruct (ascii_dec "&" c) as [e|_]; [now symmetry in e|]. now rewrite IH.
Qed.

(** *** What [encodeURIComponent] writes *)

Lemma hexDigit_plain (k : N) : (k < 16)%N -> uriUnreserved (hexDigit k) = true.
Proof.
  intros Hk.
  assert (k = 0 \/ k = 1 \/ k = 2 \/ k = 3 \/ k = 4 \/ k = 5 \/ k = 6 \/ k = 7 \/ k = 8
          \/ k = 9 \/ k = 10 \/ k = 11 \/ k = 12 \/ k = 13 \/ k = 14 \/ k = 15)%N as H by lia.
  repeat (destruct H as [->|H]; [reflexivity|]). now subst k.
Qed.

Lemma percentByte_alphabet (n : N) : (n < 256)%N -> Forall uriChar (chars (percentByte n)).
Proof.
  intros Hn. unfold percentByte, chars. cbn [list_ascii_of_string].
  apply Forall_cons_2; [|apply Forall_cons_2; [|apply Forall_cons_2; [|constructor]]].
  - now right.
  - left. apply hexDigit_plain. apply N.Div0.div_lt_upper_bound. lia.
  - left. apply hexDigit_plain. apply N.mod_lt. lia.
Qed.

Lemma encodeURIComponent_alphabet (s : string) :
  Forall uriChar (chars (encodeURIComponent s)).
Proof.
  induction s as [|c r IH]; [constructor|].
  cbn [encodeURIComponent]. cbv zeta. rewrite chars_app. apply Forall_app_2; [|exact IH].
  destruct (uriUnreserved c) eqn:Ec; [apply Forall_cons_2; [now left | constructor]|].
  pose proof (N_ascii_bounded c) as Hc.
  destruct (N_of_ascii c <? 128)%N eqn:E128.
  - apply percentByte_alphabet. lia.
  - rewrite chars_app. apply Forall_app_2; apply percentByte_alphabet.
    + assert (N_of_ascii c / 64 < 4)%N by (apply N.Div0.div_lt_upper_bound; lia). lia.
    + assert (N_of_ascii c mod 64 < 64)%N by (apply N.mod_lt; lia). lia.
Qed.

Lemma uriChar_not (c x : ascii) :
  uriUnreserved x = false -> x <> "%"%char -> uriChar c -> c <> x.
Proof. intros Hx Hp [Hc|Hc] ->; congruence. Qed.

Lemma encoded_without (x : ascii) (s : string) :
  uriUnreserved x = false -> x <> "%"%char -> x ∉ chars (encodeURIComponent s).
Proof.
  intros Hx Hp Hin. pose proof (encodeURIComponent_alphabet s) as H.
  rewrite Forall_forall in H. exact (uriChar_not _ x Hx Hp (H _ Hin) eq_refl).
Qed.

(** *** Splitting and joining *)

Lemma splitFrom_app (sep : ascii) (a : string) :
  forall part s, sep ∉ chars a ->
  splitFrom sep part (a ++ s) = splitFrom sep (part ++ a) s.
Proof.
  induction a as [|c a IH]; intros part s Ha.
  - now rewrite append_empty_r.
  - cbn [String.append splitFrom].
    destruct (Ascii.eqb c sep) eqn:E.
    + apply Ascii.eqb_eq in E. subst c. exfalso. apply Ha. unfold chars. simpl. left.
    + rewrite IH.
      * now rewrite append_assoc.
      * intros H. apply Ha. unfold chars in *. simpl. now right.
Qed.

Lemma splitFrom_plain (sep : ascii) (part a : string) :
  sep ∉ chars a -> splitFrom sep part a = [part ++ a].
Proof.
  intros Ha. rewrite <- (append_empty_r a) at 1. now rewrite splitFrom_app.
Qed.

Lemma splitFrom_sep (sep : ascii) (part s : string) :
  splitFrom sep part (String sep s) = part :: splitFrom sep "" s.
Proof. cbn [splitFrom]. now rewrite Ascii.eqb_refl. Qed.

Lemma jsSplit_join (sep : ascii) (parts : list string) :
  parts <> [] -> Forall (fun p => sep ∉ chars p) parts ->
  jsSplit sep (join (String sep "") parts) = parts.
Proof.
  unfold jsSplit. induction parts as [|p rest IH]; intros Hne Hp; [congruence|].
  apply Forall_cons_1 in Hp as [Hp Hrest].
  destruct rest as [|p' rest].
  - cbn [join]. now apply splitFrom_plain.
  - change (join (String sep "") (p :: p' :: rest))
      with (p ++ String sep (join (String sep "") (p' :: rest))).
    rewrite splitFrom_app by exact Hp. rewrite splitFrom_sep.
    cbn [String.append]. f_equal. apply IH; [discriminate | exact Hrest].
Qed.

Lemma join_starts (sep : ascii) (c : ascii) (p : string) (rest : list string) :
  exists tail, join (String sep "") (String c p :: rest) = String c tail.
Proof. destruct rest; cbn [join String.append]; eauto. Qed.

Lemma chars_join (P : ascii -> Prop) (sep : string) (parts : list string) :
  Forall P (chars sep) -> Forall (fun p => Forall P (chars p)) parts ->
  Forall P (chars (join sep parts)).
Proof.
  intros Hsep. induction parts as [|p rest IH]; intros Hp; [constructor|].
  apply Forall_cons_1 in Hp as [Hp Hrest].
  destruct rest as [|p' rest]; [exact Hp|].
  change (join sep (p :: p' :: rest)) with (p ++ sep ++ join sep (p' :: rest)).
  rewrite !chars_app. repeat apply Forall_app_2; auto.
Qed.

(** X3: a link made by [buildPaginationUrl] can be taken apart again.
    With keys that hold no [&] and no [=], the link is the base address
    alone when no value is set; otherwise it is the base address, a
    question mark and a query string which, split at [&] and then at [=],
    gives back exactly the keys that have a value, in their order, each
    with its own encoded value: no value adds or changes a parameter. *)
Theorem link_parameters_read_back (baseUrl : string) (params : list (string * JsVal)) :
  Forall plainKey (map fst params) ->
  match carried params with
  | [] => buildPaginationUrl baseUrl params = baseUrl
  | pairs =>
      exists queryString,
        buildPaginationUrl baseUrl params = baseUrl ++ "?" ++ queryString
        /\ map (jsSplit "=") (jsSplit "&" queryString) = pairs
  end.
Proof.
  intros Hkeys. unfold carried, buildPaginationUrl, queryStringOf.
  assert (Hset : Forall (fun kv : string * JsVal => plainKey (fst kv))
                   (filter (fun kv : string * JsVal => truthyV (snd kv) = true) params)).
  { apply Forall_forall. intros kv Hkv. apply list_elem_of_filter in Hkv as [_ Hkv].
    rewrite Forall_forall in Hkeys. apply Hkeys. now apply list_elem_of_fmap_2. }
  destruct (filter _ params) as [|kv set] eqn:Eset.
  - cbn [map join]. cbn. apply append_empty_r.
  - set (render := fun kv : string * JsVal =>
                     fst kv ++ "=" ++ encodeURIComponent (jsString (snd kv))).
    assert (Hne : String.eqb (join "&" (map render (kv :: set))) "" = false).
    { cbn [map].
      assert (exists c t, render kv = String c t) as (c & t & ->).
      { unfold render. destruct (fst kv); cbn [String.append]; eauto. }
      destruct (join_starts "&" c t (map render set)) as [tail ->]. reflexivity. }
    rewrite Hne. cbn [negb].
    assert (Hl : kv :: set <> []) by discriminate.
    revert Hset Hl. generalize (kv :: set) as l. intros l Hset Hl.
    destruct (map _ l) as [|pair pairs] eqn:Epairs;
      [destruct l; [congruence | discriminate]|].
    rewrite <- Epairs. clear Epairs pair pairs.
    exists (join "&" (map render l)). split; [reflexivity|].
    rewrite jsSplit_join.
    + rewrite map_map. apply map_ext_in. intros [k v] Hin. unfold render. cbn [fst snd].
      rewrite Forall_forall in Hset. apply list_elem_of_In in Hin.
      destruct (Hset _ Hin) as [_ Heq]. cbn [fst] in Heq.
      unfold jsSplit. rewrite splitFrom_app by exact Heq. cbn [String.append].
      rewrite splitFrom_sep. f_equal. apply splitFrom_plain.
      apply encoded_without; [reflexivity | discriminate].
    + destruct l; [congruence | discriminate].
    + apply Forall_fmap. eapply Forall_impl; [exact Hset|].
      intros [k v] [Hamp _]. cbn [fst] in Hamp. unfold render, compose. cbn [fst snd].
      rewrite !chars_app. intros Hin.
      apply elem_of_app in Hin as [Hin|Hin]; [now apply Hamp|].
      apply elem_of_app in Hin as [Hin|Hin].
      * apply list_elem_of_singleton in Hin. discriminate.
      * revert Hin. apply encoded_without; [reflexivity | discriminate].
Qed.

Lemma link_parameters_read_back_witness :
  exists queryString,
    buildPaginationUrl "/xig/resources" sampleLinkParams
    = "/xig/resources" ++ "?" ++ queryString
    /\ map (jsSplit "=") (jsSplit "&" queryString)
       = [["realm"; "us"]; ["text"; "a%26b%3Dc"]; ["offset"; "200"]].
Proof.
  refine (link_parameters_read_back "/xig/resources" sampleLinkParams _).
  repeat (apply Forall_cons_2; [split; compute_done|]). apply Forall_nil_2.
Defined.

(** *** The links of the summary *)

Lemma paramEntries_keys (q : QueryParams) (kv : string * JsVal) :
  kv ∈ paramEntries q -> fst kv ∈ paramNames.
Proof.
  unfold paramEntries. intros H. apply list_elem_of_omap in H as ([k v] & Hin & Hkv).
  cbn [fst snd] in Hkv. destruct v as [s|]; [|discriminate]. injection Hkv as <-.
  cbn [fst]. unfold paramNames.
  repeat (apply elem_of_cons in Hin as [Hin|Hin];
          [injection Hin as -> _; compute_done|]).
  inversion Hin.
Qed.

Lemma spreadWith_keys (key : string) (value : JsVal) (entries : list (string * JsVal))
    (kv : string * JsVal) :
  kv ∈ spreadWith key value entries -> fst kv = key \/ kv ∈ entries.
Proof.
  induction entries as [|[k v] rest IH]; cbn [spreadWith]; intros H.
  - apply list_elem_of_singleton in H. subst kv. now left.
  - destruct (String.eqb k key).
    + apply elem_of_cons in H as [->|H]; [now left|]. right. now right.
    + apply elem_of_cons in H as [->|H]; [right; left|].
      destruct (IH H) as [?|?]; [now left|]. right. now right.
Qed.

Lemma buildLinkUrl_spread (key baseUrl : string) (q : QueryParams) (value : JsVal) :
  buildLinkUrl key baseUrl q value
  = buildPaginationUrl baseUrl (spreadWith key value (paramEntries q)).
Proof. reflexivity. Qed.

Lemma buildPaginationUrl_without (x : ascii) (baseUrl : string)
    (params : list (string * JsVal)) :
  uriUnreserved x = false -> x ∉ chars "%&=?" ->
  x ∉ chars baseUrl -> Forall (fun kv : string * JsVal => x ∉ chars (fst kv)) params ->
  x ∉ chars (buildPaginationUrl baseUrl params).
Proof.
  intros Hx Hpunct Hbase Hkeys. unfold buildPaginationUrl, queryStringOf.
  assert (Hp : x <> "%"%char /\ x <> "&"%char /\ x <> "="%char /\ x <> "?"%char).
  { repeat split; intros ->; apply Hpunct; compute_done. }
  destruct Hp as (Hp & Ha & He & Hq).
  set (qs := join "&" _).
  assert (Hqs : Forall (fun c => c <> x) (chars qs)).
  { apply chars_join; [repeat constructor; congruence|].
    apply Forall_fmap. apply Forall_forall. intros [k v] Hkv.
    apply list_elem_of_filter in Hkv as [_ Hkv].
    rewrite Forall_forall in Hkeys. specialize (Hkeys _ Hkv). cbn [fst] in Hkeys.
    unfold compose. cbn [fst snd]. rewrite !chars_app.
    repeat apply Forall_app_2.
    - apply Forall_forall. intros c Hc ->. now apply Hkeys.
    - repeat constructor; congruence.
    - eapply Forall_impl; [apply encodeURIComponent_alphabet|].
      intros c Hc. now apply (uriChar_not c x). }
  rewrite chars_app. intros Hin. apply elem_of_app in Hin as [Hin|Hin]; [now apply Hbase|].
  destruct (negb _); [|inversion Hin].
  rewrite chars_app in Hin. apply elem_of_app in Hin as [Hin|Hin].
  - apply list_elem_of_singleton in Hin. congruence.
  - rewrite Forall_forall in Hqs. now apply (Hqs _ Hin).
Qed.

(** X4: the address of a summary link never holds a double quote.  The
    code writes the address between double quotes in [href] without
    escaping it (lines 716, 751, 787); whatever the facet values of the
    request and the value the link narrows to, the address closes no
    attribute, when the base address and the key hold no double quote
    themselves. *)
Theorem link_never_closes_its_attribute (key baseUrl : string) (q : QueryParams)
    (value : JsVal) :
  dquoteChar ∉ chars baseUrl -> dquoteChar ∉ chars key ->
  dquoteChar ∉ chars (buildLinkUrl key baseUrl q value).
Proof.
  intros Hbase Hkey. rewrite buildLinkUrl_spread.
  apply buildPaginationUrl_without; [reflexivity | compute_done | exact Hbase |].
  apply Forall_forall. intros kv Hkv.
  destruct (spreadWith_keys _ _ _ _ Hkv) as [->|Hin]; [exact Hkey|].
  apply paramEntries_keys in Hin. unfold paramNames in Hin.
  repeat (apply elem_of_cons in Hin as [->|Hin]; [compute_done|]). inversion Hin.
Qed.

Lemma link_never_closes_its_attribute_witness :
  dquoteChar ∉ chars
    (buildRealmLinkUrl "/xig/resources"
       {| ver := Some "R4"; auth := None; realm := None; type := None; rt := None;
          text := Some (dquote ++ "><script>"); offset := None |}
       (VStr ("u" ++ dquote ++ "s"))).
Proof.
  apply (link_never_closes_its_attribute "realm" "/xig/resources"); compute_done.
Defined.

(** ** The tables of the cache and their readers *)

Lemma elem_of_setAdd (v x : JsVal) (s : list JsVal) : x ∈ setAdd v s <-> x = v \/ x ∈ s.
Proof.
  unfold setAdd, setHas. case_bool_decide as Hin.
  - split; [now right|]. intros [->|H]; assumption.
  - rewrite elem_of_app, list_elem_of_singleton. tauto.
Qed.

Lemma forEach_app {S : Type} (f : S -> Row -> string + S) (a b : list Row) :
  forall s,
  forEach f (a ++ b)%list s
  = match forEach f a s with
    | inl failure => inl failure
    | inr s' => forEach f b s'
    end.
Proof.
  induction a as [|row a IH]; intros s; [reflexivity|].
  cbn [forEach app]. destruct (f s row) as [message|s']; [reflexivity | apply IH].
Qed.

Lemma elem_of_insertSorted (v x : JsVal) (l : list JsVal) :
  x ∈ insertSorted v l <-> x = v \/ x ∈ l.
Proof.
  induction l as [|y l IH]; cbn [insertSorted].
  - rewrite list_elem_of_singleton. rewrite elem_of_nil. tauto.
  - destruct (sortsBefore v y).
    + rewrite elem_of_cons. tauto.
    + rewrite !elem_of_cons, IH. tauto.
Qed.

Lemma elem_of_sortArray (x : JsVal) (l : list JsVal) : x ∈ sortArray l <-> x ∈ l.
Proof.
  unfold sortArray.
  assert (H : forall sorted, x ∈ foldl (fun sorted v => insertSorted v sorted) sorted l
                             <-> x ∈ sorted \/ x ∈ l).
  { induction l as [|y l IH]; intros sorted; cbn [foldl].
    - rewrite elem_of_nil. tauto.
    - rewrite IH, elem_of_insertSorted, elem_of_cons. tauto. }
  rewrite H, elem_of_nil. tauto.
Qed.

(** X5: for every state of the cache and every table name, a string is
    among the values [getCachedSet] returns for the table exactly when
    [hasCachedValue] answers true for it.  Both give nothing for a cache
    that is not loaded, for a table that is missing and for a table that is
    a [Map]; for a [Set], sorting its elements drops none and adds none. *)
Theorem listed_values_are_the_accepted (c : Cache) (tableName value : string) :
  VStr value ∈ getCachedSet c tableName <-> hasCachedValue c tableName value = true.
Proof.
  unfold getCachedSet, getCachedTable, hasCachedValue.
  destruct (negb (loaded c)); [rewrite elem_of_nil; split; [tauto | discriminate]|].
  destruct (maps c !! tableName) as [[elems|entries]|].
  - rewrite elem_of_sortArray. unfold setHas. now rewrite bool_decide_eq_true.
  - rewrite elem_of_nil; split; [tauto | discriminate].
  - rewrite elem_of_nil; split; [tauto | discriminate].
Qed.

(** *** Realms *)

Lemma addRealm_loop (rows : list Row) :
  forall s realms,
  forEach addRealm rows s = inr realms ->
  forall v, v ∈ realms
            <-> v ∈ s \/ exists code, v = VStr code /\ (String.length code <= 3)%nat
                                      /\ VStr code ∈ column "Code" rows.
Proof.
  induction rows as [|row rows IH]; intros s realms H v.
  - injection H as <-. split; [now left|]. intros [?|(code & _ & _ & Hin)]; [assumption|].
    inversion Hin.
  - cbn [forEach] in H. unfold addRealm in H at 1.
    unfold column. cbn [map]. fold (column "Code" rows).
    destruct (field row "Code") as [| |z|code] eqn:Ecode; try discriminate.
    + rewrite (IH _ _ H). split.
      * intros [?|(code & -> & Hlen & Hin)]; [now left|]. right. exists code.
        repeat split; try assumption. now right.
      * intros [?|(code & -> & Hlen & Hin)]; [now left|]. right. exists code.
        repeat split; try assumption. apply elem_of_cons in Hin as [?|?]; [discriminate|].
        assumption.
    + rewrite (IH _ _ H). destruct (String.length code <=? 3)%nat eqn:Elen.
      * apply Nat.leb_le in Elen. rewrite elem_of_setAdd. split.
        -- intros [[->|?]|(code' & -> & Hlen & Hin)].
           ++ right. exists code. repeat split; [assumption | now left].
           ++ now left.
           ++ right. exists code'. repeat split; [assumption | now right].
        -- intros [?|(code' & -> & Hlen & Hin)]; [left; now right|].
           apply elem_of_cons in Hin as [Heq|?].
           ++ left. left. exact Heq.
           ++ right. exists code'. repeat split; assumption.
      * apply Nat.leb_gt in Elen. split.
        -- intros [?|(code' & -> & Hlen & Hin)]; [now left|]. right. exists code'.
           repeat split; [assumption | now right].
        -- intros [?|(code' & -> & Hlen & Hin)]; [now left|].
           apply elem_of_cons in Hin as [Heq|?].
           ++ injection Heq as ->. lia.
           ++ right. exists code'. repeat split; assumption.
Qed.

(** *** Packages *)

Lemma mapGet_mapSet (k k' : JsVal) (v : MapVal) (m : list (JsVal * MapVal)) :
  mapGet k' (mapSet k v m) = if bool_decide (k = k') then Some v else mapGet k' m.
Proof.
  induction m as [|[x y] m IH]; cbn [mapSet mapGet]; [reflexivity|].
  destruct (decide (x = k)) as [->|Hx].
  - rewrite (bool_decide_eq_true_2 (k = k)) by reflexivity. cbn [mapGet].
    destruct (bool_decide (k = k')); reflexivity.
  - rewrite (bool_decide_eq_false_2 (x = k)) by assumption. cbn [mapGet]. rewrite IH.
    destruct (decide (x = k')) as [->|Hx'].
    + rewrite (bool_decide_eq_true_2 (k' = k')) by reflexivity.
      now rewrite (bool_decide_eq_false_2 (k = k')) by congruence.
    + now rewrite (bool_decide_eq_false_2 (x = k')) by assumption.
Qed.

Lemma mapGet_elem (k : JsVal) (v : MapVal) (m : list (JsVal * MapVal)) :
  mapGet k m = Some v -> (k, v) ∈ m.
Proof.
  induction m as [|[x y] m IH]; cbn [mapGet]; [discriminate|].
  case_bool_decide as Hx.
  - intros [= ->]. subst x. left.
  - intros H. right. now apply IH.
Qed.

Lemma Forall_mapSet (P : JsVal * MapVal -> Prop) (k : JsVal) (v : MapVal)
    (m : list (JsVal * MapVal)) :
  P (k, v) -> Forall P m -> Forall P (mapSet k v m).
Proof.
  intros Hkv. induction m as [|[x y] m IH]; intros Hm; cbn [mapSet].
  - now constructor.
  - apply Forall_cons_1 in Hm as [Hx Hm]. case_bool_decide; constructor; auto.
Qed.

Lemma replaceHash_plain (s : string) : "#"%char ∉ chars (replaceHash s).
Proof.
  induction s as [|c s IH]; [apply not_elem_of_nil|].
  cbn [replaceHash]. unfold chars in *. cbn [list_ascii_of_string].
  apply not_elem_of_cons. split; [|exact IH].
  destruct (Ascii.eqb c "#") eqn:E; [discriminate|]. apply Ascii.eqb_neq in E. congruence.
Qed.

Lemma replaceHash_idempotent (s : string) : replaceHash (replaceHash s) = replaceHash s.
Proof.
  induction s as [|c s IH]; [reflexivity|]. cbn [replaceHash]. rewrite IH. f_equal.
  destruct (Ascii.eqb c "#") eqn:E; [reflexivity | now rewrite E].
Qed.

Lemma replaceHash_replacePipe (s : string) :
  replaceHash (replacePipe (replaceHash s)) = replaceHash s.
Proof.
  induction s as [|c s IH]; [reflexivity|]. cbn [replaceHash replacePipe]. rewrite IH.
  f_equal. destruct (Ascii.eqb c "#") eqn:E; [reflexivity|].
  destruct (Ascii.eqb c "|") eqn:E'; [now apply Ascii.eqb_eq in E' | now rewrite E].
Qed.

Lemma replacePipe_plain (s : string) :
  "#"%char ∉ chars (replacePipe s) -> replacePipe s = s.
Proof.
  induction s as [|c s IH]; [reflexivity|]. cbn [replacePipe]. unfold chars in *.
  cbn [list_ascii_of_string]. intros H. apply not_elem_of_cons in H as [Hc Hs].
  rewrite IH by exact Hs. destruct (Ascii.eqb c "|"); [congruence | reflexivity].
Qed.

Lemma replaceHash_nonempty (s : string) : s <> "" -> truthyV (VStr (replaceHash s)) = true.
Proof. destruct s; [congruence | reflexivity]. Qed.

(** What the loop of lines 1421-1440 keeps true of the entries of
    [packagesById], and that the identifier of every row has one. *)
Lemma addPackage_loop (rows : list Row) :
  forall ms packages byId,
  let entry (kv : JsVal * MapVal) :=
    exists key package found,
      kv = (VStr key, MPkg package) /\ PID package = VStr found /\ replaceHash found = key in
  forEach addPackage rows ms = inr (packages, byId) ->
  Forall entry (snd ms) ->
  Forall entry byId
  /\ forall key, (is_Some (mapGet (VStr key) (snd ms))
                  \/ exists row pid, row ∈ rows /\ field row "PID" = VStr pid /\ pid <> ""
                                     /\ key = replaceHash pid) ->
                 is_Some (mapGet (VStr key) byId).
Proof.
  induction rows as [|row rows IH]; intros ms packages byId entry H Hms.
  - injection H as H. subst ms. cbn [snd] in *. split; [exact Hms|].
    intros key [?|(row & pid & Hin & _)]; [assumption | inversion Hin].
  - cbn [forEach] in H. unfold addPackage in H at 1.
    destruct (truthyV (field row "PID")) eqn:Etruthy.
    + destruct (field row "PID") as [| |z|pid] eqn:Epid; try discriminate.
      assert (Hpid : pid <> "") by (intros ->; discriminate).
      rewrite (replaceHash_nonempty pid Hpid) in H.
      apply IH in H as [Hall Hsome].
      * split; [exact Hall|]. intros key Hkey. apply Hsome. cbn [snd].
        rewrite mapGet_mapSet. case_bool_decide as Hk; [left; eauto|].
        destruct Hkey as [?|(row' & pid' & Hin & Hf & Hne & ->)]; [now left|].
        apply elem_of_cons in Hin as [->|Hin].
        -- exfalso. apply Hk. congruence.
        -- right. eauto 10.
      * cbn [snd]. apply Forall_mapSet; [|exact Hms].
        eexists _, _, pid. repeat split.
    + apply IH in H as [Hall Hsome]; [|exact Hms].
      split; [exact Hall|]. intros key Hkey. apply Hsome. cbn [snd].
      destruct Hkey as [?|(row' & pid' & Hin & Hf & Hne & ->)]; [now left|].
      apply elem_of_cons in Hin as [->|Hin].
      * rewrite Hf in Etruthy. destruct pid'; [congruence | discriminate].
      * right. eauto 10.
Qed.

(** The lookup of [getPackageByPid] for the identifier of a row, as a
    link spells it and the route reads it. *)
Lemma package_lookup (rows : list Row) (packages byId : list (JsVal * MapVal))
    (c : Cache) (row : Row) (pid : string) :
  forEach addPackage rows ([], []) = inr (packages, byId) ->
  loaded c = true -> maps c !! "packagesById" = Some (TMap byId) ->
  row ∈ rows -> field row "PID" = VStr pid -> pid <> "" ->
  exists package found,
    getPackageByPid c (replacePipe (replaceHash pid)) = inr (MPkg package)
    /\ PID package = VStr found /\ replaceHash found = replaceHash pid.
Proof.
  intros H Hloaded Htable Hin Hpid Hne.
  destruct (addPackage_loop rows ([], []) packages byId H) as [Hall Hsome];
    [constructor|].
  assert (Hfound : forall key v,
            mapGet (VStr key) byId = Some v ->
            exists package found,
              v = MPkg package /\ PID package = VStr found /\ replaceHash found = key).
  { intros key v Hv. apply mapGet_elem in Hv. rewrite Forall_forall in Hall.
    destruct (Hall _ Hv) as (key' & package & found & [= -> ->] & Hp & Hk). eauto. }
  unfold getPackageByPid. rewrite Hloaded, Htable. cbn [negb]. cbv zeta.
  unfold mapGetValue.
  destruct (mapGet (VStr (replacePipe (replaceHash pid))) byId) as [v|] eqn:Efirst.
  - destruct (Hfound _ _ Efirst) as (package & found & -> & Hp & Hk).
    cbn [default truthyM]. exists package, found. repeat split; [exact Hp|].
    rewrite Hk. apply replacePipe_plain. rewrite <- Hk. apply replaceHash_plain.
  - cbn [default truthyM truthyV]. rewrite replaceHash_replacePipe.
    destruct (Hsome (replaceHash pid)) as [v Hv]; [right; eauto 10|].
    rewrite Hv. destruct (Hfound _ _ Hv) as (package & found & -> & Hp & Hk).
    cbn [default truthyM]. eauto.
Qed.

(** Every package of the table indexed by key was made of a row. *)
Lemma addPackage_rows (all rows : list Row) :
  forall ms packages byId,
  let made (kv : JsVal * MapVal) :=
    exists package row, snd kv = MPkg package /\ row ∈ all
                        /\ PID package = field row "PID" in
  (forall row, row ∈ rows -> row ∈ all) ->
  forEach addPackage rows ms = inr (packages, byId) ->
  Forall made (fst ms) -> Forall made packages.
Proof.
  induction rows as [|row rows IH]; intros ms packages byId made Hsub H Hms.
  - injection H as H. subst ms. exact Hms.
  - cbn [forEach] in H. unfold addPackage in H at 1.
    assert (Hrow : made (field row "PackageKey",
                          MPkg {| PackageKey := field row "PackageKey"; Id := field row "Id";
                                  PID := field row "PID"; Web := field row "Web";
                                  Canonical := field row "Canonical" |})).
    { eexists _, row. repeat split. apply Hsub. left. }
    assert (Hrest : forall r, r ∈ rows -> r ∈ all) by (intros r Hr; apply Hsub; now right).
    destruct (truthyV (field row "PID")).
    + destruct (field row "PID") as [| |z|pid]; try discriminate.
      apply (IH _ _ _ Hrest) in H; [exact H|]. cbn [fst]. now apply Forall_mapSet.
    + apply (IH _ _ _ Hrest) in H; [exact H|]. cbn [fst]. now apply Forall_mapSet.
Qed.

Lemma addCode_loop (rows : list Row) :
  forall s codes,
  forEach addCode rows s = inr codes ->
  forall v, v ∈ codes <-> v ∈ s \/ v ∈ column "Code" rows.
Proof.
  induction rows as [|row rows IH]; intros s codes H v.
  - injection H as <-. unfold column. cbn [map]. rewrite elem_of_nil. tauto.
  - cbn [forEach] in H. unfold addCode in H at 1. rewrite (IH _ _ H).
    unfold column. cbn [map]. rewrite elem_of_setAdd, elem_of_cons. tauto.
Qed.

(** *** Metadata *)

Lemma addMetadata_loop (key : JsVal) (rows : list Row) :
  forall m,
  exists metadata,
    forEach addMetadata rows m = inr metadata
    /\ mapGet key metadata
       = match last (filter (fun row => field row "Name" = key) rows) with
         | Some row => Some (MJs (field row "Value"))
         | None => mapGet key m
         end.
Proof.
  induction rows as [|row rows IH]; intros m.
  - exists m. split; reflexivity.
  - cbn [forEach]. unfold addMetadata at 1.
    destruct (IH (mapSet (field row "Name") (MJs (field row "Value")) m))
      as (metadata & -> & Hget).
    exists metadata. split; [reflexivity|]. rewrite Hget, mapGet_mapSet.
    destruct (decide (field row "Name" = key)) as [Heq|Hne].
    + rewrite filter_cons_True by exact Heq. rewrite last_cons.
      rewrite bool_decide_eq_true_2 by exact Heq. now destruct (last _).
    + rewrite filter_cons_False by exact Hne.
      now rewrite bool_decide_eq_false_2 by exact Hne.
Qed.

(** ** What a rebuild that ends well has read *)

Lemma bind_done {A B} (m : Async string A) (f : A -> Async string B) (w after : World)
    (outcomes rest : list Outcome) (b : B) :
  consume (bind m f w) outcomes = (Done after b, rest) ->
  exists x a mid,
    consume (m w) outcomes = (Done x a, mid) /\ consume (f a x) mid = (Done after b, rest).
Proof.
  unfold bind. rewrite consume_bind.
  destruct (consume (m w) outcomes) as [[x a|x e|x op k|x] mid]; try discriminate.
  intros H. eauto.
Qed.

Lemma executeQuery_done (sql : string) (w x : World) (outcomes mid : list Outcome)
    (rows : option (list Row)) :
  consume (executeQuery sql w) outcomes = (Done x rows, mid) ->
  exists o, outcomes = o :: mid /\ errOf o = None /\ rows = rowsOf o /\ x = w.
Proof.
  unfold executeQuery, bind at 1, getWorld. cbn [bindTask].
  destruct (xigDb w) as [db|]; [|unfold throw; rewrite consume_throw; discriminate].
  unfold bind, await. cbn [bindTask].
  destruct outcomes as [|o outcomes]; [discriminate|]. cbn [consume].
  destruct (errOf o) as [message|] eqn:Eo.
  - unfold throw. rewrite consume_throw. discriminate.
  - unfold ret. rewrite consume_done. intros [= <- <- <-]. eauto.
Qed.

Lemma forEachRow_done {S} (f : S -> Row -> string + S) (rows : option (list Row)) (s s' : S)
    (w x : World) (outcomes mid : list Outcome) :
  consume (forEachRow f rows s w) outcomes = (Done x s', mid) ->
  exists l, rows = Some l /\ forEach f l s = inr s' /\ x = w /\ mid = outcomes.
Proof.
  unfold forEachRow. destruct rows as [l|];
    [|unfold throw; rewrite consume_throw; discriminate].
  destruct (forEach f l s) as [[message failed]|result] eqn:Ef.
  - unfold throw. rewrite consume_throw. discriminate.
  - unfold ret. rewrite consume_done. intros [= <- <- <-]. eauto.
Qed.

Lemma lengthOf_done (rows : option (list Row)) (n : nat) (w x : World)
    (outcomes mid : list Outcome) :
  consume (lengthOf rows w) outcomes = (Done x n, mid) -> x = w /\ mid = outcomes.
Proof.
  unfold lengthOf. destruct rows as [l|];
    [|unfold throw; rewrite consume_throw; discriminate].
  unfold ret. rewrite consume_done. now intros [= <- _ <-].
Qed.

Lemma log_done (message : string) (w x : World) (outcomes mid : list Outcome) (u : unit) :
  consume (logMessage (E := string) message w) outcomes = (Done x u, mid) ->
  x = addLog message w /\ mid = outcomes.
Proof. rewrite consume_log. now intros [= <- <-]. Qed.

Lemma loadResourceTables_done (n : nat) (newCache c : Cache) (w x : World)
    (outcomes mid : list Outcome) :
  consume (loadResourceTables n newCache w) outcomes = (Done x c, mid) ->
  withResourceTables newCache c.
Proof.
  intros H.
  pose proof (safe_consume (fun _ => True) (withResourceTables newCache) outcomes
                (loadResourceTables n newCache w)) as Hs.
  rewrite H in Hs. simpl in Hs. apply Hs. now apply safely_loadResourceTables.
Qed.

Ltac next_query H o rows :=
  let x := fresh "x" in let a := fresh "a" in let mid := fresh "mid" in
  let H1 := fresh "H" in let E := fresh "E" in
  apply bind_done in H as (x & a & mid & H1 & H);
  apply executeQuery_done in H1 as (o & -> & E & -> & ->);
  destruct (rowsOf o) as [rows|] eqn:?.

Ltac next_loop H result Hloop :=
  let x := fresh "x" in let mid := fresh "mid" in let l := fresh "l" in
  let H1 := fresh "H" in
  apply bind_done in H as (x & result & mid & H1 & H);
  apply forEachRow_done in H1 as (l & [= <-] & Hloop & -> & ->).

Ltac next_length H :=
  let x := fresh "x" in let a := fresh "a" in let mid := fresh "mid" in
  let H1 := fresh "H" in
  apply bind_done in H as (x & a & mid & H1 & H);
  apply lengthOf_done in H1 as (-> & ->).

Ltac next_log H :=
  let x := fresh "x" in let a := fresh "a" in let mid := fresh "mid" in
  let H1 := fresh "H" in
  apply bind_done in H as (x & a & mid & H1 & H);
  apply log_done in H1 as (-> & ->).

Ltac no_rows H :=
  let x := fresh "x" in let a := fresh "a" in let mid := fresh "mid" in
  let H1 := fresh "H" in
  apply bind_done in H as (x & a & mid & H1 & _);
  unfold forEachRow, throw in H1; rewrite consume_throw in H1; discriminate H1.

(** The answers a rebuild that ended well has used for its first four
    queries, the tables made of them, and the kind of the table of the
    terminology sources. *)
Lemma buildNewCache_done (w after : World) (outcomes rest : list Outcome) (c : Cache) :
  consume (buildNewCache w) outcomes = (Done after c, rest) ->
  exists metadataAnswer realmAnswer authAnswer packageAnswer more
         metadataRows realmRows authRows packageRows
         metadata realms authorities packages packagesById txSources,
    outcomes = metadataAnswer :: realmAnswer :: authAnswer :: packageAnswer :: more
    /\ rowsOf metadataAnswer = Some metadataRows /\ rowsOf realmAnswer = Some realmRows
    /\ rowsOf authAnswer = Some authRows /\ rowsOf packageAnswer = Some packageRows
    /\ forEach addMetadata metadataRows [] = inr metadata
    /\ forEach addRealm realmRows [] = inr realms
    /\ forEach addCode authRows [] = inr authorities
    /\ forEach addPackage packageRows ([], []) = inr (packages, packagesById)
    /\ loaded c = true
    /\ maps c !! "metadata" = Some (TMap metadata)
    /\ maps c !! "realms" = Some (TSet realms)
    /\ maps c !! "authorities" = Some (TSet authorities)
    /\ maps c !! "packages" = Some (TMap packages)
    /\ maps c !! "packagesById" = Some (TMap packagesById)
    /\ maps c !! "txSources" = Some (TMap txSources).
Proof.
  intros H. unfold buildNewCache in H.
  apply bind_done in H as (x0 & w0 & mid0 & H0 & H).
  unfold getWorld in H0. rewrite consume_done in H0. injection H0 as <- <- <-.
  next_log H.
  next_query H metadataAnswer metadataRows; [|no_rows H].
  next_loop H metadata Hmetadata. next_length H. next_log H. next_log H.
  next_query H realmAnswer realmRows; [|no_rows H].
  next_loop H realms Hrealms. next_length H. next_log H. next_log H.
  next_query H authAnswer authRows; [|no_rows H].
  next_loop H authorities Hauthorities. next_length H. next_log H. next_log H.
  next_query H packageAnswer packageRows; [|no_rows H].
  next_loop H packages Hpackages. next_length H. next_log H.
  next_query H tableAnswer tableRows.
  2:{ apply bind_done in H as (? & ? & ? & Hlength & _).
      unfold lengthOf, throw in Hlength. rewrite consume_throw in Hlength.
      discriminate Hlength. }
  next_length H.
  apply bind_done in H as (? & withTables & ? & Htables & H).
  apply loadResourceTables_done in Htables as (t1 & t2 & t3 & ->).
  next_query H contextAnswer contextRows; [|no_rows H].
  next_loop H extensionContexts Hcontexts.
  next_query H typeAnswer typeRows; [|no_rows H].
  next_loop H extensionTypes Htypes.
  next_query H sourceAnswer sourceRows; [|no_rows H].
  next_loop H txSources Hsources.
  unfold ret in H. rewrite consume_done in H. injection H as <- <- <-.
  destruct packages as [packages packagesById].
  exists metadataAnswer, realmAnswer, authAnswer, packageAnswer.
  eexists. exists metadataRows, realmRows, authRows, packageRows.
  exists metadata, realms, authorities, packages, packagesById, txSources.
  repeat split; try assumption; reflexivity.
Qed.

(** X6: the realm bar and the authority bar list what the database
    holds.  When a rebuild has ended well, its second and third answers are
    the rows of the realm and of the authority table, and in the cache it
    returns [getCachedSet('realms')] has exactly the codes of the realm
    rows that are at most three characters long (a longer code is in no
    cache, lines 1402-1406) and [getCachedSet('authorities')] has exactly
    the codes of the authority rows. *)
Theorem bars_list_what_the_tables_hold (w after : World) (outcomes rest : list Outcome)
    (c : Cache) :
  consume (buildNewCache w) outcomes = (Done after c, rest) ->
  exists metadataAnswer realmAnswer authAnswer more realmRows authRows,
    outcomes = metadataAnswer :: realmAnswer :: authAnswer :: more
    /\ rowsOf realmAnswer = Some realmRows /\ rowsOf authAnswer = Some authRows
    /\ (forall v, v ∈ getCachedSet c "realms"
                  <-> exists code, v = VStr code /\ (String.length code <= 3)%nat
                                   /\ VStr code ∈ column "Code" realmRows)
    /\ (forall v, v ∈ getCachedSet c "authorities" <-> v ∈ column "Code" authRows).
Proof.
  intros H. apply buildNewCache_done in H
    as (metadataAnswer & realmAnswer & authAnswer & packageAnswer & more
        & metadataRows & realmRows & authRows & packageRows
        & metadata & realms & authorities & packages & byId & txSources
        & -> & _ & Hrealm & Hauth & _ & _ & Hrealms & Hauthorities & _
        & Hloaded & _ & Trealms & Tauthorities & _).
  exists metadataAnswer, realmAnswer, authAnswer, (packageAnswer :: more), realmRows, authRows.
  split; [reflexivity|]. split; [exact Hrealm|]. split; [exact Hauth|].
  unfold getCachedSet, getCachedTable. rewrite Hloaded, Trealms, Tauthorities. cbn [negb].
  split; intros v; rewrite elem_of_sortArray.
  - rewrite (addRealm_loop realmRows [] realms Hrealms). rewrite elem_of_nil. tauto.
  - rewrite (addCode_loop authRows [] authorities Hauthorities). rewrite elem_of_nil. tauto.
Qed.

Lemma bars_list_what_the_tables_hold_witness :
  exists metadataAnswer realmAnswer authAnswer more realmRows authRows,
    sampleBuildOutcomes = metadataAnswer :: realmAnswer :: authAnswer :: more
    /\ rowsOf realmAnswer = Some realmRows /\ rowsOf authAnswer = Some authRows
    /\ (forall v, v ∈ getCachedSet sampleBuiltCache "realms"
                  <-> exists code, v = VStr code /\ (String.length code <= 3)%nat
                                   /\ VStr code ∈ column "Code" realmRows)
    /\ (forall v, v ∈ getCachedSet sampleBuiltCache "authorities"
                  <-> v ∈ column "Code" authRows).
Proof.
  eapply (bars_list_what_the_tables_hold connectedWorld _ sampleBuildOutcomes []
            sampleBuiltCache).
  vm_compute. reflexivity.
Defined.

(** X7: the link to a package of the cache finds a package again.  A
    package that [getPackage] gives from a cache a rebuild has returned,
    with a non-empty identifier, is linked with the identifier in which
    every [#] is a [|] (line 602); the route turns every [|] into a [#]
    (line 2050), and [getPackageByPid] then finds a package in the table
    indexed by the identifiers with [#] replaced (lines 1436-1439, 2116):
    one whose identifier is written the same way in a link. *)
Theorem package_links_resolve (w after : World) (outcomes rest : list Outcome) (c : Cache)
    (key : JsVal) (package : Package) (pid : string) :
  consume (buildNewCache w) outcomes = (Done after c, rest) ->
  getPackage c key = inr (MPkg package) -> PID package = VStr pid -> pid <> "" ->
  exists found foundPid,
    getPackageByPid c (replacePipe (replaceHash pid)) = inr (MPkg found)
    /\ PID found = VStr foundPid /\ replaceHash foundPid = replaceHash pid.
Proof.
  intros H Hget Hpid Hne. apply buildNewCache_done in H
    as (metadataAnswer & realmAnswer & authAnswer & packageAnswer & more
        & metadataRows & realmRows & authRows & packageRows
        & metadata & realms & authorities & packages & byId & txSources
        & -> & _ & _ & _ & _ & _ & _ & _ & Hpackages
        & Hloaded & _ & _ & _ & Tpackages & TbyId & _).
  assert (Hrow : exists row, row ∈ packageRows /\ field row "PID" = VStr pid).
  { unfold getPackage in Hget. rewrite Hloaded, Tpackages in Hget. cbn [negb] in Hget.
    cbv zeta in Hget. unfold mapGetValue in Hget.
    destruct (mapGet key packages) as [v|] eqn:Ev; [|discriminate].
    cbn [default] in Hget.
    assert (v = MPkg package) as ->.
    { injection Hget as Hv. revert Hv.
      destruct (truthyM v); intros Hv; [exact Hv | discriminate Hv]. }
    apply mapGet_elem in Ev.
    pose proof (addPackage_rows packageRows packageRows ([], []) packages byId
                  (fun _ Hin => Hin) Hpackages (Forall_nil_2 _)) as Hmade.
    rewrite Forall_forall in Hmade.
    destruct (Hmade _ Ev) as (made & row & [= <-] & Hin & Hsame).
    exists row. split; [exact Hin | congruence]. }
  destruct Hrow as (row & Hin & Hfield).
  exact (package_lookup packageRows packages byId c row pid Hpackages Hloaded TbyId Hin
           Hfield Hne).
Qed.

Lemma package_links_resolve_witness :
  exists found foundPid,
    getPackageByPid sampleBuiltCache (replacePipe (replaceHash "hl7.fhir.us.core#7.0.0"))
    = inr (MPkg found)
    /\ PID found = VStr foundPid
    /\ replaceHash foundPid = replaceHash "hl7.fhir.us.core#7.0.0".
Proof.
  eapply (package_links_resolve connectedWorld _ sampleBuildOutcomes [] sampleBuiltCache
            (VNum 2) samplePackage "hl7.fhir.us.core#7.0.0").
  - vm_compute. reflexivity.
  - reflexivity.
  - reflexivity.
  - discriminate.
Defined.

(** X8: [getMetadata] answers from the rows of the metadata table.  When
    a rebuild has ended well, its first answer is the rows of that table,
    and in the cache it returns [getMetadata(key)] is the value of the last
    row with that name, and [undefined] when no row has it: a later row
    replaces an earlier one of the same name (line 1393). *)
Theorem metadata_last_row_wins (w after : World) (outcomes rest : list Outcome) (c : Cache)
    (key : JsVal) :
  consume (buildNewCache w) outcomes = (Done after c, rest) ->
  exists metadataAnswer more metadataRows,
    outcomes = metadataAnswer :: more /\ rowsOf metadataAnswer = Some metadataRows
    /\ getMetadata c key
       = match last (filter (fun row => field row "Name" = key) metadataRows) with
         | Some row => MJs (field row "Value")
         | None => MJs VUndef
         end.
Proof.
  intros H. apply buildNewCache_done in H
    as (metadataAnswer & realmAnswer & authAnswer & packageAnswer & more
        & metadataRows & realmRows & authRows & packageRows
        & metadata & realms & authorities & packages & byId & txSources
        & -> & Hrows & _ & _ & _ & Hmetadata & _ & _ & _
        & Hloaded & Tmetadata & _).
  exists metadataAnswer, (realmAnswer :: authAnswer :: packageAnswer :: more), metadataRows.
  split; [reflexivity|]. split; [exact Hrows|].
  destruct (addMetadata_loop key metadataRows []) as (metadata' & H' & Hget).
  assert (metadata' = metadata) as -> by congruence.
  unfold getMetadata, getCachedValue. rewrite Hloaded, Tmetadata. cbn [negb].
  unfold mapGetValue. rewrite Hget. now destruct (last _).
Qed.

Lemma metadata_last_row_wins_witness :
  exists metadataAnswer more metadataRows,
    sampleBuildOutcomes = metadataAnswer :: more
    /\ rowsOf metadataAnswer = Some metadataRows
    /\ getMetadata sampleBuiltCache (VStr "title")
       = match last (filter (fun row => field row "Name" = VStr "title") metadataRows) with
         | Some row => MJs (field row "Value")
         | None => MJs VUndef
         end.
Proof.
  eapply (metadata_last_row_wins connectedWorld _ sampleBuildOutcomes [] sampleBuiltCache).
  vm_compute. reflexivity.
Defined.

(** X9: in a cache that [buildNewCache] has built, [txSources] is a
    [Map] (line 1495) while [hasTerminologySource] asks [hasCachedValue],
    which answers for a [Set] only (lines 1202-1205).  So no value is a
    terminology source for the filter, the codes of the table included,
    and with the view type [vs] or [cm] the value of [rt] never changes
    the filter: the source chosen in the form of lines 918-937 is not
    applied. *)
Theorem terminology_source_is_never_applied (w after : World)
    (outcomes rest : list Outcome) (c : Cache) (q : QueryParams) (source : string) :
  consume (buildNewCache w) outcomes = (Done after c, rest) ->
  isStr (type q) "vs" = true \/ isStr (type q) "cm" = true ->
  hasTerminologySource c source = false
  /\ buildSqlFilter c (withRt (Some source) q) = buildSqlFilter c (withRt None q).
Proof.
  intros Hbuild Htype.
  assert (Hno : forall code, hasTerminologySource c code = false).
  { intros code. apply buildNewCache_done in Hbuild
      as (metadataAnswer & realmAnswer & authAnswer & packageAnswer & more
          & metadataRows & realmRows & authRows & packageRows
          & metadata & realms & authorities & packages & byId & txSources
          & _ & _ & _ & _ & _ & _ & _ & _ & _ & Hloaded & _ & _ & _ & _ & _ & Tsources).
    unfold hasTerminologySource, hasCachedValue. now rewrite Hloaded, Tsources. }
  split; [apply Hno|].
  unfold buildSqlFilter, filterConjunction. cbn [realm auth ver type rt text withRt].
  assert (Hclause : typeClause c (type q) (Some source) = typeClause c (type q) None).
  { destruct Htype as [Ht|Ht]; apply isStr_eq in Ht; rewrite Ht; unfold typeClause;
      cbn [isStr String.eqb Ascii.eqb Bool.eqb]; cbv iota; rewrite Hno;
      now rewrite andb_false_r. }
  now rewrite Hclause.
Qed.

Lemma terminology_source_is_never_applied_witness :
  hasTerminologySource sampleBuiltCache "loinc" = false
  /\ buildSqlFilter sampleBuiltCache
       {| ver := None; auth := None; realm := None; type := Some "vs"; rt := Some "loinc";
          text := None; offset := None |}
     = buildSqlFilter sampleBuiltCache
         {| ver := None; auth := None; realm := None; type := Some "vs"; rt := None;
            text := None; offset := None |}.
Proof.
  refine (terminology_source_is_never_applied connectedWorld _ sampleBuildOutcomes []
            sampleBuiltCache
            {| ver := None; auth := None; realm := None; type := Some "vs"; rt := None;
               text := None; offset := None |} "loinc" _ _).
  - vm_compute. reflexivity.
  - left. reflexivity.
Defined.

(** ** How the calls end *)

Lemma ends_any {E A} (t : Task E A) : ends (fun _ _ => True) (fun _ _ => True) t.
Proof. induction t as [w a|w e|w op k IH|w]; simpl; auto. Qed.

Lemma ends_weaken {E A} (Q Q' : World -> A -> Prop) (R R' : World -> E -> Prop)
    (t : Task E A) :
  (forall w a, Q w a -> Q' w a) -> (forall w e, R w e -> R' w e) ->
  ends Q R t -> ends Q' R' t.
Proof.
  intros HQ HR. induction t as [w a|w e|w op k IH|w]; simpl; auto.
Qed.

Lemma ends_bindTask {E A B} (Q' : World -> A -> Prop) (Q : World -> B -> Prop)
    (R : World -> E -> Prop) (f : A -> Async E B) (t : Task E A) :
  ends Q' R t -> (forall w a, Q' w a -> ends Q R (f a w)) -> ends Q R (bindTask t f).
Proof.
  intros Ht Hf. induction t as [w a|w e|w op k IH|w]; simpl in *; auto.
Qed.

Lemma ends_catchTask {E E' A} (Q : World -> A -> Prop) (R' : World -> E -> Prop)
    (R : World -> E' -> Prop) (h : E -> Async E' A) (t : Task E A) :
  ends Q R' t -> (forall w e, R' w e -> ends Q R (h e w)) -> ends Q R (catchTask t h).
Proof.
  intros Ht Hh. induction t as [w a|w e|w op k IH|w]; simpl in *; auto.
Qed.

Lemma ends_finallyTask {E A} (Q : World -> A -> Prop) (R : World -> E -> Prop)
    (f : World -> World) (t : Task E A) :
  ends (fun w a => Q (f w) a) (fun w e => R (f w) e) t -> ends Q R (finallyTask t f).
Proof.
  intros Ht. induction t as [w a|w e|w op k IH|w]; simpl in *; auto.
Qed.

(** A [try] whose handler only logs ends without an error, in a state
    reached by the [finally] block's assignment. *)
Lemma guarded_block_ends {A} (t : Task string A) (h : string -> Async string A)
    (f : World -> World) (Q : World -> Prop) :
  (forall w, Q (f w)) -> (forall e w, exists x a, h e w = Done x a) ->
  ends (fun w _ => Q w) (fun _ _ => False) (finallyTask (catchTask t h) f).
Proof.
  intros HQ Hh. apply ends_finallyTask.
  apply (ends_catchTask _ (fun _ _ => True)).
  - eapply ends_weaken; [| |apply ends_any]; simpl; auto.
  - intros w e _. destruct (Hh e w) as (x & a & ->). simpl. apply HQ.
Qed.

(** X10: the promise of [loadConfigCache] is never rejected, from whatever
    state it is called, however its queries end and whatever other calls
    do to the module while it waits: a failure of the rebuild is logged in
    the [catch] block of line 1524.  The [catch] around its call in
    [initializeDatabase] (lines 1546-1550) is therefore never entered. *)
Theorem loadConfigCache_never_rejects (w : World) : neverRejects (loadConfigCache w).
Proof.
  unfold neverRejects, loadConfigCache, bind at 1, getWorld. cbn [bindTask].
  destruct (cacheLoadInProgress w); [exact I|].
  destruct (negb _); [exact I|].
  unfold bind at 1, modify. cbn [bindTask].
  unfold bind at 1, logMessage, modify. cbn [bindTask].
  unfold tryFinally, tryCatch.
  apply (guarded_block_ends _ _ _ (fun _ => True)); [auto|].
  intros e x. eexists _, _. reflexivity.
Qed.

(** X11: a call of [loadConfigCache] that starts a rebuild always gives
    the guard back: however the rebuild ends, and whatever state the other
    calls have left by then, [cacheLoadInProgress] is false when the call
    has ended (the [finally] block of line 1526). *)
Theorem rebuild_releases_guard (w : World) :
  cacheLoadInProgress w = false -> is_Some (xigDb w) ->
  ends (fun x _ => cacheLoadInProgress x = false) (fun _ _ => False) (loadConfigCache w).
Proof.
  intros Hflag Hdb. rewrite (loadConfigCache_building w Hflag Hdb).
  apply (guarded_block_ends _ _ _ (fun x => cacheLoadInProgress x = false)); [auto|].
  intros e x. eexists _, _. reflexivity.
Qed.

Lemma rebuild_releases_guard_witness :
  ends (fun x _ => cacheLoadInProgress x = false) (fun _ _ => False)
    (loadConfigCache connectedWorld).
Proof.
  apply (rebuild_releases_guard connectedWorld); [reflexivity | eexists; reflexivity].
Defined.


(** ** The download *)

Lemma attemptDownload_next (destination : string) (maxRedirects n : nat) (url : string)
    (w : World) :
  exists k,
    attemptDownload destination maxRedirects (S n) url w = Await w (HttpGet url) k
    /\ forall o w',
         k o w'
         = match o with
           | OResponse statusCode location body =>
               if (300 <=? statusCode)%Z && (statusCode <? 400)%Z && truthy location then
                 attemptDownload destination maxRedirects n (str location)
                   (addLog ("Redirect " ++ numStr statusCode ++ " to: " ++ str location) w')
               else if negb (statusCode =? 200)%Z then
                 Throw w' ("Download failed with status code: " ++ numStr statusCode)
               else
                 match body with
                 | Finished data =>
                     Done (addLog ("Download completed successfully. Downloaded "
                                   ++ natStr (String.length data) ++ " bytes to "
                                   ++ destination)
                             (written destination data w')) tt
                 | FileError message => Throw (unlinkQuietly destination w') message
                 | Aborted message partial => Throw (written destination partial w') message
                 | Stalled partial => Throw (written destination partial w') "Download timeout"
                 | Cut partial => Never (written destination partial w')
                 end
           | OTimeout => Throw w' "Download timeout"
           | OErr message => Throw w' message
           | _ => Throw w' "request failed"
           end.
Proof.
  eexists. split; [reflexivity|]. intros o w'. cbn beta.
  destruct o as [message| |rows|row|statusCode location body|]; try reflexivity.
  cbn [bindTask].
  destruct (_ && truthy location); [reflexivity|].
  destruct (negb _); [reflexivity|]. destruct body; reflexivity.
Qed.

Lemma attemptDownload_ops (destination : string) (maxRedirects n : nat) :
  forall url w outcomes,
  let ops := opsOf (attemptDownload destination maxRedirects n url w) outcomes in
  (length ops <= n)%nat /\ Forall (fun op => exists u, op = HttpGet u) ops.
Proof.
  induction n as [|n IH]; intros url w outcomes; cbv zeta.
  - cbn [attemptDownload]. unfold throw. destruct outcomes; split; simpl; auto.
  - destruct (attemptDownload_next destination maxRedirects n url w) as (k & -> & Hk).
    destruct outcomes as [|o rest]; cbn [opsOf].
    + split; [simpl; lia | repeat constructor; eauto].
    + rewrite Hk.
      assert (Hnone : forall x (e : string),
                (length (opsOf (Throw (A := unit) x e) rest) <= n)%nat
                /\ Forall (fun op => exists u, op = HttpGet u)
                     (opsOf (Throw (A := unit) x e) rest)).
      { intros x e. destruct rest; split; simpl; auto; lia. }
      assert (Horigin : forall ops,
                (length ops <= n)%nat /\ Forall (fun op => exists u, op = HttpGet u) ops ->
                (length (HttpGet url :: ops) <= S n)%nat
                /\ Forall (fun op => exists u, op = HttpGet u) (HttpGet url :: ops)).
      { intros ops [Hl Hf]. split; [simpl; lia | constructor; eauto]. }
      apply Horigin.
      destruct o as [message| |rows|row|statusCode location body|]; try apply Hnone.
      destruct (_ && truthy location); [apply IH|].
      destruct (negb _); [apply Hnone|].
      destruct body; try apply Hnone; destruct rest; split; simpl; auto; lia.
Qed.

(** X13: a download sends at most six requests, whatever the server
    answers: the first one and one for each of at most five redirects
    ([maxRedirects], line 1250); and it starts no other operation. *)
Theorem download_sends_at_most_six_requests (url destination : string) (w : World)
    (outcomes : list Outcome) :
  let ops := opsOf (downloadFile url destination w) outcomes in
  (length ops <= 6)%nat /\ Forall (fun op => exists u, op = HttpGet u) ops.
Proof.
  cbv zeta. unfold downloadFile, bind, logMessage, modify. cbn [bindTask].
  apply attemptDownload_ops.
Qed.

Lemma attemptDownload_redirected (destination : string) (maxRedirects n : nat) :
  forall url w outcomes,
  Forall (fun o => isRedirect o = true) outcomes -> length outcomes = n ->
  exists failed,
    consume (attemptDownload destination maxRedirects n url w) outcomes
    = (Throw failed ("Too many redirects (" ++ natStr maxRedirects ++ ")"), [])
    /\ files failed = files w /\ xigDb failed = xigDb w
    /\ configCache failed = configCache w.
Proof.
  induction n as [|n IH]; intros url w outcomes Hall Hlen.
  - destruct outcomes; [|discriminate]. exists w. repeat split.
  - destruct outcomes as [|o rest]; [discriminate|].
    apply Forall_cons_1 in Hall as [Ho Hrest]. injection Hlen as Hlen.
    destruct (attemptDownload_next destination maxRedirects n url w) as (k & -> & Hk).
    cbn [consume]. rewrite Hk.
    destruct o as [message| |rows|row|statusCode location body|]; try discriminate.
    cbn [isRedirect] in Ho. rewrite Ho.
    destruct (IH (str location)
                (addLog ("Redirect " ++ numStr statusCode ++ " to: " ++ str location) w)
                rest Hrest Hlen) as (failed & -> & Hf & Hd & Hc).
    exists failed. repeat split; assumption.
Qed.

(** X14: when the server answers the first request and each of the five
    that follow with a redirect, the download is rejected with the message
    [Too many redirects (5)] after the sixth answer, and the files, the
    connection and the cache are what they were: nothing was written. *)
Theorem sixth_redirect_is_refused (url destination : string) (w : World)
    (outcomes : list Outcome) :
  Forall (fun o => isRedirect o = true) outcomes -> length outcomes = 6%nat ->
  exists failed,
    consume (downloadFile url destination w) outcomes
    = (Throw failed "Too many redirects (5)", [])
    /\ files failed = files w /\ xigDb failed = xigDb w
    /\ configCache failed = configCache w.
Proof.
  intros Hall Hlen. unfold downloadFile, bind, logMessage, modify. cbn [bindTask].
  apply (attemptDownload_redirected destination 5 6 url (addLog _ w) outcomes Hall Hlen).
Qed.

Lemma sixth_redirect_is_refused_witness :
  exists failed,
    consume (downloadFile XIG_DB_URL tempPath connectedWorld)
      (replicate 6 (OResponse 302 (Some "http://fhir.org/guides/stats/xig.db") (Finished "")))
    = (Throw failed "Too many redirects (5)", [])
    /\ files failed = files connectedWorld /\ xigDb failed = xigDb connectedWorld
    /\ configCache failed = configCache connectedWorld.
Proof.
  apply (sixth_redirect_is_refused XIG_DB_URL tempPath connectedWorld).
  - repeat constructor.
  - reflexivity.
Defined.

Lemma attemptDownload_done (destination : string) (maxRedirects n : nat) :
  forall url w outcomes after rest,
  consume (attemptDownload destination maxRedirects n url w) outcomes
  = (Done after tt, rest) ->
  exists redirects data location,
    outcomes = (redirects ++ OResponse 200 location (Finished data) :: rest)%list
    /\ Forall (fun o => isRedirect o = true) redirects
    /\ (S (length redirects) <= n)%nat
    /\ files after = <[destination := data]> (files w).
Proof.
  induction n as [|n IH]; intros url w outcomes after rest H.
  - cbn [attemptDownload] in H. unfold throw in H. rewrite consume_throw in H.
    discriminate.
  - destruct (attemptDownload_next destination maxRedirects n url w) as (k & Ek & Hk).
    rewrite Ek in H. destruct outcomes as [|o outcomes]; [discriminate|].
    cbn [consume] in H. rewrite Hk in H.
    destruct o as [message| |rows|row|statusCode location body|];
      try (rewrite consume_throw in H; discriminate).
    destruct ((300 <=? statusCode)%Z && (statusCode <? 400)%Z && truthy location) eqn:Er.
    + apply IH in H as (redirects & data & location' & -> & Hred & Hlen & Hfiles).
      exists (OResponse statusCode location body :: redirects), data, location'.
      split; [reflexivity|]. split; [constructor; [exact Er | exact Hred]|].
      split; [simpl; lia | exact Hfiles].
    + destruct (negb (statusCode =? 200)%Z) eqn:Es;
        [rewrite consume_throw in H; discriminate|].
      apply negb_false_iff, Z.eqb_eq in Es. subst statusCode.
      destruct body as [data|message|message partial|partial|partial];
        try (rewrite consume_throw in H; discriminate);
        try (rewrite consume_never in H; discriminate).
      rewrite consume_done in H. injection H as <- <-.
      exists [], data, location. split; [reflexivity|]. split; [constructor|].
      split; [simpl; lia | reflexivity].
Qed.

(** X15: [downloadFile] resolves only after a response with status 200
    whose body was written to the end.  When the call has ended without an
    error, the outcomes it used are redirects, at most five, followed by
    such a response, and the destination holds exactly the data of that
    body, every other file being as it was before the call. *)
Theorem download_resolves_with_the_body (url destination : string) (w after : World)
    (outcomes rest : list Outcome) :
  consume (downloadFile url destination w) outcomes = (Done after tt, rest) ->
  exists redirects data location,
    outcomes = (redirects ++ OResponse 200 location (Finished data) :: rest)%list
    /\ Forall (fun o => isRedirect o = true) redirects
    /\ (length redirects <= 5)%nat
    /\ files after = <[destination := data]> (files w).
Proof.
  unfold downloadFile, bind, logMessage, modify. cbn [bindTask]. intros H.
  apply attemptDownload_done in H as (redirects & data & location & -> & Hred & Hlen & Hfiles).
  exists redirects, data, location. repeat split; try assumption. lia.
Qed.

Lemma download_resolves_with_the_body_witness :
  exists redirects data location,
    redirectedOnce = (redirects ++ OResponse 200 location (Finished data) :: [OOk])%list
    /\ Forall (fun o => isRedirect o = true) redirects
    /\ (length redirects <= 5)%nat
    /\ files (worldOf (fst (consume (downloadFile XIG_DB_URL tempPath connectedWorld)
                              redirectedOnce)))
       = <[tempPath := data]> (files connectedWorld).
Proof.
  apply (download_resolves_with_the_body XIG_DB_URL tempPath connectedWorld).
  vm_compute. reflexivity.
Defined.

(** ** The refresh when the new connection cannot be opened *)



(** The file replacement when nothing is refused. *)
Lemma replaceFile_succeeds (x : World) (data : string) :
  files x !! tempPath = Some data ->
  fsFault x (Unlink XIG_DB_PATH) = None -> fsFault x (Rename tempPath XIG_DB_PATH) = None ->
  exists y,
    replaceFile tempPath x = Done y tt
    /\ files y !! XIG_DB_PATH = Some data /\ files y !! tempPath = None
    /\ xigDb y = xigDb x /\ configCache y = configCache x /\ handles y = handles x
    /\ cacheLoadInProgress y = cacheLoadInProgress x /\ fsFault y = fsFault x.
Proof.
  intros Htemp Hunlink Hrename. unfold replaceFile, bind at 1, getWorld. cbn [bindTask].
  unfold bind.
  assert (Hstep : exists y,
            (if existsSync XIG_DB_PATH x then unlinkSync XIG_DB_PATH else ret tt) x
            = Done y tt
            /\ files y !! tempPath = Some data /\ fsFault y = fsFault x
            /\ xigDb y = xigDb x /\ configCache y = configCache x /\ handles y = handles x
            /\ cacheLoadInProgress y = cacheLoadInProgress x).
  { destruct (existsSync XIG_DB_PATH x) eqn:Ex.
    - unfold unlinkSync. rewrite Hunlink, Ex. eexists. split; [reflexivity|].
      cbn. rewrite lookup_delete_ne by discriminate. repeat split. exact Htemp.
    - exists x. repeat split. exact Htemp. }
  destruct Hstep as (y & -> & Ytemp & Yfault & Ydb & Ycache & Yhandles & Yflag).
  cbn [bindTask]. unfold renameSync. rewrite Yfault, Hrename, Ytemp.
  eexists. split; [reflexivity|]. cbn.
  rewrite lookup_insert_eq, lookup_insert_ne by discriminate.
  rewrite lookup_delete_eq. repeat split; assumption.
Qed.

(** The [try] block of a refresh up to the call of [initializeDatabase],
    when the download, the validation and the file replacement end well. *)
Lemma update_reaches_reopening (w : World) (db : Db) (data : string)
    (opened validated closed : Outcome) (rest : list Outcome)
    (k : unit -> Async string unit) :
  xigDb w = Some db -> errOf opened = None -> errOf validated = None ->
  fsFault w (Unlink XIG_DB_PATH) = None -> fsFault w (Rename tempPath XIG_DB_PATH) = None ->
  exists y,
    consume
      (bindTask (downloadFile XIG_DB_URL tempPath (updateStart w))
         (fun _ =>
            validateDatabaseFile tempPath ;> closeCurrent ;> replaceFile tempPath ;> k tt))
      (OResponse 200 None (Finished data) :: opened :: validated :: closed :: rest)
    = consume (k tt y) rest
    /\ files y !! XIG_DB_PATH = Some data /\ files y !! tempPath = None
    /\ xigDb y = None /\ configCache y = configCache w /\ handles y = S (handles w)
    /\ cacheLoadInProgress y = cacheLoadInProgress w /\ fsFault y = fsFault w.
Proof.
  intros Hdb Ho Hv Hunlink Hrename.
  rewrite consume_bind, download_succeeds. unfold bind at 1.
  rewrite consume_bind, (validate_succeeds _ opened validated (closed :: rest)); [|
    simpl; rewrite lookup_insert_eq; eauto | exact Ho | exact Hv].
  unfold bind at 1. rewrite consume_bind.
  destruct (close_succeeds (setHandles (S (handles (fetched data (updateStart w))))
                              (fetched data (updateStart w))) db closed rest Hdb)
    as (x & -> & (U1 & U2 & U3 & U4 & U5) & Hfiles & Hhandles).
  unfold bind at 1. rewrite consume_bind.
  destruct (replaceFile_succeeds (setXigDb None x) data)
    as (y & -> & Y1 & Y2 & Y3 & Y4 & Y5 & Y6 & Y7).
  { cbn. rewrite Hfiles. cbn. apply lookup_insert_eq. }
  { cbn. rewrite U4. exact Hunlink. }
  { cbn. rewrite U4. exact Hrename. }
  rewrite consume_done. exists y. split; [reflexivity|].
  cbn in *. repeat split; congruence.
Qed.

(** X16: a refresh that has put the new file in place and then cannot
    open it does not retry and does not report the failure to its caller.
    The error of [initializeDatabase] is caught in [updateXigDatabase],
    whose [catch] block opens a connection only when [xigDb] is null (line
    1596); [xigDb] already holds the connection object whose open failed
    (line 1539), so the call resolves: the dataset file is the new one,
    [xigDb] is the connection that is not open, and the cache is the one
    built from the old file. *)
Theorem failed_reopen_is_not_retried (w : World) (db : Db) (data message : string)
    (opened validated closed failure : Outcome) :
  xigDb w = Some db -> errOf opened = None -> errOf validated = None ->
  fsFault w (Unlink XIG_DB_PATH) = None -> fsFault w (Rename tempPath XIG_DB_PATH) = None ->
  errOf failure = Some message ->
  exists after,
    consume (updateXigDatabase w)
      [OResponse 200 None (Finished data); opened; validated; closed; failure]
    = (Done after tt, [])
    /\ files after !! XIG_DB_PATH = Some data
    /\ files after !! tempPath = None
    /\ xigDb after = Some {| handle := S (handles w); dbPath := XIG_DB_PATH |}
    /\ configCache after = configCache w.
Proof.
  intros Hdb Ho Hv Hunlink Hrename Hfail.
  rewrite updateXigDatabase_unfold, consume_catch.
  destruct (update_reaches_reopening w db data opened validated closed [failure]
              (fun _ => initializeDatabase ;>
                        logMessage "XIG database update completed successfully")
              Hdb Ho Hv Hunlink Hrename)
    as (y & -> & Yfile & Ytemp & Ydb & Ycache & Yhandles & Yflag & Yfault).
  unfold bind at 1. rewrite consume_bind.
  rewrite (initializeDatabase_open_fails y failure message []) by (rewrite ?Yfile; eauto).
  set (failed := addLog _ (setXigDb _ _)).
  unfold bind at 1, logMessage, modify. cbn [bindTask].
  unfold bind at 1, getWorld. cbn [bindTask].
  assert (Ex : existsSync tempPath (addLog ("XIG database update failed: " ++ message) failed)
               = false).
  { unfold existsSync, failed. apply bool_decide_eq_false_2. cbn.
    intros [v Hfound]. change (files y !! tempPath = Some v) in Hfound. congruence. }
  unfold bind at 1. rewrite Ex. unfold ret at 1. cbn [bindTask].
  unfold bind at 1, getWorld. cbn [bindTask].
  eexists. split; [reflexivity|]. unfold failed, nextDb. cbn. rewrite Yhandles.
  repeat split; assumption.
Qed.

Lemma failed_reopen_is_not_retried_witness :
  exists after,
    consume (updateXigDatabase connectedWorld)
      [OResponse 200 None (Finished "new"); OOk; ORow None; OOk;
       OErr "SQLITE_CANTOPEN: unable to open database file"]
    = (Done after tt, [])
    /\ files after !! XIG_DB_PATH = Some "new"
    /\ files after !! tempPath = None
    /\ xigDb after = Some {| handle := S (handles connectedWorld); dbPath := XIG_DB_PATH |}
    /\ configCache after = configCache connectedWorld.
Proof.
  apply (failed_reopen_is_not_retried connectedWorld {| handle := 0; dbPath := XIG_DB_PATH |}
           "new" "SQLITE_CANTOPEN: unable to open database file" OOk (ORow None) OOk);
    reflexivity.
Defined.

(** ** How a refresh can be rejected *)

(** The refresh up to the file replacement, with the outcomes that are
    left. *)
Lemma update_closes (w : World) (db : Db) (data : string)
    (opened validated closed : Outcome) (rest : list Outcome)
    (k : unit -> Async string unit) :
  xigDb w = Some db -> errOf opened = None -> errOf validated = None ->
  exists x,
    consume
      (bindTask (downloadFile XIG_DB_URL tempPath (updateStart w))
         (fun _ => validateDatabaseFile tempPath ;> closeCurrent ;> k tt))
      (OResponse 200 None (Finished data) :: opened :: validated :: closed :: rest)
    = consume (k tt x) rest
    /\ xigDb x = None /\ fsFault x = fsFault w /\ handles x = S (handles w)
    /\ files x = <[tempPath := data]> (files w)
    /\ configCache x = configCache w.
Proof.
  intros Hdb Ho Hv.
  rewrite consume_bind, download_succeeds. unfold bind at 1.
  rewrite consume_bind, (validate_succeeds _ opened validated (closed :: rest)); [|
    simpl; rewrite lookup_insert_eq; eauto | exact Ho | exact Hv].
  unfold bind at 1. rewrite consume_bind.
  destruct (close_succeeds (setHandles (S (handles (fetched data (updateStart w))))
                              (fetched data (updateStart w))) db closed rest Hdb)
    as (x & -> & (U1 & U2 & U3 & U4 & U5) & Hfiles & Hhandles).
  exists (setXigDb None x). split; [reflexivity|].
  repeat split; simpl; try assumption.
Qed.

(** X17: [updateXigDatabase] can be rejected.  When the dataset file
    cannot be removed after the connection was closed, the [catch] block
    calls [initializeDatabase] on the old file (line 1597); when that open
    fails too, its error leaves [updateXigDatabase]: the caller gets the
    error of the open, the dataset file is the old one, the temporary file
    is gone and the cache is as before. *)
Theorem refresh_rejects_when_reopen_fails (w : World) (db : Db)
    (data refused message : string) (opened validated closed failure : Outcome) :
  xigDb w = Some db -> is_Some (files w !! XIG_DB_PATH) ->
  errOf opened = None -> errOf validated = None ->
  fsFault w (Unlink tempPath) = None ->
  fsFault w (Unlink XIG_DB_PATH) = Some refused ->
  errOf failure = Some message ->
  exists failed,
    consume (updateXigDatabase w)
      [OResponse 200 None (Finished data); opened; validated; closed; failure]
    = (Throw failed message, [])
    /\ files failed !! XIG_DB_PATH = files w !! XIG_DB_PATH
    /\ files failed !! tempPath = None
    /\ configCache failed = configCache w.
Proof.
  intros Hdb Hfile Ho Hv Htemp Hunlink Hfail.
  rewrite updateXigDatabase_unfold, consume_catch.
  destruct (update_closes w db data opened validated closed [failure]
              (fun _ => replaceFile tempPath ;> initializeDatabase ;>
                        logMessage "XIG database update completed successfully")
              Hdb Ho Hv)
    as (x & -> & Xdb & Xfault & Xhandles & Xfiles & Xcache).
  assert (Xfile : is_Some (files x !! XIG_DB_PATH)).
  { rewrite Xfiles, lookup_insert_ne by discriminate. exact Hfile. }
  unfold bind at 1. rewrite consume_bind.
  rewrite (replaceFile_unlink_refused x refused Xfile) by (now rewrite Xfault).
  rewrite consume_throw.
  rewrite (update_handler_reopens x refused Xdb).
  2:{ rewrite Xfiles, lookup_insert_eq. eauto. }
  2:{ now rewrite Xfault. }
  rewrite (initializeDatabase_open_fails (cleaned refused x) failure message []).
  2:{ cbn. rewrite lookup_delete_ne by discriminate. exact Xfile. }
  2:{ exact Hfail. }
  eexists. split; [reflexivity|]. cbn. repeat split.
  - rewrite lookup_delete_ne by discriminate. rewrite Xfiles.
    now rewrite lookup_insert_ne by discriminate.
  - apply lookup_delete_eq.
  - exact Xcache.
Qed.

Lemma refresh_rejects_when_reopen_fails_witness :
  exists failed,
    consume (updateXigDatabase unlinkRefused)
      [OResponse 200 None (Finished "new"); OOk; ORow None; OOk;
       OErr "SQLITE_CANTOPEN: unable to open database file"]
    = (Throw failed "SQLITE_CANTOPEN: unable to open database file", [])
    /\ files failed !! XIG_DB_PATH = files unlinkRefused !! XIG_DB_PATH
    /\ files failed !! tempPath = None
    /\ configCache failed = configCache unlinkRefused.
Proof.
  apply (refresh_rejects_when_reopen_fails unlinkRefused
           {| handle := 0; dbPath := XIG_DB_PATH |} "new" "EBUSY: resource busy or locked"
           "SQLITE_CANTOPEN: unable to open database file" OOk (ORow None) OOk);
    try reflexivity.
  eexists. reflexivity.
Defined.

Lemma last_logged (message : string) (w : World) :
  last (logged (addLog message w)) = Some message.
Proof. cbn. apply last_snoc. Qed.

Lemma initializeDatabase_ends (w : World) :
  ends (fun _ _ => True)
    (fun x e => last (logged x) = Some ("Failed to open XIG database: " ++ e))
    (initializeDatabase w).
Proof.
  unfold initializeDatabase, bind at 1, getWorld. cbn [bindTask].
  destruct (negb _); [exact I|].
  unfold bind at 1, newDatabase. cbn [bindTask].
  unfold bind at 1, modify. cbn [bindTask].
  unfold bind at 1, await. cbn [bindTask ends]. intros o w'.
  destruct (errOf o) as [message|].
  - unfold bind, logMessage, modify, throw. cbn [bindTask ends]. apply last_logged.
  - unfold bind at 1, logMessage, modify. cbn [bindTask].
    unfold tryCatch. apply (ends_catchTask _ (fun _ _ => True)).
    + eapply ends_weaken; [| |apply ends_any]; simpl; auto.
    + intros x e _. exact I.
Qed.

(** X18: the only errors that leave [updateXigDatabase] are those of its
    [catch] block.  However the operations end and whatever the other
    calls do meanwhile, a rejected refresh was rejected with the error
    that the removal of the temporary file met (line 1593), or with the
    error of the open in [initializeDatabase] (line 1597), which is then
    the last message logged; every error of the download, the validation,
    the closing and the file replacement is caught. *)
Theorem refresh_rejects_only_from_its_catch (w : World) :
  ends (fun _ _ => True)
    (fun x e =>
       fsFault x (Unlink tempPath) = Some e
       \/ last (logged x) = Some ("Failed to open XIG database: " ++ e))
    (updateXigDatabase w).
Proof.
  unfold updateXigDatabase, tryCatch. apply (ends_catchTask _ (fun _ _ => True)).
  - eapply ends_weaken; [| |apply ends_any]; simpl; auto.
  - intros x e _. unfold bind at 1, logMessage, modify. cbn [bindTask].
    unfold bind at 1, getWorld. cbn [bindTask].
    set (y := addLog _ x). unfold bind at 1.
    assert (Hclean : ends (fun _ _ => True)
                       (fun x e => fsFault x (Unlink tempPath) = Some e
                                   \/ last (logged x)
                                      = Some ("Failed to open XIG database: " ++ e))
                       ((if existsSync (XIG_DB_PATH ++ ".tmp") y
                         then unlinkSync (XIG_DB_PATH ++ ".tmp") else ret tt) y)).
    { destruct (existsSync (XIG_DB_PATH ++ ".tmp") y) eqn:Ex; [|exact I].
      unfold unlinkSync. rewrite Ex.
      destruct (fsFault y (Unlink (XIG_DB_PATH ++ ".tmp"))) as [message|] eqn:Ef.
      - left. exact Ef.
      - exact I. }
    eapply ends_bindTask; [exact Hclean|]. intros z [] _.
    unfold bind, getWorld. cbn [bindTask].
    destruct (negb _); [|exact I].
    eapply ends_weaken; [| |apply initializeDatabase_ends]; simpl; auto.
Qed.

(** ** A refresh that opens the new file *)

Lemma initializeDatabase_opened (z : World) (o : Outcome) (rest : list Outcome) :
  is_Some (files z !! XIG_DB_PATH) -> errOf o = None ->
  consume (initializeDatabase z) (o :: rest)
  = consume
      (catchTask
         (loadConfigCache
            (addLog "XIG database connected successfully"
               (setXigDb (Some (nextDb z)) (setHandles (S (handles z)) z))))
         (fun cacheError =>
            logMessage ("Warning: Failed to load config cache: " ++ cacheError)))
      rest.
Proof.
  intros Hfile Ho. unfold initializeDatabase, bind at 1, getWorld. cbn [bindTask].
  unfold existsSync. rewrite bool_decide_eq_true_2 by exact Hfile.
  change (negb true) with false. cbv iota.
  unfold bind at 1, newDatabase. cbn [bindTask].
  unfold bind at 1, modify. cbn [bindTask].
  unfold bind at 1, await. cbn [bindTask consume]. rewrite Ho.
  unfold bind, logMessage, modify. cbn [bindTask]. reflexivity.
Qed.

Lemma buildNewCache_starts (w : World) (db : Db) :
  xigDb w = Some db ->
  exists k,
    buildNewCache w
    = Await (addLog "Loading metadata..." w)
        (DbAll (handle db) "SELECT Name, Value FROM Metadata") k.
Proof.
  intros Hdb. unfold buildNewCache, bind at 1, getWorld. cbn [bindTask].
  unfold bind at 1, logMessage, modify. cbn [bindTask].
  unfold bind at 1, executeQuery, bind at 1, getWorld. cbn [bindTask].
  change (xigDb (addLog "Loading metadata..." w)) with (xigDb w). rewrite Hdb.
  unfold bind at 1, await. cbn [bindTask]. eexists. reflexivity.
Qed.

(** X19: a refresh of a module with a connection whose download,
    validation, closing, file replacement and open ended well rebuilds the
    cache from the new file, unless a rebuild is in progress.  With the
    guard clear, it is then waiting for the first query of the rebuild,
    which goes to the connection opened on the new file, with the guard
    set.  With the guard set by another call, [loadConfigCache] only logs
    that it skips (line 1356) and the refresh ends as completed, without a
    query.  In both cases the dataset file holds the downloaded data, no
    temporary file is left, [xigDb] is the new connection, and the cache is
    still the one built from the old file. *)
Theorem refresh_rebuilds_from_the_new_file (w : World) (db : Db) (data : string)
    (opened validated closed reopened : Outcome) :
  xigDb w = Some db ->
  errOf opened = None -> errOf validated = None -> errOf reopened = None ->
  fsFault w (Unlink XIG_DB_PATH) = None -> fsFault w (Rename tempPath XIG_DB_PATH) = None ->
  let t := run (updateXigDatabase w)
             [OResponse 200 None (Finished data); opened; validated; closed; reopened] in
  xigDb (worldOf t) = Some {| handle := S (handles w); dbPath := XIG_DB_PATH |}
  /\ files (worldOf t) !! XIG_DB_PATH = Some data
  /\ files (worldOf t) !! tempPath = None
  /\ configCache (worldOf t) = configCache w
  /\ cacheLoadInProgress (worldOf t) = true
  /\ (cacheLoadInProgress w = false ->
      pendingOp t = Some (DbAll (S (handles w)) "SELECT Name, Value FROM Metadata"))
  /\ (cacheLoadInProgress w = true ->
      isDone t = true
      /\ "Cache load already in progress, skipping" ∈ logged (worldOf t)
      /\ last (logged (worldOf t)) = Some "XIG database update completed successfully").
Proof.
  intros Hdb Ho Hv Hr Hunlink Hrename t.
  assert (Et : exists y,
            t = catchTask
                  (bindTask
                     (catchTask
                        (loadConfigCache
                           (addLog "XIG database connected successfully"
                              (setXigDb (Some (nextDb y))
                                 (setHandles (S (handles y)) y))))
                        (fun cacheError =>
                           logMessage ("Warning: Failed to load config cache: "
                                       ++ cacheError)))
                     (fun _ =>
                        logMessage "XIG database update completed successfully"))
                  updateCatch
            /\ files y !! XIG_DB_PATH = Some data /\ files y !! tempPath = None
            /\ configCache y = configCache w /\ handles y = S (handles w)
            /\ cacheLoadInProgress y = cacheLoadInProgress w).
  { subst t. rewrite run_consume, updateXigDatabase_unfold, consume_catch.
    destruct (update_reaches_reopening w db data opened validated closed [reopened]
                (fun _ => initializeDatabase ;>
                          logMessage "XIG database update completed successfully")
                Hdb Ho Hv Hunlink Hrename)
      as (y & -> & Yfile & Ytemp & Ydb & Ycache & Yhandles & Yflag & Yfault).
    unfold bind at 1. rewrite consume_bind.
    rewrite (initializeDatabase_opened y reopened []) by (rewrite ?Yfile; eauto).
    exists y. split; [|repeat split; assumption].
    rewrite <- consume_bind, <- consume_catch. reflexivity. }
  destruct Et as (y & Et & Yfile & Ytemp & Ycache & Yhandles & Yflag). clearbody t.
  set (z := addLog "XIG database connected successfully" _) in Et.
  destruct (cacheLoadInProgress w) eqn:Hflag.
  - assert (Ez : loadConfigCache z
                 = Done (addLog "Cache load already in progress, skipping" z) tt).
    { unfold loadConfigCache, bind at 1, getWorld. cbn [bindTask].
      change (cacheLoadInProgress z) with (cacheLoadInProgress y). now rewrite Yflag. }
    rewrite Ez in Et. cbn [catchTask bindTask] in Et.
    unfold logMessage, modify in Et. cbn [catchTask] in Et. subst t.
    cbn [worldOf isDone pendingOp]. unfold z, nextDb.
    cbn [addLog setXigDb setHandles xigDb files configCache cacheLoadInProgress logged].
    rewrite Yhandles.
    split; [reflexivity|]. split; [exact Yfile|]. split; [exact Ytemp|].
    split; [exact Ycache|]. split; [exact Yflag|]. split; [discriminate|]. intros _.
    split; [reflexivity|]. split; [|apply last_snoc].
    apply elem_of_app. left. apply elem_of_app. right. apply list_elem_of_singleton.
    reflexivity.
  - rewrite (loadConfigCache_building z) in Et; [| cbn; congruence | cbn; eauto].
    destruct (buildNewCache_starts (buildStart z) (nextDb y) eq_refl) as (k & Ek).
    rewrite Ek in Et. cbn [bindTask catchTask finallyTask] in Et. subst t.
    cbn [worldOf isDone pendingOp]. unfold z, nextDb, buildStart.
    cbn [addLog setXigDb setHandles setCacheLoadInProgress xigDb files configCache
         cacheLoadInProgress logged handle].
    rewrite Yhandles.
    split; [reflexivity|]. split; [exact Yfile|]. split; [exact Ytemp|].
    split; [exact Ycache|]. split; [reflexivity|]. split; [reflexivity | discriminate].
Qed.

(** A refresh of a module at rest, and one made while a rebuild is in
    progress. *)
Lemma refresh_rebuilds_from_the_new_file_witness :
  (let t := run (updateXigDatabase connectedWorld)
              [OResponse 200 None (Finished "new"); OOk; ORow None; OOk; OOk] in
   xigDb (worldOf t)
   = Some {| handle := S (handles connectedWorld); dbPath := XIG_DB_PATH |}
   /\ files (worldOf t) !! XIG_DB_PATH = Some "new"
   /\ files (worldOf t) !! tempPath = None
   /\ configCache (worldOf t) = configCache connectedWorld
   /\ cacheLoadInProgress (worldOf t) = true
   /\ pendingOp t
      = Some (DbAll (S (handles connectedWorld)) "SELECT Name, Value FROM Metadata"))
  /\ (let t := run (updateXigDatabase rebuildingWorld)
                 [OResponse 200 None (Finished "new"); OOk; ORow None; OOk; OOk] in
      configCache (worldOf t) = configCache rebuildingWorld
      /\ isDone t = true
      /\ "Cache load already in progress, skipping" ∈ logged (worldOf t)
      /\ last (logged (worldOf t)) = Some "XIG database update completed successfully").
Proof.
  split.
  - pose proof (refresh_rebuilds_from_the_new_file connectedWorld
                  {| handle := 0; dbPath := XIG_DB_PATH |} "new" OOk (ORow None) OOk OOk
                  eq_refl eq_refl eq_refl eq_refl eq_refl eq_refl)
      as (H1 & H2 & H3 & H4 & H5 & H6 & _).
    intros t. split; [exact H1|]. split; [exact H2|]. split; [exact H3|].
    split; [exact H4|]. split; [exact H5|]. now apply H6.
  - pose proof (refresh_rebuilds_from_the_new_file rebuildingWorld
                  {| handle := 0; dbPath := XIG_DB_PATH |} "new" OOk (ORow None) OOk OOk
                  eq_refl eq_refl eq_refl eq_refl eq_refl eq_refl)
      as (_ & _ & _ & H4 & _ & _ & H7).
    intros t. split; [exact H4|]. now apply H7.
Defined.

(** ** The queries around the filter *)

Lemma endsWell_app (a b : string) : endsWell b = true -> endsWell (a ++ b) = true.
Proof.
  intros Hb. induction a as [|c a IH]; [exact Hb|].
  cbn [String.append endsWell]. destruct (a ++ b) eqn:E; [discriminate IH | exact IH].
Qed.

Lemma trimEnd_white (b : string) : trimmedNonEmpty b = false -> trimEnd b = "".
Proof.
  induction b as [|c b IH]; [reflexivity|]. cbn [trimmedNonEmpty trimEnd].
  intros H. apply orb_false_iff in H as [Hc Hb]. apply negb_false_iff in Hc.
  rewrite (IH Hb), Hc. reflexivity.
Qed.

Lemma trimEnd_app (a b : string) :
  endsWell a = true -> trimmedNonEmpty b = false -> trimEnd (a ++ b) = a.
Proof.
  intros Ha Hb. induction a as [|c a IH]; [discriminate|].
  cbn [String.append trimEnd]. destruct a as [|c' a].
  - cbn [String.append endsWell] in *. rewrite (trimEnd_white b Hb).
    apply negb_true_iff in Ha. now rewrite Ha.
  - rewrite IH by exact Ha. now rewrite andb_false_r.
Qed.

Lemma trimStart_app (a : string) (c : ascii) (r : string) :
  trimmedNonEmpty a = false -> isWhite c = false ->
  trimStart (a ++ String c r) = String c r.
Proof.
  intros Ha Hc. induction a as [|x a IH].
  - cbn [String.append trimStart]. now rewrite Hc.
  - cbn [trimmedNonEmpty] in Ha. apply orb_false_iff in Ha as [Hx Ha].
    apply negb_false_iff in Hx. cbn [String.append trimStart]. rewrite Hx. now apply IH.
Qed.

Ltac ends_well := repeat first [reflexivity | apply endsWell_app].

Lemma endsWell_join (sep : string) (parts : list string) :
  parts <> [] -> Forall (fun p => endsWell p = true) parts ->
  endsWell (join sep parts) = true.
Proof.
  induction parts as [|p rest IH]; intros Hne Hall; [congruence|].
  apply Forall_cons_1 in Hall as [Hp Hrest].
  destruct rest as [|p' rest]; [exact Hp|].
  change (join sep (p :: p' :: rest)) with (p ++ sep ++ join sep (p' :: rest)).
  ends_well. apply IH; [discriminate | exact Hrest].
Qed.

Lemma filterClauses_end_well (c : Cache) (q : QueryParams) :
  Forall (fun p => endsWell p = true) (filterClauses c q).
Proof.
  unfold filterClauses. repeat apply Forall_app_2.
  - unfold realmClauses. destruct (truthy _); repeat constructor; ends_well.
  - unfold authClauses. destruct (truthy _); repeat constructor; ends_well.
  - unfold versionClauses. case_bool_decide; repeat constructor; ends_well.
  - unfold typeClauses, refinementClauses, categoryClause. cbv zeta.
    repeat (destruct (isStr _ _)); repeat (destruct (rtKnown _ _ _));
      repeat constructor; ends_well.
  - unfold textClauses, ftsClause.
    destruct (truthy _); [destruct (isStr _ _)|]; repeat constructor; ends_well.
Qed.

Lemma buildSqlFilter_ends_well (c : Cache) (q : QueryParams) :
  buildSqlFilter c q = "" \/ endsWell (buildSqlFilter c q) = true.
Proof.
  destruct (filter_is_empty_or_where c q) as [[_ ->]|[Hne ->]]; [now left | right].
  ends_well. apply endsWell_join; [exact Hne | apply filterClauses_end_well].
Qed.

Lemma numStr_ends_well (z : Z) : endsWell (numStr z) = true.
Proof.
  assert (Hd : forall d, d <> Decimal.Nil ->
                         endsWell (NilEmpty.string_of_uint d) = true).
  { induction d as [|d IH|d IH|d IH|d IH|d IH|d IH|d IH|d IH|d IH|d IH]; intros Hne;
      [congruence|..];
      cbn [NilEmpty.string_of_uint endsWell];
      (destruct d; [reflexivity|..]; apply IH; discriminate). }
  assert (Hn : forall d, endsWell (NilZero.string_of_uint d) = true).
  { intros d. destruct d; try reflexivity; apply Hd; discriminate. }
  unfold numStr. destruct z as [|p|p]; cbn.
  - reflexivity.
  - apply Hn.
  - change (endsWell ("-" ++ NilZero.string_of_uint (Pos.to_uint p)) = true).
    apply endsWell_app, Hn.
Qed.

Lemma trim_count (w : string) :
  w = "" \/ endsWell w = true ->
  trim (nl ++ "    SELECT COUNT(*) as total" ++ nl ++ "    FROM Resources" ++ nl ++ "    "
        ++ w ++ nl ++ "  ")
  = countSelect ++ (if String.eqb w "" then "" else nl ++ "    " ++ w).
Proof.
  intros [->|Hw]; [reflexivity|].
  assert (Hne : String.eqb w "" = false) by (destruct w; [discriminate | reflexivity]).
  rewrite Hne. unfold trim.
  change (trimStart _)
    with ((countSelect ++ nl ++ "    ") ++ w ++ nl ++ "  ").
  rewrite <- (append_assoc _ w). rewrite trimEnd_app; [| now apply endsWell_app | reflexivity].
  unfold countSelect. now rewrite !append_assoc.
Qed.

Lemma trim_list (w l o : string) :
  endsWell o = true ->
  trim (nl ++ "    " ++ listSelect ++ w ++ listOrder ++ l ++ " OFFSET " ++ o ++ nl ++ "  ")
  = listSelect ++ w ++ listOrder ++ l ++ " OFFSET " ++ o.
Proof.
  intros Ho. unfold trim.
  change (trimStart _)
    with (listSelect ++ w ++ listOrder ++ l ++ " OFFSET " ++ o ++ nl ++ "  ").
  replace (listSelect ++ w ++ listOrder ++ l ++ " OFFSET " ++ o ++ nl ++ "  ")
    with ((listSelect ++ w ++ listOrder ++ l ++ " OFFSET " ++ o) ++ nl ++ "  ")
    by (now rewrite !append_assoc).
  apply trimEnd_app; [|reflexivity]. now repeat apply endsWell_app.
Qed.

Lemma buildResourceListQuery_text (c : Cache) (q : QueryParams) (offset limit : Z) :
  buildResourceListQuery c q offset limit
  = listSelect ++ buildSqlFilter c q ++ listOrder ++ numStr limit ++ " OFFSET "
    ++ numStr offset.
Proof. apply trim_list, numStr_ends_well. Qed.

Lemma buildResourceCountQuery_text (c : Cache) (q : QueryParams) :
  buildResourceCountQuery c q
  = countSelect ++ (if String.eqb (buildSqlFilter c q) "" then ""
                    else nl ++ "    " ++ buildSqlFilter c q).
Proof. apply trim_count, buildSqlFilter_ends_well. Qed.

Lemma separated_snoc (ts : list SqlToken) (x : ascii) (sql : string) :
  separated ts = true -> noQuote (String x sql) = true ->
  separated (ts ++ [Code (String x sql)])%list = true.
Proof.
  intros Hts Hsql. induction ts as [|t ts IH].
  - cbn [app separated]. now rewrite Hsql.
  - destruct t as [code|value].
    + cbn [app separated] in *. apply andb_prop in Hts as [Hq Hts]. rewrite Hq. now apply IH.
    + destruct ts as [|[[|y code]|v] ts']; try discriminate Hts.
      * cbn [app separated]. now rewrite Hsql.
      * cbn [separated] in Hts. specialize (IH Hts). exact IH.
Qed.

Lemma noQuote_chars (s : string) :
  Forall (fun c => c ∉ markupChars) (chars s) -> noQuote s = true.
Proof.
  induction s as [|c s IH]; [reflexivity|]. unfold chars. cbn [list_ascii_of_string noQuote].
  intros H. apply Forall_cons_1 in H as [Hc Hs]. rewrite (IH Hs), andb_true_r.
  apply negb_true_iff, Ascii.eqb_neq. intros ->. apply Hc. compute_done.
Qed.

Lemma reads_between (c : Cache) (q : QueryParams) (before after : string) :
  noQuote before = true -> noQuote after = true ->
  readsWithFilterOf c q (before ++ buildSqlFilter c q ++ after).
Proof.
  intros Hb Ha. unfold readsWithFilterOf. rewrite buildSqlFilter_tokens.
  destruct after as [|x after].
  - rewrite append_empty_r.
    exists (skeletonOf (Code before :: filterTokens c q)).
    change (before ++ renderTokens (filterTokens c q))
      with (renderTokens (Code before :: filterTokens c q)).
    rewrite sqlRead_tokens; [reflexivity|].
    cbn [separated]. now rewrite Hb, filterTokens_separated.
  - exists (skeletonOf (Code before :: filterTokens c q ++ [Code (String x after)])).
    replace (before ++ renderTokens (filterTokens c q) ++ String x after)
      with (renderTokens (Code before :: filterTokens c q ++ [Code (String x after)])).
    + rewrite sqlRead_tokens.
      * cbn [literalsOf]. rewrite literalsOf_app. cbn [literalsOf]. now rewrite app_nil_r.
      * cbn [separated]. rewrite Hb. cbn [andb].
        apply separated_snoc; [apply filterTokens_separated | exact Ha].
    + cbn [renderTokens renderToken]. rewrite renderTokens_app. cbn [renderTokens renderToken].
      now rewrite append_empty_r.
Qed.

Lemma reads_without_filter (c : Cache) (q : QueryParams) (sql : string) :
  buildSqlFilter c q = "" -> noQuote sql = true -> readsWithFilterOf c q sql.
Proof.
  intros Hw Hsql. unfold readsWithFilterOf.
  assert (Hnone : literalsOf (filterTokens c q) = []).
  { pose proof (sqlRead_tokens (filterTokens c q) (filterTokens_separated c q)) as H.
    rewrite <- buildSqlFilter_tokens, Hw in H. now injection H as _ <-. }
  rewrite Hnone. exists (skeletonOf [Code sql]).
  pose proof (sqlRead_tokens [Code sql]) as H. cbn [separated] in H.
  rewrite Hsql in H. specialize (H eq_refl).
  cbn [renderTokens renderToken] in H. now rewrite append_empty_r in H.
Qed.

(** X20: the two queries of the resource list hold the facet values in
    string literals only.  Read as SQL, the text [buildResourceListQuery]
    returns and the text [buildResourceCountQuery] returns have exactly
    the literals of the filter, with the values as they came in, for every
    request, every offset and every limit: the text around the filter adds
    no quote, and [trim] takes nothing off the filter. *)
Theorem resource_queries_keep_values_in_literals (c : Cache) (q : QueryParams)
    (offset limit : Z) :
  readsWithFilterOf c q (buildResourceListQuery c q offset limit)
  /\ readsWithFilterOf c q (buildResourceCountQuery c q).
Proof.
  split.
  - rewrite buildResourceListQuery_text. apply reads_between; [reflexivity|].
    rewrite !noQuote_app, !(noQuote_chars _ (numStr_markup _)). reflexivity.
  - rewrite buildResourceCountQuery_text.
    destruct (String.eqb (buildSqlFilter c q) "") eqn:Ew.
    + apply String.eqb_eq in Ew. apply reads_without_filter; [exact Ew | reflexivity].
    + replace (countSelect ++ nl ++ "    " ++ buildSqlFilter c q)
        with ((countSelect ++ nl ++ "    ") ++ buildSqlFilter c q ++ "")
        by (now rewrite !append_assoc, append_empty_r).
      apply reads_between; reflexivity.
Qed.

(** X21: the queries of the summary hold the facet values in string
    literals only.  The query of the authority breakdown, the query of
    the realm breakdown and, for each of the seven versions, the query of
    the version count read as SQL with exactly the literals of the filter
    they are built around. *)
Theorem summary_queries_keep_values_in_literals (c : Cache) (q : QueryParams) :
  readsWithFilterOf c q (authoritySql (buildSqlFilter c q))
  /\ readsWithFilterOf c q (realmSql (buildSqlFilter c q))
  /\ Forall (fun version => readsWithFilterOf c q (versionSql (buildSqlFilter c q) version))
       fixedVersions.
Proof.
  unfold authoritySql, realmSql, versionSql.
  destruct (String.eqb (buildSqlFilter c q) "") eqn:Ew.
  - apply String.eqb_eq in Ew.
    split; [|split]; [| |repeat constructor];
      (apply reads_without_filter; [exact Ew | reflexivity]).
  - split; [|split]; [| |repeat constructor]; apply reads_between; reflexivity.
Qed.

(** ** Request statistics *)

Lemma countedRequests_insert (counts : gmap string Z) (date : string) (n : Z) :
  counts !! date = None ->
  countedRequests (<[date := n]> counts) = (n + countedRequests counts)%Z.
Proof.
  intros H. unfold countedRequests.
  rewrite (map_fold_insert_L (fun _ k sum => (k + sum)%Z) 0%Z date n counts);
    [reflexivity | intros; lia | exact H].
Qed.

Lemma countedRequests_delete (counts : gmap string Z) (date : string) (n : Z) :
  counts !! date = Some n ->
  countedRequests counts = (n + countedRequests (delete date counts))%Z.
Proof.
  intros H. unfold countedRequests.
  rewrite (map_fold_delete_L (fun _ k sum => (k + sum)%Z) 0%Z date n counts);
    [reflexivity | intros; lia | exact H].
Qed.

Lemma countedRequests_filter (P : string * Z -> Prop) `{!forall x, Decision (P x)}
    (counts : gmap string Z) :
  (forall date n, counts !! date = Some n -> (0 <= n)%Z) ->
  (0 <= countedRequests (filter P counts) <= countedRequests counts)%Z.
Proof.
  induction counts as [|date n counts Hnone IH] using map_ind; intros Hpos.
  - rewrite map_filter_empty. unfold countedRequests. rewrite map_fold_empty. lia.
  - assert (Hn : (0 <= n)%Z) by (apply (Hpos date); apply lookup_insert_eq).
    assert (IH' : (0 <= countedRequests (filter P counts) <= countedRequests counts)%Z).
    { apply IH. intros d k Hd. apply (Hpos d). rewrite lookup_insert_ne; [exact Hd|].
      intros ->. congruence. }
    rewrite (countedRequests_insert counts date n Hnone).
    rewrite map_filter_insert. case_decide.
    + rewrite countedRequests_insert; [lia|].
      apply map_lookup_filter_None. now left.
    + rewrite delete_id by exact Hnone. lia.
Qed.

Lemma trackRequest_keeps (today cutoffDate : string) (stats : RequestStats) :
  (forall date n, dailyCounts stats !! date = Some n -> (1 <= n)%Z) ->
  (countedRequests (dailyCounts stats) <= total stats)%Z ->
  (forall date n, dailyCounts (trackRequest today cutoffDate stats) !! date = Some n ->
                  (1 <= n)%Z)
  /\ (countedRequests (dailyCounts (trackRequest today cutoffDate stats))
      <= total (trackRequest today cutoffDate stats))%Z.
Proof.
  intros Hpos Hsum. unfold trackRequest. cbn [dailyCounts total].
  set (current := default 0%Z (dailyCounts stats !! today)).
  assert (Hcurrent : (0 <= current)%Z).
  { unfold current. destruct (dailyCounts stats !! today) as [n|] eqn:E; simpl; [|lia].
    specialize (Hpos _ _ E). lia. }
  assert (Hall : forall date n,
            <[today := (current + 1)%Z]> (dailyCounts stats) !! date = Some n -> (1 <= n)%Z).
  { intros date n H. apply lookup_insert_Some in H as [[_ <-]|[_ H]]; [lia | eauto]. }
  split.
  - intros date n H. apply map_lookup_filter_Some in H as [H _]. eauto.
  - assert (Hadd : countedRequests (<[today := (current + 1)%Z]> (dailyCounts stats))
                   = (countedRequests (dailyCounts stats) + 1)%Z).
    { unfold current. destruct (dailyCounts stats !! today) as [n|] eqn:E; simpl.
      - rewrite <- insert_delete_eq.
        rewrite countedRequests_insert by apply lookup_delete_eq.
        rewrite (countedRequests_delete _ _ _ E). lia.
      - rewrite countedRequests_insert by exact E. lia. }
    pose proof (countedRequests_filter
                  (fun entry : string * Z => String.ltb (fst entry) cutoffDate = false)
                  (<[today := (current + 1)%Z]> (dailyCounts stats))) as Hle.
    rewrite Hadd in Hle. apply proj2 in Hle; [lia|].
    intros date n H. specialize (Hall _ _ H). lia.
Qed.

Lemma requests_keep (dates : list (string * string)) :
  forall stats,
  (forall date n, dailyCounts stats !! date = Some n -> (1 <= n)%Z) ->
  (countedRequests (dailyCounts stats) <= total stats)%Z ->
  let after := foldl (fun stats d => trackRequest (fst d) (snd d) stats) stats dates in
  total after = (total stats + Z.of_nat (length dates))%Z
  /\ (forall date n, dailyCounts after !! date = Some n -> (1 <= n)%Z)
  /\ (countedRequests (dailyCounts after) <= total after)%Z.
Proof.
  induction dates as [|[today cutoffDate] dates IH]; intros stats Hpos Hsum; cbv zeta.
  - cbn [foldl length]. repeat split; [lia | exact Hpos | exact Hsum].
  - cbn [foldl fst snd].
    destruct (trackRequest_keeps today cutoffDate stats Hpos Hsum) as [Hpos' Hsum'].
    destruct (IH _ Hpos' Hsum') as (Htotal & Hp & Hs).
    split; [|split; assumption]. rewrite Htotal. cbn [trackRequest total length]. lia.
Qed.

(** X22: the request statistics stay consistent.  After any number of
    requests, at whatever dates, [total] is the number of requests, every
    day kept in [dailyCounts] has a count of at least one, the counts of
    the days kept add up to at most [total] (the days dropped are why they
    can add up to less), and no day before the cutoff date of the last
    request is kept. *)
Theorem daily_counts_stay_within_total (dates : list (string * string)) :
  let stats := afterRequests dates in
  total stats = Z.of_nat (length dates)
  /\ (forall date n, dailyCounts stats !! date = Some n -> (1 <= n)%Z)
  /\ (countedRequests (dailyCounts stats) <= total stats)%Z
  /\ (forall earlier today cutoffDate date,
        dates = (earlier ++ [(today, cutoffDate)])%list ->
        String.ltb date cutoffDate = true -> dailyCounts stats !! date = None).
Proof.
  cbv zeta. unfold afterRequests.
  destruct (requests_keep dates initialStats) as (Htotal & Hpos & Hsum).
  { intros date n H. cbn in H. rewrite lookup_empty in H. discriminate. }
  { cbn. unfold countedRequests. rewrite map_fold_empty. lia. }
  split; [rewrite Htotal; cbn; lia|]. split; [exact Hpos|]. split; [exact Hsum|].
  intros earlier today cutoffDate date -> Hold. rewrite foldl_app. cbn [foldl fst snd].
  unfold trackRequest. cbn [dailyCounts]. apply map_lookup_filter_None. right.
  intros n _. cbn [fst]. congruence.
Qed.

(** ** The validation of a downloaded file *)

(** X23: [validateDatabaseFile] accepts only a file that was opened and
    queried.  When the call has ended without an error, the file was
    there, the call has used two outcomes, the one of the open and the one
    of the probe query, neither of them an error; and it has touched
    neither the files nor the connection nor the cache of the module. *)
Theorem validation_accepts_only_a_readable_file (filePath : string) (w after : World)
    (outcomes rest : list Outcome) :
  consume (validateDatabaseFile filePath w) outcomes = (Done after tt, rest) ->
  is_Some (files w !! filePath)
  /\ (exists opened probed,
        outcomes = opened :: probed :: rest /\ errOf opened = None /\ errOf probed = None)
  /\ files after = files w /\ xigDb after = xigDb w /\ configCache after = configCache w.
Proof.
  unfold validateDatabaseFile, bind at 1, getWorld. cbn [bindTask].
  unfold existsSync. case_bool_decide as Hfile; cbn [negb].
  2:{ unfold throw. rewrite consume_throw. discriminate. }
  unfold bind at 1, newDatabase. cbn [bindTask].
  unfold bind at 1, await. cbn [bindTask].
  destruct outcomes as [|opened outcomes]; [discriminate|]. cbn [consume].
  destruct (errOf opened) as [message|] eqn:Eopened.
  { unfold throw. rewrite consume_throw. discriminate. }
  unfold bind, await. cbn [bindTask].
  destruct outcomes as [|probed outcomes]; [discriminate|]. cbn [consume].
  destruct (errOf probed) as [message|] eqn:Eprobed.
  { unfold throw. rewrite consume_throw. discriminate. }
  unfold ret. rewrite consume_done. intros [= <- <-].
  split; [exact Hfile|]. split; [eauto|]. repeat split.
Qed.

Lemma validation_accepts_only_a_readable_file_witness :
  is_Some (files connectedWorld !! XIG_DB_PATH)
  /\ (exists opened probed,
        [OOk; ORow None; OOk] = opened :: probed :: [OOk]
        /\ errOf opened = None /\ errOf probed = None)
  /\ files (setHandles 2 connectedWorld) = files connectedWorld
  /\ xigDb (setHandles 2 connectedWorld) = xigDb connectedWorld
  /\ configCache (setHandles 2 connectedWorld) = configCache connectedWorld.
Proof.
  apply (validation_accepts_only_a_readable_file XIG_DB_PATH connectedWorld
           (setHandles 2 connectedWorld) [OOk; ORow None; OOk] [OOk]).
  reflexivity.
Defined.

(** ** The version counts of the summary *)

(** The item the loop adds for a version whose count query ended with
    the outcome [o]. *)
Lemma versionItem_runs (currentFilter baseUrl : string) (queryParams : QueryParams)
    (version : JsVal) (w : World) (db : Db) (o : Outcome) (rest : list Outcome) :
  xigDb w = Some db ->
  exists item,
    consume (versionItem currentFilter baseUrl queryParams version w) (o :: rest)
    = (Done w item, rest)
    /\ match errOf o, toLocaleString (countOf o) with
       | None, Some n =>
           item = linkItem (buildVersionLinkUrl baseUrl queryParams version) version n
       | _, _ => item = errorItem version
       end.
Proof.
  intros Hdb. unfold versionItem, tryCatch. rewrite consume_catch. cbv zeta.
  unfold bind at 1, getCount, bind at 1, getWorld. cbn [bindTask]. rewrite Hdb.
  unfold bind at 1, await. cbn [bindTask consume]. unfold countOf.
  destruct (errOf o) as [message|].
  - unfold throw. cbn [bindTask]. rewrite consume_throw. unfold ret.
    rewrite consume_done. eauto.
  - unfold ret at 1. cbn [bindTask].
    destruct (toLocaleString _) as [n|].
    + unfold ret. rewrite consume_done. eauto.
    + unfold throw. rewrite consume_throw. unfold ret. rewrite consume_done. eauto.
Qed.

Lemma concat_cons (item : string) (items : list string) :
  String.concat "" (item :: items) = item ++ String.concat "" items.
Proof.
  cbn [String.concat]. destruct items as [|next items]; [now rewrite append_empty_r|].
  reflexivity.
Qed.

(** X24: a version whose count fails does not stop the version list.
    However the count queries of the loop of lines 699-720 end and
    whatever other calls do meanwhile, the loop does not throw, and when it
    has ended the text has one item for each version, in order, which is
    the link with the count or the item that says [Error].  In a module
    with a connection, the loop given one answer for each version ends
    having used them all, and the item of a version is the link with the
    count when the query gave no error and the count could be formatted,
    and the [Error] item exactly when the query gave an error or the count
    could not be formatted; the versions after it get their items all the
    same. *)
Theorem version_list_has_an_item_for_each_version (currentFilter baseUrl : string)
    (queryParams : QueryParams) (versions : list JsVal) :
  (forall (html : string) (w : World),
     ends
       (fun _ result =>
          exists items,
            result = html ++ String.concat "" items
            /\ Forall2
                 (fun version item =>
                    (exists count,
                       item = linkItem (buildVersionLinkUrl baseUrl queryParams version)
                                version count)
                    \/ item = errorItem version)
                 versions items)
       (fun _ _ => False)
       (versionItems currentFilter baseUrl queryParams versions html w))
  /\ (forall (html : string) (w : World) (db : Db) (outcomes : list Outcome),
        xigDb w = Some db -> length outcomes = length versions ->
        exists items,
          consume (versionItems currentFilter baseUrl queryParams versions html w) outcomes
          = (Done w (html ++ String.concat "" items), [])
          /\ Forall2
               (fun (answered : JsVal * Outcome) item =>
                  match errOf (snd answered), toLocaleString (countOf (snd answered)) with
                  | None, Some n =>
                      item = linkItem
                               (buildVersionLinkUrl baseUrl queryParams (fst answered))
                               (fst answered) n
                  | _, _ => item = errorItem (fst answered)
                  end)
               (zip versions outcomes) items).
Proof.
  split.
  - induction versions as [|version versions IH]; intros html w.
    + cbn. exists []. split; [now rewrite append_empty_r | constructor].
    + cbn [versionItems]. unfold bind.
      apply (ends_bindTask
               (fun _ item =>
                  (exists count,
                     item = linkItem (buildVersionLinkUrl baseUrl queryParams version)
                              version count)
                  \/ item = errorItem version)).
      * unfold versionItem, tryCatch. apply (ends_catchTask _ (fun _ _ => True)).
        -- cbv zeta. unfold bind.
           apply (ends_bindTask (fun _ _ => True)).
           ++ eapply ends_weaken; [| |apply ends_any]; simpl; auto.
           ++ intros x count _. destruct (toLocaleString count) as [n|]; cbn; eauto.
        -- intros x e _. cbn. now right.
      * intros x item Hitem.
        eapply ends_weaken; [| |apply (IH (html ++ item) x)]; [|auto].
        intros _ result (items & -> & Hall). exists (item :: items).
        split; [|now constructor]. now rewrite concat_cons, append_assoc.
  - induction versions as [|version versions IH]; intros html w db outcomes Hdb Hlen.
    + destruct outcomes; [|discriminate]. exists []. cbn.
      split; [now rewrite append_empty_r | constructor].
    + destruct outcomes as [|o outcomes]; [discriminate|]. injection Hlen as Hlen.
      cbn [versionItems]. unfold bind. rewrite consume_bind.
      destruct (versionItem_runs currentFilter baseUrl queryParams version w db o outcomes
                  Hdb) as (item & -> & Hitem).
      destruct (IH (html ++ item) w db outcomes Hdb Hlen) as (items & -> & Hall).
      exists (item :: items). split.
      * now rewrite concat_cons, append_assoc.
      * cbn [zip_with]. constructor; [exact Hitem | exact Hall].
Qed.

(** Two versions: the count of the first is 1234, the query of the second
    fails. *)
Lemma version_list_has_an_item_for_each_version_witness :
  exists items,
    consume (versionItems "" "/xig/resources" noParams [VStr "R4"; VStr "R5"] "<ul>"
               connectedWorld)
      [ORow (Some [("count", VNum 1234)]); OErr "no such column: R5"]
    = (Done connectedWorld ("<ul>" ++ String.concat "" items), [])
    /\ Forall2
         (fun (answered : JsVal * Outcome) item =>
            match errOf (snd answered), toLocaleString (countOf (snd answered)) with
            | None, Some n =>
                item = linkItem (buildVersionLinkUrl "/xig/resources" noParams (fst answered))
                         (fst answered) n
            | _, _ => item = errorItem (fst answered)
            end)
         [(VStr "R4", ORow (Some [("count", VNum 1234)]));
          (VStr "R5", OErr "no such column: R5")] items.
Proof.
  apply (proj2 (version_list_has_an_item_for_each_version "" "/xig/resources" noParams
                  [VStr "R4"; VStr "R5"]) "<ul>" connectedWorld
           {| handle := 0; dbPath := XIG_DB_PATH |}
           [ORow (Some [("count", VNum 1234)]); OErr "no such column: R5"]);
    reflexivity.
Defined.

(** ** The start of the module *)

Lemma loadTemplate_logs (readFault : option string) (w : World) :
  exists line, loadTemplate (E := string) readFault w = Done (addLog line w) tt.
Proof.
  unfold loadTemplate, bind, getWorld. cbn [bindTask].
  destruct (existsSync TEMPLATE_PATH w); [destruct readFault|]; eexists; reflexivity.
Qed.

(** X25: when the dataset file is there at the start of the module and
    cannot be opened, no update is ever scheduled.  The error of
    [initializeDatabase] takes [initializeXigModule] to its [catch] block
    (line 2523) before the daily schedule is registered (line 2516): the
    call resolves with no timer and no schedule, the failure is the last
    line logged, and [xigDb] holds the connection that is not open. *)
Theorem failed_open_at_start_schedules_nothing (readFault : option string) (w : World)
    (failure : Outcome) (message : string) :
  is_Some (files w !! XIG_DB_PATH) -> errOf failure = Some message ->
  exists after,
    consume (initializeXigModule readFault w) [failure] = (Done after [], [])
    /\ xigDb after = Some {| handle := handles w; dbPath := XIG_DB_PATH |}
    /\ last (logged after) = Some ("XIG module initialization failed: " ++ message).
Proof.
  intros Hfile Hfail. unfold initializeXigModule, tryCatch. rewrite consume_catch.
  unfold bind at 1, logMessage at 1, modify. cbn [bindTask].
  unfold bind at 1.
  destruct (loadTemplate_logs readFault (addLog "Initializing XIG module" w)) as (line & ->).
  cbn [bindTask]. unfold bind at 1. rewrite consume_bind.
  rewrite (initializeDatabase_open_fails _ failure message []); [|exact Hfile | exact Hfail].
  unfold bind, logMessage, modify, ret. cbn [bindTask]. rewrite consume_done.
  eexists. split; [reflexivity|]. split; [reflexivity|]. apply last_logged.
Qed.

Lemma failed_open_at_start_schedules_nothing_witness :
  exists after,
    consume (initializeXigModule None connectedWorld)
      [OErr "SQLITE_NOTADB: file is not a database"]
    = (Done after [], [])
    /\ xigDb after = Some {| handle := handles connectedWorld; dbPath := XIG_DB_PATH |}
    /\ last (logged after)
       = Some ("XIG module initialization failed: " ++ "SQLITE_NOTADB: file is not a database").
Proof.
  apply (failed_open_at_start_schedules_nothing None connectedWorld
           (OErr "SQLITE_NOTADB: file is not a database")).
  - eexists. reflexivity.
  - reflexivity.
Defined.

(** X26: when there is no dataset file at the start of the module,
    [initializeXigModule] opens nothing and resolves at once with the
    timer of the first download and the daily schedule, in that order;
    and when the file is there and its open succeeds, the call registers
    the daily schedule alone, however the rebuild of the cache ends. *)
Theorem start_schedules_the_updates (readFault : option string) (w : World) :
  (files w !! XIG_DB_PATH = None ->
   exists after,
     initializeXigModule readFault w = Done after [InitialDownload; DailyUpdate]
     /\ xigDb after = xigDb w)
  /\ (is_Some (files w !! XIG_DB_PATH) ->
      exists x k,
        initializeXigModule readFault w = Await x (DbOpen (handles w) XIG_DB_PATH) k
        /\ forall opened y,
             errOf opened = None ->
             ends (fun z timers =>
                     if existsSync XIG_DB_PATH z then timers = [DailyUpdate]
                     else timers = [InitialDownload; DailyUpdate])
               (fun _ _ => False) (k opened y)).
Proof.
  split.
  - intros Hnone. unfold initializeXigModule, tryCatch.
    unfold bind at 1, logMessage at 1, modify. cbn [bindTask].
    unfold bind at 1.
    destruct (loadTemplate_logs readFault (addLog "Initializing XIG module" w)) as (line & ->).
    cbn [bindTask]. unfold bind at 1.
    rewrite initializeDatabase_absent by exact Hnone. cbn [bindTask].
    unfold bind at 1, getWorld. cbn [bindTask].
    assert (Ex : existsSync XIG_DB_PATH
                   (addLog "XIG database file not found, will download on first update"
                      (addLog line (addLog "Initializing XIG module" w))) = false).
    { unfold existsSync. apply bool_decide_eq_false_2. cbn. rewrite Hnone.
      intros [? ?]; discriminate. }
    rewrite Ex. eexists. split; [reflexivity|]. reflexivity.
  - intros Hfile. unfold initializeXigModule, tryCatch.
    unfold bind at 1, logMessage at 1, modify. cbn [bindTask].
    unfold bind at 1.
    destruct (loadTemplate_logs readFault (addLog "Initializing XIG module" w)) as (line & ->).
    cbn [bindTask]. unfold bind at 1.
    unfold initializeDatabase, bind at 1, getWorld. cbn [bindTask].
    assert (Ex : existsSync XIG_DB_PATH (addLog line (addLog "Initializing XIG module" w))
                 = true).
    { unfold existsSync. apply bool_decide_eq_true_2. exact Hfile. }
    rewrite Ex. change (negb true) with false. cbv iota.
    unfold bind at 1, newDatabase. cbn [bindTask].
    unfold bind at 1, modify. cbn [bindTask].
    unfold bind at 1, await. cbn [bindTask catchTask].
    eexists _, _. split; [reflexivity|]. intros opened y Hopened. cbn beta.
    rewrite Hopened.
    apply (ends_catchTask _ (fun _ _ => False)); [|intros ? ? []].
    eapply ends_bindTask.
    + unfold bind at 1, logMessage at 1, modify. cbn [bindTask]. unfold tryCatch.
      apply (ends_catchTask (fun _ _ => True) (fun _ _ => True)).
      * apply ends_any.
      * intros z e _. exact I.
    + intros z [] _. unfold bind at 1, getWorld. cbn [bindTask].
      destruct (existsSync XIG_DB_PATH z) eqn:Ez; cbn [negb];
        unfold bind, logMessage, modify, ret; cbn [bindTask ends app];
        change (existsSync XIG_DB_PATH (addLog _ _)) with (existsSync XIG_DB_PATH z);
        now rewrite Ez.
Qed.

(** ** The manual update *)

(** A refresh whose download or validation throws ends without an error,
    with the connection, the cache and the dataset file it started with. *)
Lemma failed_fetch_settles (w : World) (outcomes rest : list Outcome) :
  (xigDb w = None -> files w !! XIG_DB_PATH = None) ->
  fsFault w (Unlink tempPath) = None ->
  fetchFails w outcomes rest ->
  exists after,
    consume (updateXigDatabase w) outcomes = (Done after tt, rest) /\ untouched w after.
Proof.
  intros Hnone Hfault Hfail.
  assert (Hstart : untouched w (updateStart w)) by (repeat split).
  rewrite updateXigDatabase_unfold, consume_catch, consume_bind.
  destruct Hfail as [(failed & e & Hd)|(fetched & mid & failed & e & Hd & Hv)].
  - rewrite Hd.
    pose proof (untouched_download w (updateStart w) outcomes Hstart) as Hu.
    rewrite Hd in Hu.
    destruct (update_handler_settles w failed e rest Hu Hnone Hfault)
      as (after & -> & Hafter & _).
    exists after. split; [reflexivity | exact Hafter].
  - rewrite Hd. unfold bind at 1. rewrite consume_bind, Hv.
    pose proof (untouched_download w (updateStart w) outcomes Hstart) as Hu.
    rewrite Hd in Hu.
    pose proof (untouched_validate w fetched mid Hu) as Hu'.
    rewrite Hv in Hu'.
    destruct (update_handler_settles w failed e rest Hu' Hnone Hfault)
      as (after & -> & Hafter & _).
    exists after. split; [reflexivity | exact Hafter].
Qed.

(** X27: [POST /update] answers that the database was updated when it
    was not.  A refresh whose download or validation fails catches its
    error (line 1588), so the handler's [await] returns and the handler
    sends status 200 with [SUCCESS] and [XIG database updated
    successfully], while the dataset file, the connection and the cache
    are what they were before the request. *)
Theorem manual_update_reports_success_after_failed_fetch (w : World)
    (outcomes rest : list Outcome) :
  (xigDb w = None -> files w !! XIG_DB_PATH = None) ->
  fsFault w (Unlink tempPath) = None ->
  fetchFails (addLog "Manual update triggered via API" w) outcomes rest ->
  exists after,
    consume (postUpdate w) outcomes
    = (Done after {| replyCode := 200; replyStatus := "SUCCESS";
                     replyMessage := "XIG database updated successfully";
                     replyError := None |}, rest)
    /\ files after !! XIG_DB_PATH = files w !! XIG_DB_PATH
    /\ xigDb after = xigDb w
    /\ configCache after = configCache w.
Proof.
  intros Hnone Hfault Hfail.
  destruct (failed_fetch_settles (addLog "Manual update triggered via API" w) outcomes rest
              Hnone Hfault Hfail) as (after & Hdone & (A1 & A2 & A3 & A4 & A5)).
  unfold postUpdate, tryCatch. rewrite consume_catch.
  unfold bind at 1, logMessage at 1, modify. cbn [bindTask].
  unfold bind at 1. rewrite consume_bind, Hdone. unfold ret. rewrite consume_done.
  exists after. repeat split; assumption.
Qed.

Lemma manual_update_reports_success_after_failed_fetch_witness :
  exists after,
    consume (postUpdate connectedWorld) [OResponse 404 None (Finished "")]
    = (Done after {| replyCode := 200; replyStatus := "SUCCESS";
                     replyMessage := "XIG database updated successfully";
                     replyError := None |}, [])
    /\ files after !! XIG_DB_PATH = files connectedWorld !! XIG_DB_PATH
    /\ xigDb after = xigDb connectedWorld
    /\ configCache after = configCache connectedWorld.
Proof.
  apply (manual_update_reports_success_after_failed_fetch connectedWorld
           [OResponse 404 None (Finished "")] []).
  - discriminate.
  - reflexivity.
  - left. eexists. eexists. reflexivity.
Defined.

(** ** The links of the control panel *)

Lemma join_snoc (sep : string) (parts : list string) (p : string) :
  parts <> [] -> join sep (parts ++ [p])%list = join sep parts ++ sep ++ p.
Proof.
  induction parts as [|x rest IH]; intros Hne; [congruence|].
  destruct rest as [|y rest].
  - reflexivity.
  - change (join sep ((x :: y :: rest) ++ [p])%list)
      with (x ++ sep ++ join sep ((y :: rest) ++ [p])%list).
    rewrite IH by discriminate.
    change (join sep (x :: y :: rest)) with (x ++ sep ++ join sep (y :: rest)).
    now rewrite !append_assoc.
Qed.

(** A query string made of keys and encoded values is read back. *)
Lemma query_reads_back (pairs : list (string * string)) :
  pairs <> [] ->
  Forall (fun kv : string * string =>
            plainKey (fst kv) /\ ("&"%char ∉ chars (snd kv)) /\ ("="%char ∉ chars (snd kv)))
    pairs ->
  map (jsSplit "=")
    (jsSplit "&" (join "&" (map (fun kv : string * string => fst kv ++ "=" ++ snd kv) pairs)))
  = map (fun kv : string * string => [fst kv; snd kv]) pairs.
Proof.
  intros Hne Hall. rewrite jsSplit_join.
  - rewrite map_map. apply map_ext_in. intros [k v] Hin. cbn [fst snd].
    rewrite Forall_forall in Hall. apply list_elem_of_In in Hin.
    destruct (Hall _ Hin) as [[_ Hk] [_ Hv]]. cbn [fst snd] in Hk, Hv.
    unfold jsSplit. rewrite splitFrom_app by exact Hk. cbn [String.append].
    rewrite splitFrom_sep. f_equal. now apply splitFrom_plain.
  - destruct pairs; [congruence | discriminate].
  - apply Forall_fmap. eapply Forall_impl; [exact Hall|].
    intros [k v] [[Hk _] [Hv _]]. cbn [fst snd] in *. unfold compose. cbn [fst snd].
    rewrite !chars_app. intros Hin.
    apply elem_of_app in Hin as [Hin|Hin]; [now apply Hk|].
    apply elem_of_app in Hin as [Hin|Hin]; [|now apply Hv].
    apply list_elem_of_singleton in Hin. discriminate.
Qed.

Lemma paramNames_plain (key : string) : key ∈ paramNames -> plainKey key.
Proof.
  unfold paramNames. intros Hin.
  repeat (apply elem_of_cons in Hin as [->|Hin]; [split; compute_done|]). inversion Hin.
Qed.

(** X28: a link of the version, authority, realm or view bar keeps every
    other facet of the request and sets its own once.  For a base address
    without a question mark, the address of the link is the base address,
    a question mark and a query string which, split at [&] and at [=],
    gives the parameters of the request that have a value, the bar's own
    left out, followed by the bar's key with the encoded value of the
    link: the separator written before the key (lines 1065, 1092, 1119,
    1147) is the right one, and the current offset is among the
    parameters kept. *)
Theorem bar_link_keeps_the_other_facets (baseUrl key : string) (q : QueryParams)
    (value : JsVal) :
  "?"%char ∉ chars baseUrl -> plainKey key ->
  exists queryString,
    barLink (buildBaseUrl baseUrl q key) key value = baseUrl ++ "?" ++ queryString
    /\ map (jsSplit "=") (jsSplit "&" queryString) = carriedWith key value q.
Proof.
  intros Hbase Hkey. unfold barLink, buildBaseUrl, carriedWith, carried, queryStringOf.
  cbv zeta.
  set (kept := filter (fun kv : string * JsVal => truthyV (snd kv) = true)
                 (withoutKey key (paramEntries q))).
  set (pairs := map (fun kv : string * JsVal =>
                       (fst kv, encodeURIComponent (jsString (snd kv)))) kept).
  set (own := (key, encodeURIComponent (jsString value))).
  assert (Hrender : map (fun kv : string * JsVal =>
                           fst kv ++ "=" ++ encodeURIComponent (jsString (snd kv))) kept
                    = map (fun kv : string * string => fst kv ++ "=" ++ snd kv) pairs).
  { unfold pairs. now rewrite map_map. }
  assert (Hcarried : (map (fun kv : string * JsVal =>
                             [fst kv; encodeURIComponent (jsString (snd kv))]) kept
                      ++ [[key; encodeURIComponent (jsString value)]])%list
                     = map (fun kv : string * string => [fst kv; snd kv])
                         (pairs ++ [own])%list).
  { unfold pairs, own. now rewrite map_app, map_map. }
  assert (Hplain : Forall (fun kv : string * string =>
                             plainKey (fst kv) /\ ("&"%char ∉ chars (snd kv))
                             /\ ("="%char ∉ chars (snd kv))) (pairs ++ [own])%list).
  { apply Forall_app_2.
    - unfold pairs. apply Forall_fmap. apply Forall_forall. intros [k v] Hin.
      unfold compose. cbn [fst snd]. split; [|split].
      + apply paramNames_plain. apply (paramEntries_keys q (k, v)).
        unfold kept, withoutKey in Hin.
        apply list_elem_of_filter in Hin as [_ Hin].
        now apply list_elem_of_filter in Hin as [_ Hin].
      + apply encoded_without; [reflexivity | discriminate].
      + apply encoded_without; [reflexivity | discriminate].
    - apply Forall_cons_2; [|constructor]. unfold own. cbn [fst snd].
      split; [exact Hkey|]. split; apply encoded_without; (reflexivity || discriminate). }
  rewrite Hrender, Hcarried.
  exists (join "&" (map (fun kv : string * string => fst kv ++ "=" ++ snd kv)
                      (pairs ++ [own])%list)).
  split.
  - destruct pairs as [|pair pairs'] eqn:Epairs.
    + cbn [map join app]. cbn [String.eqb negb].
      rewrite append_empty_r. unfold includes.
      rewrite bool_decide_eq_false_2 by exact Hbase. reflexivity.
    + rewrite map_app.
      change (map (fun kv : string * string => fst kv ++ "=" ++ snd kv) [own])
        with [key ++ "=" ++ encodeURIComponent (jsString value)].
      rewrite (join_snoc "&" (map (fun kv : string * string => fst kv ++ "=" ++ snd kv)
                                (pair :: pairs')))
        by discriminate.
      assert (Hne : String.eqb (join "&" (map (fun kv : string * string =>
                                                 fst kv ++ "=" ++ snd kv) (pair :: pairs')))
                      "" = false).
      { cbn [map].
        assert (exists c t, fst pair ++ "=" ++ snd pair = String c t) as (c & t & ->).
        { destruct (fst pair); cbn [String.append]; eauto. }
        destruct (join_starts "&" c t
                    (map (fun kv : string * string => fst kv ++ "=" ++ snd kv) pairs'))
          as [tail ->]. reflexivity. }
      rewrite Hne. cbn [negb]. unfold includes.
      rewrite bool_decide_eq_true_2.
      * cbn [map join]. now rewrite !append_assoc.
      * rewrite !chars_app. apply elem_of_app. right. apply elem_of_app. left.
        apply list_elem_of_singleton. reflexivity.
  - apply query_reads_back; [|exact Hplain]. destruct pairs; discriminate.
Qed.

Lemma bar_link_keeps_the_other_facets_witness :
  exists queryString,
    barLink (buildBaseUrl "/xig/resources" sampleRequest "ver") "ver" (VStr "R4")
    = "/xig/resources" ++ "?" ++ queryString
    /\ map (jsSplit "=") (jsSplit "&" queryString)
       = [["realm"; "us"]; ["type"; "rp"]; ["offset"; "200"]; ["ver"; "R4"]].
Proof.
  apply (bar_link_keeps_the_other_facets "/xig/resources" "ver" sampleRequest (VStr "R4")).
  - compute_done.
  - split; compute_done.
Defined.
